(** * cc-backend: metric data service, job repository and configuration

    A shallow embedding of

    - [internal/metricdata/metricdata.go]: [Init], [LoadData], [LoadAverages],
      [LoadNodeData], [cacheKey] and [prepareJobData];
    - [repository/job.go]: [Find], [FindById], [Start], [Stop], [CountJobs],
      [UpdateMonitoringStatus], [Archive], [CreateTag], [AddTag], [TagId],
      [AddTagOrCreate] and [FindJobOrUser];
    - [repository/init.go] (second half of the same source file): the schema
      [JobsDBSchema], [InitDB] and [loadJob];
    - [config/config.go]: [Init], [GetUIConfig], [UpdateConfig],
      [GetClusterConfig], [GetPartition] and [GetMetricConfig].

    Go maps are finite maps ([gmap]); a Go slice is an optional list, the
    absent list being the [nil] slice; a Go function returning [(T, error)]
    returns a pair whose second component is an optional error; package level
    variables and the functions of other packages are section variables. *)

From Stdlib Require Import ZArith Floats.
From stdpp Require Import base gmap sets list strings pretty.

Local Open Scope Z_scope.

(** ** Go preliminaries *)

(** The [error] interface, reduced to the message an error carries. *)
Abbreviation error := string (only parsing).

(** A slice: [None] is [nil], [Some l] a non-nil slice with the elements [l]
    (the code distinguishes [metrics == nil] from an empty list). *)
Definition slice (A : Type) : Type := option (list A).

Definition elems {A : Type} (s : slice A) : list A := default [] s.

(** [append(s, x)]: the result is never [nil]. *)
Definition append {A : Type} (s : slice A) (x : A) : slice A :=
Some (elems s ++ [x]).

(** [strings.Join]. *)
Fixpoint join (sep : string) (l : list string) : string :=
match l with
| [] => ""
| [x] => x
| x :: xs => x +:+ sep +:+ join sep xs
end.

(** The verb [%v] applied to a slice of strings: [[a b c]]. *)
Definition fmt_v (s : slice string) : string :=
"[" +:+ join " " (elems s) +:+ "]".

(** [time.Duration] counts nanoseconds. *)
Definition Minute : Z := 60 * 1000000000.
Definition Hour : Z := 60 * Minute.

(** * Package metricdata *)

Module MetricData.

(** ** pkg/schema: the shape of metric results

    Package [pkg/schema] is not among the sources; its types and constants
    are taken from the uses the sources and the test make of them. *)

(** [schema.MetricScope] and [schema.JobState] are string types. *)
Abbreviation MetricScope := string (only parsing).
Abbreviation JobState := string (only parsing).

(** Modelled from the spec: the constants [schema.MetricScopeNode] and
    [schema.JobStateRunning], by the names the cluster configuration and the
    [CHECK] constraint on [job_state] give the node scope and the running
    state. *)
Definition MetricScopeNode : MetricScope := "node".
Definition JobStateRunning : JobState := "running".

(** Modelled from the spec: the constants [schema.MonitoringStatus...]. The
    monitoring status is an enumeration (disabled / running-or-archiving /
    archiving-failed / archiving-succeeded) that the job table stores as 0
    to 3. *)
Definition MonitoringStatusDisabled : Z := 0.
Definition MonitoringStatusRunningOrArchiving : Z := 1.
Definition MonitoringStatusArchivingFailed : Z := 2.
Definition MonitoringStatusArchivingSuccessful : Z := 3.

(** Modelled from the spec: [schema.JobData] maps a metric name to a mapping
    from scope to a metric record containing unit, scope, sampling interval,
    an ordered sequence of per-entity series (each a host identifier,
    optional statistics, and an ordered sequence of samples), and an optional
    derived statistics series. *)
Record MetricStatistics := mkMetricStatistics {
  Avg : float;
  Min : float;
  Max : float
}.

Record Series := mkSeries {
  Hostname : string;
  Statistics : option MetricStatistics;
  Data : list float
}.

Record StatsSeries := mkStatsSeries {
  SeriesMean : list float;
  SeriesMin : list float;
  SeriesMax : list float
}.

Record JobMetric := mkJobMetric {
  Unit : string;
  Scope : MetricScope;
  Timestep : Z;
  SeriesOf : list Series;
  StatisticsSeries : option StatsSeries
}.

(** [schema.JobData]: metric name, then scope, to the metric record. The Go
    map holds pointers to records; [prepareJobData] changes a record in
    place by a function of that record alone, applied at most once, so a
    record is kept by value. *)
Abbreviation JobData := (gmap string (gmap string JobMetric)) (only parsing).

(** The record a job data holds for a metric at a scope. *)
Definition recordAt (jd : gmap string (gmap string JobMetric)) (metric : string)
    (scope : MetricScope) : option JobMetric :=
jd !! metric ≫= λ perscope, perscope !! scope.

(** The fields of [schema.Job] that [LoadData] reads. *)
Record Job := mkJob {
  ID : Z;
  Cluster : string;
  State : JobState;
  MonitoringStatus : Z
}.

Record MetricConfig := mkMetricConfig { Name : string }.

Record ClusterConfig := mkClusterConfig {
  ClusterName : string;
  MetricConfigs : list MetricConfig
}.

(** The interface [MetricDataRepository], as the record of its methods that
    [LoadData] calls. *)
Record MetricDataRepository := mkMetricDataRepository {
  repoLoadData : Job → slice string → slice MetricScope →
                 gmap string (gmap string JobMetric) * option error
}.

(** ** The state [LoadData] runs in *)

(** Where a computation went for its data. *)
Inductive Source :=
| SrcLive (cluster : string)
| SrcArchive (job : Z).

(** What the cache holds: the [interface{}] the closure returns is either an
    [error] or a [schema.JobData]. *)
Inductive CacheVal :=
| CvErr (e : error)
| CvData (jd : gmap string (gmap string JobMetric)).

Record World := mkWorld {
  cache : gmap string CacheVal;
  logs : list string;
  reads : list Source
}.

(** State passing: a computation maps the world to a result and a world. *)
Definition M (A : Type) : Type := World → A * World.

#[global] Instance M_ret : MRet M := λ A (a : A) w, (a, w).

#[global] Instance M_bind : MBind M :=
λ A B (k : A → M B) (m : M A) w, let '(a, w') := m w in k a w'.

(** [log.Errorf]. *)
Definition logErrorf (msg : string) : M unit :=
λ w, (tt, mkWorld (cache w) (logs w ++ [msg]) (reads w)).

(** The record that a source has been read. *)
Definition readFrom (s : Source) : M unit :=
λ w, (tt, mkWorld (cache w) (logs w) (reads w ++ [s])).

(** Modelled from the spec: [lrucache.Cache.Get] (package [pkg/lrucache] is
    not among the sources). [GetOrCompute(key, computeFn)]: a stored value is
    returned without running [computeFn]; otherwise [computeFn] runs and its
    value is returned, and it is stored unless its time-to-live is zero.
    What is stored does not stay for ever: entries expire once their
    time-to-live elapses and are evicted once the total weight exceeds the
    capacity; this is the step [forgets] below, which may follow a call at
    once. *)
Definition cacheGet (key : string) (computeFn : M (CacheVal * Z * Z)) : M CacheVal :=
λ w, match cache w !! key with
     | Some v => (v, w)
     | None =>
         let '((v, ttl, _), w') := computeFn w in
         if ttl =? 0 then (v, w')
         else (v, mkWorld (<[key := v]> (cache w')) (logs w') (reads w'))
     end.

(** Modelled from the spec: expiry and eviction. From one call to the next
    the cache may lose any of its entries, and gains none. *)
Definition forgets (w w' : World) : Prop :=
cache w' ⊆ cache w ∧ logs w' = logs w ∧ reads w' = reads w.

(** [cacheKey]: [fmt.Sprintf("%d(%s):[%v],[%v]", job.ID, job.State, metrics, scopes)]. *)
Definition cacheKey (job : Job) (metrics : slice string) (scopes : slice MetricScope) : string :=
pretty (ID job) +:+ "(" +:+ State job +:+ "):[" +:+ fmt_v metrics +:+ "],[" +:+ fmt_v scopes +:+ "]".

Section Service.

(** The package variables set by [Init]. *)
Variable metricDataRepos : gmap string MetricDataRepository.
Variable useArchive : bool.

(** [config.GetCluster]; its result is dereferenced without a test. *)
Variable GetCluster : string → ClusterConfig.

(** [loadFromArchive] (archive.go of the package, not among the sources). *)
Variable loadFromArchive : Job → gmap string (gmap string JobMetric) * option error.

(** [schema.JobData.Size]. *)
Variable JobDataSize : gmap string (gmap string JobMetric) → Z.

(** The reduction of the series of a record to per-timestep minimum, mean
    and maximum, and the derivation of a node-scope record from the finer
    scopes of a metric (nothing when there is none to derive it from): the
    numeric kernels of [AddStatisticsSeries] and [AddNodeScope]. *)
Variable statisticsSeriesOf : list Series → StatsSeries.
Variable nodeScopeOf : gmap string JobMetric → option JobMetric.

(** Modelled from the spec: [schema.JobMetric.AddStatisticsSeries] (package
    [pkg/schema] is not among the sources): a derived statistics series,
    per-timestep min/avg/max across the series, is computed and attached. *)
Definition AddStatisticsSeries (jm : JobMetric) : JobMetric :=
mkJobMetric (Unit jm) (Scope jm) (Timestep jm) (SeriesOf jm)
  (Some (statisticsSeriesOf (SeriesOf jm))).

(** Modelled from the spec: [schema.JobData.AddNodeScope]: the metric gets a
    synthesized node-scope view derived from finer scopes if it is not
    already present at node scope. *)
Definition AddNodeScope (metric : string) (jd : gmap string (gmap string JobMetric)) :
  gmap string (gmap string JobMetric) :=
match jd !! metric with
| None => jd
| Some perscope =>
    match perscope !! MetricScopeNode with
    | Some _ => jd
    | None =>
        match nodeScopeOf perscope with
        | Some jm => <[metric := <[MetricScopeNode := jm]> perscope]> jd
        | None => jd
        end
    end
end.

Definition maxSeriesSize : nat := 15.

(** The test of the inner loop of [prepareJobData]: [continue] when the
    record has a statistics series or at most [maxSeriesSize] series. *)
Definition skipsStatistics (jm : JobMetric) : bool :=
bool_decide (is_Some (StatisticsSeries jm)) || bool_decide (length (SeriesOf jm) ≤ maxSeriesSize)%nat.

Definition prepareJobData (job : Job) (jobData : gmap string (gmap string JobMetric))
    (scopes : slice MetricScope) : gmap string (gmap string JobMetric) :=
let jobData1 :=
  (λ perscope : gmap string JobMetric,
     (λ jm, if skipsStatistics jm then jm else AddStatisticsSeries jm) <$> perscope)
  <$> jobData in
let nodeScopeRequested :=
  foldl (λ acc scope, if decide (scope = MetricScopeNode) then true else acc) false (elems scopes) in
if nodeScopeRequested
then AddNodeScope "mem_bw" (AddNodeScope "flops_any" jobData1)
else jobData1.

(** The routing test of [LoadData]. *)
Definition readsLive (job : Job) : bool :=
bool_decide (State job = JobStateRunning)
|| bool_decide (MonitoringStatus job = MonitoringStatusRunningOrArchiving)
|| negb useArchive.

(** Lines 119 to 138 of [LoadData]: the archived data cut down to the
    requested metrics and scopes. *)
Definition trimScopes (perscope : gmap string JobMetric) (scopes : slice MetricScope) :
  gmap string JobMetric :=
if decide (1 < size perscope)%nat then
  let subset :=
    foldl (λ subset scope,
             match perscope !! scope with
             | Some jm => <[scope := jm]> subset
             | None => subset
             end) (∅ : gmap string JobMetric) (elems scopes) in
  if decide (0 < size subset)%nat then subset else perscope
else perscope.

Definition trimArchived (jd : gmap string (gmap string JobMetric))
    (metrics : slice string) (scopes : slice MetricScope) : gmap string (gmap string JobMetric) :=
foldl (λ res metric,
         match jd !! metric with
         | Some perscope => <[metric := trimScopes perscope scopes]> res
         | None => res
         end) (∅ : gmap string (gmap string JobMetric)) (elems metrics).

(** The defaults of the live branch: a [nil] scope list becomes the node
    scope, a [nil] metric list all metrics configured for the cluster. *)
Definition defaultScopes (scopes : slice MetricScope) : slice MetricScope :=
if scopes is None then append scopes MetricScopeNode else scopes.

Definition defaultMetrics (job : Job) (metrics : slice string) : slice string :=
if metrics is None
then foldl (λ ms mc, append ms (Name mc)) metrics (MetricConfigs (GetCluster (Cluster job)))
else metrics.

(** The tail shared by both branches of the closure. *)
Definition finishLoad (job : Job) (jd : gmap string (gmap string JobMetric))
    (scopes : slice MetricScope) (size : Z) : CacheVal * Z * Z :=
let ttl := if decide (State job = JobStateRunning) then 2 * Minute else 5 * Hour in
(CvData (prepareJobData job jd scopes), ttl, size).

(** The closure [LoadData] hands to the cache. *)
Definition loadDataFn (job : Job) (metrics : slice string) (scopes : slice MetricScope) :
  M (CacheVal * Z * Z) :=
if readsLive job then
  match metricDataRepos !! Cluster job with
  | None =>
      mret (CvErr ("no metric data repository configured for '" +:+ Cluster job +:+ "'"), 0, 0)
  | Some repo =>
      let scopes := defaultScopes scopes in
      let metrics := defaultMetrics job metrics in
      _ ← readFrom (SrcLive (Cluster job)) ;
      let '(jd, err) := repoLoadData repo job metrics scopes in
      match err with
      | Some e =>
          if decide (size jd ≠ 0%nat) then
            _ ← logErrorf ("partial error: " +:+ e) ;
            mret (finishLoad job jd scopes (JobDataSize jd))
          else mret (CvErr e, 0, 0)
      | None => mret (finishLoad job jd scopes (JobDataSize jd))
      end
  end
else
  _ ← readFrom (SrcArchive (ID job)) ;
  let '(jd, err) := loadFromArchive job in
  match err with
  | Some e => mret (CvErr e, 0, 0)
  | None =>
      let jd :=
        if bool_decide (is_Some metrics) || bool_decide (is_Some scopes) then
          let metrics := if metrics is None then Some (map_to_list jd).*1 else metrics in
          trimArchived jd metrics scopes
        else jd in
      mret (finishLoad job jd scopes 1)
  end.

(** [LoadData]: the cached value is an error or the data. *)
Definition LoadData (job : Job) (metrics : slice string) (scopes : slice MetricScope) :
  M (gmap string (gmap string JobMetric) * option error) :=
data ← cacheGet (cacheKey job metrics scopes) (loadDataFn job metrics scopes) ;
match data with
| CvErr e => mret (∅, Some e)
| CvData jd => mret (jd, None)
end.

End Service.

(** ** The other entry points of the package: [Init], [LoadAverages], [LoadNodeData] *)

(** The interface [MetricDataRepository] with the methods [LoadStats] and
    [LoadNodeData] beside [LoadData]. [LoadNodeData] answers with a map from
    host to metric to records, which may be [nil]. *)
Record Adapter := mkAdapter {
  adapterData : MetricDataRepository;
  adapterLoadStats : Job → slice string →
                     gmap string (gmap string MetricStatistics) * option error;
  adapterLoadNodeData : string → slice string → slice string → slice MetricScope → Z → Z →
                        option (gmap string (gmap string (list JobMetric))) * option error
}.

(** [schema.NaN]. *)
Definition NaN : float := nan.

(** [data[i] = append(data[i], x)]; nothing when [i] is out of range (the
    program panics). *)
Definition appendAt (data : list (list float)) (i : nat) (x : float) : option (list (list float)) :=
row ← data !! i; Some (<[i := row ++ [x]]> data).

(** The inner loop of [LoadAverages]: the averages of the nodes added up in
    the order the loop meets them. *)
Definition sumAverages (nodes : list (string * MetricStatistics)) : float :=
foldl (λ sum node, (sum + Avg node.2)%float) 0%float nodes.

(** The value [LoadAverages] appends for the metric at index [i]: the sum of
    the averages of its nodes, or [NaN] when the statistics have no entry
    for the metric. The language leaves open in which order a loop meets the
    entries of a map: [rangeNodes i nodes] is the order in which the loop at
    index [i] meets [nodes]. *)
Definition averageOf
    (rangeNodes : nat → gmap string MetricStatistics → list (string * MetricStatistics))
    (stats : gmap string (gmap string MetricStatistics)) (i : nat) (m : string) : float :=
match stats !! m with
| None => NaN
| Some nodes => sumAverages (rangeNodes i nodes)
end.

(** The loop [for i, m := range metrics] of [LoadAverages], from index [i]. *)
Fixpoint averagesFrom
    (rangeNodes : nat → gmap string MetricStatistics → list (string * MetricStatistics))
    (stats : gmap string (gmap string MetricStatistics)) (i : nat)
    (metrics : list string) (data : list (list float)) : option (list (list float)) :=
match metrics with
| [] => Some data
| m :: ms =>
    data' ← appendAt data i (averageOf rangeNodes stats i m);
    averagesFrom rangeNodes stats (S i) ms data'
end.

(** The cluster configurations [Init] ranges over: the name, and the raw
    repository configuration when there is one. *)
Record ClusterEntry := mkClusterEntry {
  EntryName : string;
  EntryRepository : option string
}.

(** The package variables. *)
Record Globals := mkGlobals {
  gUseArchive : bool;
  gJobArchivePath : string;
  gRepos : gmap string Adapter
}.

Section Queries.

Variable adapters : gmap string Adapter.
Variable useArchive : bool.
Variable GetCluster : string → ClusterConfig.

(** [loadAveragesFromArchive] (archive.go of the package, not among the
    sources): the data it leaves and the error it returns. *)
Variable loadAveragesFromArchive :
  Job → slice string → list (list float) → list (list float) * option error.

(** The order in which the loop over the nodes of the metric at an index
    meets them. *)
Variable rangeNodes : nat → gmap string MetricStatistics → list (string * MetricStatistics).

(** [LoadAverages]: the rows of [data] it leaves and the error it returns;
    nothing when an index is out of range. *)
Definition LoadAverages (job : Job) (metrics : slice string) (data : list (list float)) :
  option (list (list float) * option error) :=
if negb (bool_decide (State job = JobStateRunning)) && useArchive
then Some (loadAveragesFromArchive job metrics data)
else
  match adapters !! Cluster job with
  | None =>
      Some (data, Some ("no metric data repository configured for '" +:+ Cluster job +:+ "'"))
  | Some repo =>
      let '(stats, err) := adapterLoadStats repo job metrics in
      match err with
      | Some e => Some (data, Some e)
      | None => data' ← averagesFrom rangeNodes stats 0 (elems metrics) data; Some (data', None)
      end
  end.

(** [LoadNodeData]. *)
Definition LoadNodeData (cluster : string) (metrics nodes : slice string)
    (scopes : slice MetricScope) (from to : Z) :
  M (option (gmap string (gmap string (list JobMetric))) * option error) :=
match adapters !! cluster with
| None => mret (None, Some ("no metric data repository configured for '" +:+ cluster +:+ "'"))
| Some repo =>
    let metrics :=
      if metrics is None
      then foldl (λ ms mc, append ms (Name mc)) metrics (MetricConfigs (GetCluster cluster))
      else metrics in
    let '(data, err) := adapterLoadNodeData repo cluster metrics nodes scopes from to in
    let finish : M (option (gmap string (gmap string (list JobMetric))) * option error) :=
      match data with
      | None =>
          mret (None, Some ("the metric data repository for '" +:+ cluster
                            +:+ "' does not support this query"))
      | Some _ => mret (data, None)
      end in
    match err with
    | Some e =>
        if decide (size (default ∅ data) ≠ 0%nat) then
          _ ← logErrorf ("partial error: " +:+ e) ; finish
        else mret (None, Some e)
    | None => finish
    end
end.

End Queries.

Section Initialisation.

(** [json.Unmarshal] of the raw configuration into the struct with the one
    field [kind]. *)
Variable kindOf : string → error + string.

(** The three implementations of the interface and their [Init] on the raw
    configuration (not among the sources). *)
Variable newCCMetricStore : string → error + Adapter.
Variable newInfluxDBv2 : string → error + Adapter.
Variable newTest : string → error + Adapter.

(** The body of the loop of [Init] for one cluster: the registry it leaves,
    and the error it returns with. *)
Definition initCluster (repos : gmap string Adapter) (cluster : ClusterEntry) :
  gmap string Adapter * option error :=
match EntryRepository cluster with
| None => (repos, None)
| Some raw =>
    match kindOf raw with
    | inl err => (repos, Some err)
    | inr kind =>
        let mdr :=
          if decide (kind = "cc-metric-store") then inr (newCCMetricStore raw)
          else if decide (kind = "influxdb") then inr (newInfluxDBv2 raw)
          else if decide (kind = "test") then inr (newTest raw)
          else inl ("unkown metric data repository '" +:+ kind +:+ "' for cluster '"
                    +:+ EntryName cluster +:+ "'") in
        match mdr with
        | inl err => (repos, Some err)
        | inr (inl err) => (repos, Some err)
        | inr (inr repo) => (<[EntryName cluster := repo]> repos, None)
        end
    end
end.

Fixpoint initClusters (repos : gmap string Adapter) (clusters : list ClusterEntry) :
  gmap string Adapter * option error :=
match clusters with
| [] => (repos, None)
| c :: cs =>
    match initCluster repos c with
    | (repos', Some err) => (repos', Some err)
    | (repos', None) => initClusters repos' cs
    end
end.

(** [Init], on the cluster configurations [config.Clusters]. *)
Definition Init (g : Globals) (clusters : list ClusterEntry) (jobArchivePath : string)
    (disableArchive : bool) : Globals * option error :=
let '(repos, err) := initClusters (gRepos g) clusters in
(mkGlobals (negb disableArchive) jobArchivePath repos, err).

End Initialisation.

End MetricData.

(** * Package repository *)

Module Repository.

(** ** The tables of [JobsDBSchema]

    A row of [job] carries the columns that the statements of the package
    write: those of the [INSERT] of [Start], and the aggregate columns
    [Archive] and the import set. The primary key [id] is the key of the
    table. The columns [subcluster], [walltime], [net_data_vol_total] and
    [file_data_vol_total] of the schema are written and read by no statement
    of job.go and are not kept in the row; that an [INSERT] has to name
    [subcluster], which is [NOT NULL] with no default, is tested on the
    statement ([insertJobColumns]). *)
Record JobRow := mkJobRow {
  job_id : Z;
  user : string;
  project : string;
  cluster : string;
  partition : string;
  array_job_id : Z;
  num_nodes : Z;
  num_hwthreads : Z;
  num_acc : Z;
  exclusive : Z;
  monitoring_status : Z;
  smt : Z;
  job_state : string;
  start_time : Z;
  duration : Z;
  resources : string;
  meta_data : string;
  mem_used_max : float;
  flops_any_avg : float;
  mem_bw_avg : float;
  load_avg : float;
  net_bw_avg : float;
  file_bw_avg : float
}.

Record TagRow := mkTagRow {
  tag_type : string;
  tag_name : string
}.

Record Tables := mkTables {
  jobTable : gmap Z JobRow;
  tagTable : gmap Z TagRow;
  jobtagTable : gset (Z * Z)
}.

(** The tables as [JobsDBSchema] leaves them: dropped and created anew. *)
Definition emptyTables : Tables := mkTables ∅ ∅ ∅.

(** What a statement fails with. *)
Inductive Err :=
| ErrCheck (table : string)
| ErrNotNull (column : string)
| ErrUnique (columns : string)
| ErrForeignKey
| ErrReadDir (path : string)
| ErrOpen (path : string)
| ErrDecode (path : string)
| ErrSanity (msg : string).

(** [CHECK(job_state IN (...))]. *)
Definition jobStates : list string :=
["running"; "completed"; "failed"; "cancelled"; "stopped"; "timeout"; "preempted"; "out_of_memory"].

(** The [CHECK] constraints of table [job]. *)
Definition jobChecks (r : JobRow) : bool :=
bool_decide (job_state r ∈ jobStates)
&& bool_decide (smt r ∈ [0; 1])
&& bool_decide (exclusive r ∈ [0; 1; 2])
&& bool_decide (monitoring_status r ∈ [0; 1; 2; 3]).

(** The id of an inserted row ([INTEGER PRIMARY KEY] with no value given):
    one more than the largest id in use. *)
Definition nextRowid {A : Type} (t : gmap Z A) : Z :=
1 + map_fold (λ k _ acc, Z.max k acc) 0 t.

(** A [REAL] value is bound as [NULL] when it is not a number. *)
Definition isNull (v : float) : bool := PrimFloat.is_nan v.

(** The six aggregate columns, [REAL NOT NULL], in the order of the schema,
    with the value a row has for each. *)
Definition realColumns (r : JobRow) : list (string * float) :=
[("mem_used_max", mem_used_max r); ("flops_any_avg", flops_any_avg r);
 ("mem_bw_avg", mem_bw_avg r); ("load_avg", load_avg r);
 ("net_bw_avg", net_bw_avg r); ("file_bw_avg", file_bw_avg r)].

(** The first of the given [NOT NULL] columns that is bound to [NULL]. *)
Definition nullColumn (columns : list (string * float)) : option string :=
fst <$> List.find (λ c : string * float, isNull c.2) columns.

(** [INSERT INTO job] by a statement that names every column: the [NOT NULL]
    constraints of the aggregate columns are tested, then the [CHECK]
    constraints; the row gets the next id. *)
Definition insertJob (t : Tables) (r : JobRow) : Err + Tables * Z :=
match nullColumn (realColumns r) with
| Some c => inl (ErrNotNull ("job." +:+ c))
| None =>
    if jobChecks r then
      let id := nextRowid (jobTable t) in
      inr (mkTables (<[id := r]> (jobTable t)) (tagTable t) (jobtagTable t), id)
    else inl (ErrCheck "job")
end.

(** The columns of [job] that are [NOT NULL] and have no [DEFAULT], in the
    order of the schema. *)
Definition jobRequired : list string :=
["job_id"; "cluster"; "subcluster"; "start_time"; "user"; "project"; "partition";
 "array_job_id"; "job_state"; "resources"; "num_nodes"; "num_hwthreads"; "num_acc"].

(** [INSERT INTO job (columns) VALUES ...]: a column the statement does not
    name takes its default, which is [NULL] when the schema gives none; the
    [NOT NULL] constraints are tested first. *)
Definition insertJobColumns (columns : list string) (t : Tables) (r : JobRow) :
  Err + Tables * Z :=
match List.find (λ c, negb (bool_decide (c ∈ columns))) jobRequired with
| Some c => inl (ErrNotNull ("job." +:+ c))
| None => insertJob t r
end.

(** The rows of [tag] with the given type and name, with their ids. *)
Definition selectTag (t : Tables) (tagType tagName : string) : list (Z * TagRow) :=
filter (λ p : Z * TagRow, tag_type p.2 = tagType ∧ tag_name p.2 = tagName)
  (map_to_list (tagTable t)).

(** [INSERT INTO tag]: [UNIQUE (tag_type, tag_name)] is tested. *)
Definition insertTag (t : Tables) (tagType tagName : string) : Err + Tables * Z :=
match selectTag t tagType tagName with
| [] =>
    let id := nextRowid (tagTable t) in
    inr (mkTables (jobTable t) (<[id := mkTagRow tagType tagName]> (tagTable t)) (jobtagTable t), id)
| _ :: _ => inl (ErrUnique "tag.tag_type, tag.tag_name")
end.

(** [INSERT INTO jobtag]: [PRIMARY KEY (job_id, tag_id)] is tested, and the
    two foreign keys when the connection enforces them. *)
Definition insertJobTag (foreignKeys : bool) (t : Tables) (jobId tagId : Z) : Err + Tables :=
if bool_decide ((jobId, tagId) ∈ jobtagTable t) then inl (ErrUnique "jobtag.job_id, jobtag.tag_id")
else if foreignKeys && negb (bool_decide (is_Some (jobTable t !! jobId))
                             && bool_decide (is_Some (tagTable t !! tagId)))
then inl ErrForeignKey
else inr (mkTables (jobTable t) (tagTable t) ({[ (jobId, tagId) ]} ∪ jobtagTable t)).

(** An [UPDATE job SET ... WHERE job.id = ?] under construction
    ([sq.Update("job")]): the [SET] clauses in the order they were added, and
    the [REAL] columns the statement sets, with the values bound. *)
Record UpdateBuilder := mkUpdate {
  setClauses : list (JobRow → JobRow);
  whereId : Z;
  realValues : list (string * float)
}.

Definition Update (id : Z) : UpdateBuilder := mkUpdate [] id [].

Definition SetClause (stmt : UpdateBuilder) (f : JobRow → JobRow) : UpdateBuilder :=
mkUpdate (setClauses stmt ++ [f]) (whereId stmt) (realValues stmt).

(** [Set(column, v)] on a [REAL] column. *)
Definition SetReal (stmt : UpdateBuilder) (column : string) (set : float → JobRow → JobRow)
    (v : float) : UpdateBuilder :=
mkUpdate (setClauses stmt ++ [set v]) (whereId stmt) (realValues stmt ++ [(column, v)]).

(** The names of the six aggregate columns, in the order of the schema. *)
Definition realNames : list string :=
["mem_used_max"; "flops_any_avg"; "mem_bw_avg"; "load_avg"; "net_bw_avg"; "file_bw_avg"].

(** Whether a statement that binds [values] sets the column to [NULL]. *)
Definition setsNull (values : list (string * float)) (column : string) : bool :=
existsb (λ cv : string * float, bool_decide (cv.1 = column) && isNull cv.2) values.

(** The first column, in the order of the schema, that the statement sets to
    [NULL]. *)
Definition nullSet (stmt : UpdateBuilder) : option string :=
List.find (setsNull (realValues stmt)) realNames.

(** [Exec] of an update: a statement that matches no row changes nothing and
    is no error; on the row it changes the [NOT NULL] constraints of the
    columns it sets are tested, then the [CHECK] constraints; a statement
    that fails changes nothing. *)
Definition execUpdate (stmt : UpdateBuilder) (t : Tables) : Tables * option Err :=
match jobTable t !! whereId stmt with
| None => (t, None)
| Some r =>
    match nullSet stmt with
    | Some c => (t, Some (ErrNotNull ("job." +:+ c)))
    | None =>
        let r' := foldl (λ r f, f r) r (setClauses stmt) in
        if jobChecks r'
        then (mkTables (<[whereId stmt := r']> (jobTable t)) (tagTable t) (jobtagTable t), None)
        else (t, Some (ErrCheck "job"))
    end
end.

(** The column setters. *)
Definition set_job_state (v : string) (r : JobRow) : JobRow :=
mkJobRow (job_id r) (user r) (project r) (cluster r) (partition r) (array_job_id r)
  (num_nodes r) (num_hwthreads r) (num_acc r) (exclusive r) (monitoring_status r) (smt r)
  v (start_time r) (duration r) (resources r) (meta_data r)
  (mem_used_max r) (flops_any_avg r) (mem_bw_avg r) (load_avg r) (net_bw_avg r) (file_bw_avg r).

Definition set_duration (v : Z) (r : JobRow) : JobRow :=
mkJobRow (job_id r) (user r) (project r) (cluster r) (partition r) (array_job_id r)
  (num_nodes r) (num_hwthreads r) (num_acc r) (exclusive r) (monitoring_status r) (smt r)
  (job_state r) (start_time r) v (resources r) (meta_data r)
  (mem_used_max r) (flops_any_avg r) (mem_bw_avg r) (load_avg r) (net_bw_avg r) (file_bw_avg r).

Definition set_monitoring_status (v : Z) (r : JobRow) : JobRow :=
mkJobRow (job_id r) (user r) (project r) (cluster r) (partition r) (array_job_id r)
  (num_nodes r) (num_hwthreads r) (num_acc r) (exclusive r) v (smt r)
  (job_state r) (start_time r) (duration r) (resources r) (meta_data r)
  (mem_used_max r) (flops_any_avg r) (mem_bw_avg r) (load_avg r) (net_bw_avg r) (file_bw_avg r).

Definition set_mem_used_max (v : float) (r : JobRow) : JobRow :=
mkJobRow (job_id r) (user r) (project r) (cluster r) (partition r) (array_job_id r)
  (num_nodes r) (num_hwthreads r) (num_acc r) (exclusive r) (monitoring_status r) (smt r)
  (job_state r) (start_time r) (duration r) (resources r) (meta_data r)
  v (flops_any_avg r) (mem_bw_avg r) (load_avg r) (net_bw_avg r) (file_bw_avg r).

Definition set_flops_any_avg (v : float) (r : JobRow) : JobRow :=
mkJobRow (job_id r) (user r) (project r) (cluster r) (partition r) (array_job_id r)
  (num_nodes r) (num_hwthreads r) (num_acc r) (exclusive r) (monitoring_status r) (smt r)
  (job_state r) (start_time r) (duration r) (resources r) (meta_data r)
  (mem_used_max r) v (mem_bw_avg r) (load_avg r) (net_bw_avg r) (file_bw_avg r).

Definition set_mem_bw_avg (v : float) (r : JobRow) : JobRow :=
mkJobRow (job_id r) (user r) (project r) (cluster r) (partition r) (array_job_id r)
  (num_nodes r) (num_hwthreads r) (num_acc r) (exclusive r) (monitoring_status r) (smt r)
  (job_state r) (start_time r) (duration r) (resources r) (meta_data r)
  (mem_used_max r) (flops_any_avg r) v (load_avg r) (net_bw_avg r) (file_bw_avg r).

Definition set_load_avg (v : float) (r : JobRow) : JobRow :=
mkJobRow (job_id r) (user r) (project r) (cluster r) (partition r) (array_job_id r)
  (num_nodes r) (num_hwthreads r) (num_acc r) (exclusive r) (monitoring_status r) (smt r)
  (job_state r) (start_time r) (duration r) (resources r) (meta_data r)
  (mem_used_max r) (flops_any_avg r) (mem_bw_avg r) v (net_bw_avg r) (file_bw_avg r).

Definition set_net_bw_avg (v : float) (r : JobRow) : JobRow :=
mkJobRow (job_id r) (user r) (project r) (cluster r) (partition r) (array_job_id r)
  (num_nodes r) (num_hwthreads r) (num_acc r) (exclusive r) (monitoring_status r) (smt r)
  (job_state r) (start_time r) (duration r) (resources r) (meta_data r)
  (mem_used_max r) (flops_any_avg r) (mem_bw_avg r) (load_avg r) v (file_bw_avg r).

Definition set_file_bw_avg (v : float) (r : JobRow) : JobRow :=
mkJobRow (job_id r) (user r) (project r) (cluster r) (partition r) (array_job_id r)
  (num_nodes r) (num_hwthreads r) (num_acc r) (exclusive r) (monitoring_status r) (smt r)
  (job_state r) (start_time r) (duration r) (resources r) (meta_data r)
  (mem_used_max r) (flops_any_avg r) (mem_bw_avg r) (load_avg r) (net_bw_avg r) v.

(** ** pkg/schema: what the repository is handed

    The fields are those the named statements and the loops of the package
    read. *)

Record Tag := mkTag {
  TagType : string;
  TagName : string
}.

Record Resource := mkResource {
  ResHostname : string;
  ResHWThreads : list Z
}.

Record JobStatistics := mkJobStatistics {
  StatUnit : string;
  StatAvg : float;
  StatMin : float;
  StatMax : float
}.

(** [schema.JobMeta], with the names its fields are bound under in the
    named statements; [resources] and [meta_data] are the raw JSON fields. *)
Record JobMeta := mkJobMeta {
  JobID : Z;
  User : string;
  Project : string;
  ClusterOf : string;
  Partition : string;
  ArrayJobId : Z;
  NumNodes : Z;
  NumHWThreads : Z;
  NumAcc : Z;
  Exclusive : Z;
  MonitoringStatus : Z;
  SMT : Z;
  State : string;
  StartTime : Z;
  Duration : Z;
  Resources : list Resource;
  RawResources : string;
  MetaData : gmap string string;
  RawMetaData : string;
  Tags : list Tag;
  Statistics : gmap string JobStatistics
}.

(** The row the [INSERT] of [Start] names: the seventeen bound columns; the
    aggregate columns take their default [0.0]. *)
Definition startRow (job : JobMeta) : JobRow :=
mkJobRow (JobID job) (User job) (Project job) (ClusterOf job) (Partition job) (ArrayJobId job)
  (NumNodes job) (NumHWThreads job) (NumAcc job) (Exclusive job) (MonitoringStatus job) (SMT job)
  (State job) (StartTime job) (Duration job) (RawResources job) (RawMetaData job)
  0%float 0%float 0%float 0%float 0%float 0%float.

(** ** repository/job.go *)

(** The columns the [INSERT] of [Start] names. *)
Definition startColumns : list string :=
["job_id"; "user"; "project"; "cluster"; "partition"; "array_job_id"; "num_nodes";
 "num_hwthreads"; "num_acc"; "exclusive"; "monitoring_status"; "smt"; "job_state";
 "start_time"; "duration"; "resources"; "meta_data"].

(** [Start]: the row is inserted, [res.LastInsertId()] returned; on an error
    of the statement the id is [-1]. *)
Definition Start (db : Tables) (job : JobMeta) : Tables * (Z * option Err) :=
match insertJobColumns startColumns db (startRow job) with
| inl err => (db, (-1, Some err))
| inr (db', id) => (db', (id, None))
end.

(** [Stop]. *)
Definition Stop (db : Tables) (jobId : Z) (duration : Z) (state : string) (monitoringStatus : Z) :
  Tables * option Err :=
let stmt :=
  SetClause (SetClause (SetClause (Update jobId)
    (set_job_state state)) (set_duration duration)) (set_monitoring_status monitoringStatus) in
execUpdate stmt db.

(** The [switch] of [Archive]: the clause a metric adds to the statement. *)
Definition archiveClause (stmt : UpdateBuilder) (metric : string) (stats : JobStatistics) :
  UpdateBuilder :=
if decide (metric = "flops_any") then SetReal stmt "flops_any_avg" set_flops_any_avg (StatAvg stats)
else if decide (metric = "mem_used") then SetReal stmt "mem_used_max" set_mem_used_max (StatMax stats)
else if decide (metric = "mem_bw") then SetReal stmt "mem_bw_avg" set_mem_bw_avg (StatAvg stats)
else if decide (metric = "load") then SetReal stmt "load_avg" set_load_avg (StatAvg stats)
else if decide (metric = "net_bw") then SetReal stmt "net_bw_avg" set_net_bw_avg (StatAvg stats)
else if decide (metric = "file_bw") then SetReal stmt "file_bw_avg" set_file_bw_avg (StatAvg stats)
else stmt.




(** [Archive] when the loop over the map meets its entries in the order
    [entries] (the language leaves the order open). *)
Definition ArchiveOver (db : Tables) (jobId : Z) (monitoringStatus : Z)
    (entries : list (string * JobStatistics)) : Tables * option Err :=
let stmt := SetClause (Update jobId) (set_monitoring_status monitoringStatus) in
let stmt := foldl (λ stmt '(metric, stats), archiveClause stmt metric stats) stmt entries in
execUpdate stmt db.

(** [Archive], the entries taken in the order of [map_to_list]. *)
Definition Archive (db : Tables) (jobId : Z) (monitoringStatus : Z)
    (metricStats : gmap string JobStatistics) : Tables * option Err :=
ArchiveOver db jobId monitoringStatus (map_to_list metricStats).


Section Tags.

(** Whether the connection enforces foreign keys. *)
Variable foreignKeys : bool.

(** [AddTag]. *)
Definition AddTag (db : Tables) (jobId tagId : Z) : Tables * option Err :=
match insertJobTag foreignKeys db jobId tagId with
| inl err => (db, Some err)
| inr db' => (db', None)
end.

(** [CreateTag]. *)
Definition CreateTag (db : Tables) (tagType tagName : string) : Tables * (Z * option Err) :=
match insertTag db tagType tagName with
| inl err => (db, (0, Some err))
| inr (db', id) => (db', (id, None))
end.

(** [TagId]: the id of the first row the query yields; with no row, [Scan]
    fails, the id keeps its zero value and [exists] is false. *)
Definition TagId (db : Tables) (tagType tagName : string) : Z * bool :=
match selectTag db tagType tagName with
| (id, _) :: _ => (id, true)
| [] => (0, false)
end.

(** [AddTagOrCreate]. *)
Definition AddTagOrCreate (db : Tables) (jobId : Z) (tagType tagName : string) :
  Tables * (Z * option Err) :=
let '(tagId, exists_) := TagId db tagType tagName in
if exists_ then
  let '(db', err) := AddTag db jobId tagId in (db', (tagId, err))
else
  match CreateTag db tagType tagName with
  | (db', (_, Some err)) => (db', (0, Some err))
  | (db', (tagId, None)) =>
      let '(db'', err) := AddTag db' jobId tagId in (db'', (tagId, err))
  end.

End Tags.

(** ** repository/init.go: the import of a job archive *)

(** The archive on disk, as the import sees it: a regular file with what
    [json.Decode] makes of it as a [meta.json] (nothing when it does not
    decode), a directory with the entries [os.ReadDir] lists (nothing when it
    cannot be read), or a file of another kind. *)
#[warnings="-register-all"]
Inductive FsNode :=
| File (decoded : option JobMeta)
| Dir (entries : option (list (string * FsNode)))
| Special.

Definition IsDir (n : FsNode) : bool :=
match n with Dir _ => true | _ => false end.

Definition IsRegular (n : FsNode) : bool :=
match n with File _ => true | _ => false end.

(** [filepath.Join] of a path and a name. *)
Definition pathJoin (path name : string) : string := path +:+ "/" +:+ name.

(** The file a directory holds under a name. *)
Definition lookupEntry (name : string) (n : FsNode) : option FsNode :=
match n with
| Dir (Some es) => snd <$> List.find (λ p : string * FsNode, bool_decide (p.1 = name)) es
| _ => None
end.

(** What the connection was asked to do, in order. *)
Inductive DbOp :=
| OpSchema
| OpBegin
| OpCommit
| OpInsertJob (id : Z)
| OpInsertTag (id : Z)
| OpInsertJobTag (jobId tagId : Z)
| OpIndexes.

(** The state of an import: the committed tables, the tables as the open
    transaction sees them, the statements run so far, the errors logged, and
    the variables [i] and [tags] of [InitDB]. *)
Record ImportState := mkImportState {
  store : Tables;
  txn : option Tables;
  ops : list DbOp;
  errlog : list (string * Err);
  count : Z;
  tagIds : gmap string Z
}.

(** The tables as the statements of the import see them: those of the open
    transaction. *)
Definition workTables (s : ImportState) : Tables := default (store s) (txn s).

(** A step of the import fails with an error or yields a value; the state it
    leaves stays either way. *)
Definition I (A : Type) : Type := ImportState → (Err + A) * ImportState.

#[global] Instance I_ret : MRet I := λ A (a : A) s, (inr a, s).

#[global] Instance I_bind : MBind I :=
λ A B (k : A → I B) (m : I A) s,
  match m s with
  | (inl err, s') => (inl err, s')
  | (inr a, s') => k a s'
  end.

Definition failWith {A : Type} (err : Err) : I A := λ s, (inl err, s).

Definition addOp (op : DbOp) (s : ImportState) : ImportState :=
mkImportState (store s) (txn s) (ops s ++ [op]) (errlog s) (count s) (tagIds s).

(** [db.Exec(JobsDBSchema)]: the three tables are dropped and created. *)
Definition execSchema : I unit :=
λ s, (inr tt, mkImportState emptyTables (txn s) (ops s ++ [OpSchema]) (errlog s) (count s) (tagIds s)).

(** [db.Exec(JobsDbIndexes)]. *)
Definition execIndexes : I unit :=
λ s, (inr tt, addOp OpIndexes s).

(** [db.Beginx()]. *)
Definition beginTx : I unit :=
λ s, (inr tt, mkImportState (store s) (Some (store s)) (ops s ++ [OpBegin]) (errlog s) (count s) (tagIds s)).

(** [tx.Commit()]. *)
Definition commitTx : I unit :=
λ s, (inr tt, mkImportState (workTables s) None (ops s ++ [OpCommit]) (errlog s) (count s) (tagIds s)).

(** A statement run on the open transaction. *)
Definition txExec {A : Type} (stmt : Tables → Err + Tables * A) (op : A → DbOp) : I A :=
λ s, match stmt (workTables s) with
     | inl err => (inl err, s)
     | inr (t, a) =>
         (inr a, mkImportState (store s) (Some t) (ops s ++ [op a]) (errlog s) (count s) (tagIds s))
     end.

(** [log.Errorf("in %s: %s", path, err.Error())] on an error of the step; the
    walk goes on. *)
Definition logged (path : string) (step : I unit) : I unit :=
λ s, match step s with
     | (inl err, s') =>
         (inr tt, mkImportState (store s') (txn s') (ops s') (errlog s' ++ [(path, err)]) (count s') (tagIds s'))
     | (inr _, s') => (inr tt, s')
     end.

(** [for _, x := range l { body }], left on the first error. *)
Fixpoint forEach {A : Type} (l : list A) (body : A → I unit) : I unit :=
match l with
| [] => mret tt
| x :: xs => _ ← body x; forEach xs body
end.

(** The head of [handleDirectory]: when [i] is a multiple of 100 the
    transaction is committed and a new one begun. *)
Definition newBatch : I unit :=
λ s, if decide (count s `mod` 100 = 0)
     then (_ ← commitTx; beginTx) s
     else (inr tt, s).

(** [i += 1]. *)
Definition countJob : I unit :=
λ s, (inr tt, mkImportState (store s) (txn s) (ops s) (errlog s) (count s + 1) (tagIds s)).

(** [os.ReadDir]. *)
Definition readDir (path : string) (n : FsNode) : I (list (string * FsNode)) :=
match n with
| Dir (Some es) => mret es
| _ => failWith (ErrReadDir path)
end.

Section ArchiveImport.

Variable foreignKeys : bool.

(** [SanityChecks], [loadJobStat] (import.go and init.go of the package, not
    among the sources) and [json.Marshal] at the two types it is used at. *)
Variable SanityChecks : JobMeta → option string.
Variable loadJobStat : JobMeta → string → float.
Variable marshalResources : list Resource → string.
Variable marshalMetaData : gmap string string → string.

(** [jobMeta.MonitoringStatus = schema.MonitoringStatusArchivingSuccessful]. *)
Definition archivedMeta (jobMeta : JobMeta) : JobMeta :=
mkJobMeta (JobID jobMeta) (User jobMeta) (Project jobMeta) (ClusterOf jobMeta) (Partition jobMeta)
  (ArrayJobId jobMeta) (NumNodes jobMeta) (NumHWThreads jobMeta) (NumAcc jobMeta)
  (Exclusive jobMeta) MetricData.MonitoringStatusArchivingSuccessful (SMT jobMeta)
  (State jobMeta) (StartTime jobMeta) (Duration jobMeta)
  (Resources jobMeta) (RawResources jobMeta) (MetaData jobMeta) (RawMetaData jobMeta)
  (Tags jobMeta) (Statistics jobMeta).

(** The job [loadJob] builds of it: the raw fields are set from
    [json.Marshal] of the resources and of the meta data. *)
Definition importedJob (jobMeta : JobMeta) : JobMeta :=
mkJobMeta (JobID jobMeta) (User jobMeta) (Project jobMeta) (ClusterOf jobMeta) (Partition jobMeta)
  (ArrayJobId jobMeta) (NumNodes jobMeta) (NumHWThreads jobMeta) (NumAcc jobMeta)
  (Exclusive jobMeta) MetricData.MonitoringStatusArchivingSuccessful (SMT jobMeta)
  (State jobMeta) (StartTime jobMeta) (Duration jobMeta)
  (Resources jobMeta) (marshalResources (Resources jobMeta))
  (MetaData jobMeta) (marshalMetaData (MetaData jobMeta))
  (Tags jobMeta) (Statistics jobMeta).

(** Modelled from the spec: the prepared statement [NamedJobInsert]
    (import.go of the package, not among the sources) inserts the job it is
    handed as a row of [job]. The row [loadJob] hands to it: the columns of
    the job it built; four aggregate columns come from the statistics of the
    job, the two others keep the zero value of the field. *)
Definition importRow (jobMeta : JobMeta) : JobRow :=
let job := importedJob jobMeta in
mkJobRow (JobID job) (User job) (Project job) (ClusterOf job) (Partition job)
  (ArrayJobId job) (NumNodes job) (NumHWThreads job) (NumAcc job)
  (Exclusive job) (MonitoringStatus job) (SMT job) (State job) (StartTime job) (Duration job)
  (RawResources job) (RawMetaData job)
  0%float (loadJobStat (archivedMeta jobMeta) "flops_any")
  (loadJobStat (archivedMeta jobMeta) "mem_bw")
  0%float (loadJobStat (archivedMeta jobMeta) "net_bw")
  (loadJobStat (archivedMeta jobMeta) "file_bw").

(** The id of a tag: taken from [tags], or the tag is inserted and its id
    remembered under [tagstr]. *)
Definition tagIdOf (tagstr : string) (tag : Tag) : I Z :=
λ s, match tagIds s !! tagstr with
     | Some tagId => (inr tagId, s)
     | None =>
         match txExec (λ t, insertTag t (TagType tag) (TagName tag)) OpInsertTag s with
         | (inl err, s') => (inl err, s')
         | (inr tagId, s') =>
             (inr tagId, mkImportState (store s') (txn s') (ops s') (errlog s') (count s')
                           (<[tagstr := tagId]> (tagIds s')))
         end
     end.

(** The body of the loop over the tags of a job. *)
Definition loadTag (id : Z) (tag : Tag) : I unit :=
tagId ← tagIdOf (TagName tag +:+ ":" +:+ TagType tag) tag;
txExec (λ t, match insertJobTag foreignKeys t id tagId with
             | inl err => inl err
             | inr t' => inr (t', tt)
             end) (λ _, OpInsertJobTag id tagId).

(** [loadJob]. *)
Definition loadJob (path : string) (dir : FsNode) : I unit :=
match lookupEntry "meta.json" dir with
| None => failWith (ErrOpen (pathJoin path "meta.json"))
| Some (File (Some jobMeta)) =>
    match SanityChecks (importedJob jobMeta) with
    | Some msg => failWith (ErrSanity msg)
    | None =>
        id ← txExec (λ t, insertJob t (importRow jobMeta)) OpInsertJob;
        forEach (Tags jobMeta) (loadTag id)
    end
| Some _ => failWith (ErrDecode (pathJoin path "meta.json"))
end.

(** The closure [handleDirectory]: every hundredth job the transaction is
    committed and a new one begun; [i] counts the jobs loaded without error;
    an error of [loadJob] is returned as it is. *)
Definition handleDirectory (path : string) (dir : FsNode) : I unit :=
_ ← newBatch;
_ ← loadJob path dir;
countJob.

(** The loop over the entries of a second-level directory. *)
Definition walkStartTimeDirs (dirpath : string) (lvl2Dir : FsNode)
    (startTimeDirs : list (string * FsNode)) : I unit :=
forEach startTimeDirs (λ '(name, startTimeDir),
  if IsRegular startTimeDir && bool_decide (name = "meta.json")
  then logged dirpath (handleDirectory dirpath lvl2Dir)
  else if IsDir startTimeDir
  then logged (pathJoin dirpath name) (handleDirectory (pathJoin dirpath name) startTimeDir)
  else mret tt).

Definition walkLvl2Dirs (lvl1path : string) (lvl2Dirs : list (string * FsNode)) : I unit :=
forEach lvl2Dirs (λ '(name, lvl2Dir),
  let dirpath := pathJoin lvl1path name in
  startTimeDirs ← readDir dirpath lvl2Dir;
  walkStartTimeDirs dirpath lvl2Dir startTimeDirs).

Definition walkLvl1Dirs (clusterpath : string) (lvl1Dirs : list (string * FsNode)) : I unit :=
forEach lvl1Dirs (λ '(name, lvl1Dir),
  if negb (IsDir lvl1Dir) then mret tt
  else
    lvl2Dirs ← readDir (pathJoin clusterpath name) lvl1Dir;
    walkLvl2Dirs (pathJoin clusterpath name) lvl2Dirs).

Definition walkClusters (archive : string) (clustersDir : list (string * FsNode)) : I unit :=
forEach clustersDir (λ '(name, clusterDir),
  lvl1Dirs ← readDir (pathJoin archive name) clusterDir;
  walkLvl1Dirs (pathJoin archive name) lvl1Dirs).

(** The body of [InitDB]. *)
Definition initDB (archive : string) (root : FsNode) : I unit :=
_ ← execSchema;
clustersDir ← readDir archive root;
_ ← beginTx;
_ ← walkClusters archive clustersDir;
_ ← commitTx;
execIndexes.

(** [InitDB] on a connection with no transaction open, whose tables hold
    [db]: the error returned and the state left. *)
Definition InitDB (db : Tables) (archive : string) (root : FsNode) : option Err * ImportState :=
match initDB archive root (mkImportState db None [] [] 0 ∅) with
| (inl err, s) => (Some err, s)
| (inr _, s) => (None, s)
end.

(** One job directory of the walk: [handleDirectory], its error logged. *)
Definition importDir (d : string * FsNode) (s : ImportState) : ImportState :=
(logged d.1 (handleDirectory d.1 d.2) s).2.

End ArchiveImport.


(** ** The job directories of an archive *)

Definition entriesOf (n : FsNode) : list (string * FsNode) :=
match n with Dir (Some es) => es | _ => [] end.

Definition readable (n : FsNode) : bool :=
match n with Dir (Some _) => true | _ => false end.

(** The directories [handleDirectory] is called on below a second-level
    directory, a first-level directory, a cluster directory and the archive,
    each with the path it is called with, in the order of the walk. *)
Definition jobDirsOfLvl2 (dirpath : string) (lvl2Dir : FsNode) : list (string * FsNode) :=
flat_map (λ '(name, startTimeDir),
            if IsRegular startTimeDir && bool_decide (name = "meta.json")
            then [(dirpath, lvl2Dir)]
            else if IsDir startTimeDir then [(pathJoin dirpath name, startTimeDir)]
            else []) (entriesOf lvl2Dir).

Definition jobDirsOfLvl1 (lvl1path : string) (lvl1Dir : FsNode) : list (string * FsNode) :=
flat_map (λ '(name, lvl2Dir), jobDirsOfLvl2 (pathJoin lvl1path name) lvl2Dir) (entriesOf lvl1Dir).

Definition jobDirsOfCluster (clusterpath : string) (clusterDir : FsNode) : list (string * FsNode) :=
flat_map (λ '(name, lvl1Dir),
            if IsDir lvl1Dir then jobDirsOfLvl1 (pathJoin clusterpath name) lvl1Dir else [])
  (entriesOf clusterDir).

Definition jobDirs (archive : string) (root : FsNode) : list (string * FsNode) :=
flat_map (λ '(name, clusterDir), jobDirsOfCluster (pathJoin archive name) clusterDir)
  (entriesOf root).

(** An archive every directory of which the walk lists can be read. *)
Definition lvl1Walkable (lvl1Dir : FsNode) : bool :=
readable lvl1Dir && forallb (λ p, readable p.2) (entriesOf lvl1Dir).

Definition clusterWalkable (clusterDir : FsNode) : bool :=
readable clusterDir
&& forallb (λ p, negb (IsDir p.2) || lvl1Walkable p.2) (entriesOf clusterDir).

Definition walkable (root : FsNode) : bool :=
readable root && forallb (λ p, clusterWalkable p.2) (entriesOf root).

(** ** repository/job.go: the queries *)

(** What a query fails with: [sql.ErrNoRows], an error of [schema.ScanJob] on
    the row, or [ErrNotFound]. *)
Inductive QueryErr :=
| ErrNoRows
| ErrScan (msg : string)
| ErrNotFound.

(** The user [auth.GetUser] finds in the context, with the answer of
    [HasRole(auth.RoleAdmin)]. *)
Record AuthUser := mkAuthUser {
  Username : string;
  IsAdmin : bool
}.

(** [UpdateMonitoringStatus]. *)
Definition UpdateMonitoringStatus (db : Tables) (job : Z) (monitoringStatus : Z) :
  Tables * option Err :=
execUpdate (SetClause (Update job) (set_monitoring_status monitoringStatus)) db.

(** The [WHERE] clause of [Find]: [job.job_id = ?] on the argument, which is
    a pointer (a [nil] pointer is bound as [NULL], which equals nothing), and
    the two optional conditions. *)
Definition findMatches (jobId : option Z) (clusterName : option string) (startTime : option Z)
    (p : Z * JobRow) : bool :=
(if jobId is Some j then bool_decide (job_id p.2 = j) else false)
&& (if clusterName is Some c then bool_decide (cluster p.2 = c) else true)
&& (if startTime is Some t then bool_decide (start_time p.2 = t) else true).

(** [strconv.Atoi]: an optional sign, then decimal digits, at least one; the
    value has to fit the 64 bits of an [int]. *)
Definition digitOf (c : Ascii.ascii) : option Z :=
let n := Z.of_N (Ascii.N_of_ascii c) in
if (48 <=? n) && (n <=? 57) then Some (n - 48) else None.

Fixpoint digitsValue (acc : Z) (s : string) : option Z :=
match s with
| EmptyString => Some acc
| String c s' => d ← digitOf c; digitsValue (10 * acc + d) s'
end.

Definition Atoi (s : string) : option Z :=
let '(negative, digits) :=
  match s with
  | String c s' =>
      if Ascii.eqb c (Ascii.ascii_of_nat 45) then (true, s')        (* '-' *)
      else if Ascii.eqb c (Ascii.ascii_of_nat 43) then (false, s')  (* '+' *)
      else (false, s)
  | EmptyString => (false, s)
  end in
match digits with
| EmptyString => None
| _ =>
    v ← digitsValue 0 digits;
    let v := if negative : bool then - v else v in
    if (- 2 ^ 63 <=? v) && (v <? 2 ^ 63) then Some v else None
end.

(** [CountJobs]: the condition on the rows counted. *)
Definition countMatches (caller : option AuthUser) (state : option string) (r : JobRow) : bool :=
(if state is Some st then bool_decide (job_state r = st) else true)
&& (match caller with
    | Some u => if IsAdmin u then true else bool_decide (user r = Username u)
    | None => true
    end).

(** [CountJobs]: the rows that match, grouped by cluster and counted. *)
Definition CountJobs (db : Tables) (caller : option AuthUser) (state : option string) :
  gmap string Z :=
foldr (λ (p : Z * JobRow) (counts : gmap string Z),
         if countMatches caller state p.2
         then <[cluster p.2 := 1 + default 0 (counts !! cluster p.2)]> counts
         else counts) ∅ (map_to_list (jobTable db)).

Section Lookup.

(** [schema.Job] and [schema.ScanJob] on a row (not among the sources). *)
Variable J : Type.
Variable ScanJob : Z → JobRow → string + J.

(** The order in which the engine yields the rows of [job]. *)
Variable resultRows : gmap Z JobRow → list (Z * JobRow).

(** [QueryRowx] and [ScanJob]: the first row of the result, [sql.ErrNoRows]
    when it has none. *)
Definition scanFirst (rows : list (Z * JobRow)) : QueryErr + J :=
match rows with
| [] => inl ErrNoRows
| (id, r) :: _ =>
    match ScanJob id r with
    | inl msg => inl (ErrScan msg)
    | inr job => inr job
    end
end.

(** [Find]. *)
Definition Find (db : Tables) (jobId : option Z) (clusterName : option string)
    (startTime : option Z) : QueryErr + J :=
scanFirst (List.filter (findMatches jobId clusterName startTime) (resultRows (jobTable db))).

(** [FindById]. *)
Definition FindById (db : Tables) (jobId : Z) : QueryErr + J :=
scanFirst (List.filter (λ p, bool_decide (p.1 = jobId)) (resultRows (jobTable db))).

(** [FindJobOrUser]: the database id, the user name and the error. The
    search for a job is restricted to the jobs of a user who is no
    administrator; only an administrator, or nobody, searches for a user. *)
Definition FindJobOrUser (db : Tables) (caller : option AuthUser) (searchterm : string) :
  Z * string * option QueryErr :=
let restricted := if caller is Some u then negb (IsAdmin u) else false in
let found :=
  match Atoi searchterm with
  | Some id =>
      List.find (λ p : Z * JobRow,
                   bool_decide (job_id p.2 = id)
                   && (if caller is Some u
                       then IsAdmin u || bool_decide (user p.2 = Username u)
                       else true))
        (resultRows (jobTable db))
  | None => None
  end in
match found with
| Some (job, _) => (job, "", None)
| None =>
    if negb restricted then
      match List.find (λ p : Z * JobRow, bool_decide (user p.2 = searchterm))
              (resultRows (jobTable db)) with
      | Some (_, r) => (0, user r, None)
      | None => (0, "", Some ErrNotFound)
      end
    else (0, "", Some ErrNotFound)
end.

End Lookup.

(** [CONSTRAINT be_unique UNIQUE (tag_type, tag_name)] as a property of the
    table: no two rows carry the same pair. *)
Definition tagsUnique (db : Tables) : Prop :=
∀ id1 id2 row, tagTable db !! id1 = Some row → tagTable db !! id2 = Some row → id1 = id2.

(** What the constraints of [JobsDBSchema] and the import together make of
    the tables: every row of [job] passes the [CHECK] constraints and has the
    monitoring status [loadJob] sets; the pairs of [tag] are unique; with
    foreign keys enforced, a row of [jobtag] names a job and a tag. *)
Definition rowsArchived (t : Tables) : Prop :=
∀ id r, jobTable t !! id = Some r →
  monitoring_status r = MetricData.MonitoringStatusArchivingSuccessful ∧ jobChecks r = true.

Definition jobtagsLinked (t : Tables) : Prop :=
∀ jobId tagId, (jobId, tagId) ∈ jobtagTable t →
  is_Some (jobTable t !! jobId) ∧ is_Some (tagTable t !! tagId).

Definition imported (foreignKeys : bool) (t : Tables) : Prop :=
rowsArchived t ∧ tagsUnique t ∧ (foreignKeys = true → jobtagsLinked t).

End Repository.

(** * Package config *)

Module Config.

(** ** graph/model: the cluster configuration

    Package [graph/model] is not among the sources; the records carry the
    fields config.go reads: the names, the partitions and the metric
    configurations of a cluster, and the upper end of its filter range for
    the start time, [None] standing for the zero [time.Time]. *)
Record Partition := mkPartition { PartitionName : string }.

Record MetricConfig := mkMetricConfig { MetricName : string }.

Record Cluster := mkCluster {
  ClusterName : string;
  Partitions : list Partition;
  MetricConfigOf : list MetricConfig;
  StartTimeTo : option Z
}.

Section Configuration.

(** The values [json.Unmarshal] makes of a text when it is handed an
    [interface{}]. *)
Variable Value : Type.
Variable unmarshal : string → error + Value.

(** What the cache holds for a user: the [interface{}] the closure of
    [GetUIConfig] returns is an [error] or the configuration. *)
Inductive CacheVal :=
| CvErr (e : error)
| CvConfig (config : gmap string Value).

(** The package variables, and the rows of table [configuration] of the
    database [db], keyed by [(username, confkey)], its primary key. The map
    [uiDefaults] is [nil] until [Init] sets it; [lookupConfigStmt] is [nil]
    until [Init] prepares it. *)
Record Store := mkStore {
  uiDefaults : option (gmap string Value);
  Clusters : list Cluster;
  configuration : gmap (string * string) string;
  lookupConfigStmt : bool;
  cache : gmap string CacheVal
}.

(** [time.Unix(0, 0)] for a zero upper end of the filter range. *)
Definition withStartTimeTo (cluster : Cluster) : Cluster :=
if StartTimeTo cluster is None
then mkCluster (ClusterName cluster) (Partitions cluster) (MetricConfigOf cluster) (Some 0)
else cluster.

(** The body of the loop of [Init] for the directory entry [name], whose
    [cluster.json] reads and decodes as [file]. *)
Definition loadCluster (name : string) (file : error + Cluster) : error + Cluster :=
match file with
| inl err => inl err
| inr cluster =>
    let cluster := withStartTimeTo cluster in
    if decide (ClusterName cluster ≠ name)
    then inl ("the file '" +:+ name +:+ "/cluster.json' contains the clusterId '"
              +:+ ClusterName cluster +:+ "'")
    else inr cluster
end.

Fixpoint loadClusters (clusters : list Cluster) (entries : list (string * (error + Cluster))) :
  list Cluster * option error :=
match entries with
| [] => (clusters, None)
| (name, file) :: entries =>
    match loadCluster name file with
    | inl err => (clusters, Some err)
    | inr cluster => loadClusters (clusters ++ [cluster]) entries
    end
end.

(** [Init]. The job archive is what [os.ReadDir] answers on it: an error, or
    the names of its entries, each with what reading and decoding its
    [cluster.json] gives. [usersdb] holds the rows of [configuration]; the
    statements on it are taken to succeed. *)
Definition Init (st : Store) (usersdb : gmap (string * string) string) (authEnabled : bool)
    (uiConfig : option (gmap string Value))
    (jobArchive : error + list (string * (error + Cluster))) : Store * option error :=
match jobArchive with
| inl err => (mkStore uiConfig (Clusters st) usersdb (lookupConfigStmt st) (cache st), Some err)
| inr entries =>
    let '(clusters, err) := loadClusters [] entries in
    match err with
    | Some e => (mkStore uiConfig clusters usersdb (lookupConfigStmt st) (cache st), Some e)
    | None =>
        (mkStore uiConfig clusters usersdb
           (if authEnabled then true else lookupConfigStmt st) (cache st), None)
    end
end.

(** Modelled from the spec: [lrucache.Cache.Get] (the package is not among
    the sources). [GetOrCompute(key, computeFn)]: a stored value is returned
    without running [computeFn]; otherwise [computeFn] runs and its value is
    returned, and it is kept unless its time-to-live is zero. Expiry and
    eviction only ever remove entries; they are not modelled. Nothing is
    returned when [computeFn] panics. *)
Definition cacheGet (key : string) (computeFn : Store → option (CacheVal * Z * Z)) (st : Store) :
  option (CacheVal * Store) :=
match cache st !! key with
| Some v => Some (v, st)
| None =>
    '(v, ttl, _) ← computeFn st;
    if ttl =? 0 then Some (v, st)
    else Some (v, mkStore (uiDefaults st) (Clusters st) (configuration st) (lookupConfigStmt st)
                    (<[key := v]> (cache st)))
end.

(** The rows [lookupConfigStmt] yields for a user: key and raw value. *)
Definition userRows (st : Store) (username : string) : list (string * string) :=
omap (λ '((u, key), rawval), if decide (u = username) then Some (key, rawval) else None)
  (map_to_list (configuration st)).

(** The loop [for rows.Next()] of the closure of [GetUIConfig]. *)
Fixpoint scanRows (rows : list (string * string)) (config : gmap string Value) (size : Z) :
  error + gmap string Value * Z :=
match rows with
| [] => inr (config, size)
| (key, rawval) :: rows =>
    match unmarshal rawval with
    | inl err => inl err
    | inr val =>
        scanRows rows (<[key := val]> config)
          (size + Z.of_nat (String.length key) + Z.of_nat (String.length rawval))
    end
end.

(** The closure [GetUIConfig] hands to the cache; with no prepared statement
    the query dereferences [nil]. *)
Definition loadUIConfig (username : string) (st : Store) : option (CacheVal * Z * Z) :=
if lookupConfigStmt st then
  match scanRows (userRows st username) (default ∅ (uiDefaults st)) 0 with
  | inl err => Some (CvErr err, 0, 0)
  | inr (config, size) => Some (CvConfig config, 24 * Hour, size)
  end
else None.

(** [GetUIConfig], for the user name [auth.GetUser] finds in the request,
    if any. *)
Definition GetUIConfig (caller : option string) (st : Store) :
  option ((option (gmap string Value) * option error) * Store) :=
match caller with
| None => Some ((Some (default ∅ (uiDefaults st)), None), st)
| Some username =>
    '(data, st') ← cacheGet username (loadUIConfig username) st;
    match data with
    | CvErr err => Some ((None, Some err), st')
    | CvConfig config => Some ((Some config, None), st')
    end
end.

(** [UpdateConfig]. An assignment to the [nil] map panics. The [REPLACE] is
    taken to succeed. *)
Definition UpdateConfig (key value : string) (caller : option string) (st : Store) :
  option (Store * option error) :=
match caller with
| None =>
    match unmarshal value with
    | inl err => Some (st, Some err)
    | inr val =>
        defaults ← uiDefaults st;
        Some (mkStore (Some (<[key := val]> defaults)) (Clusters st) (configuration st)
                (lookupConfigStmt st) (cache st), None)
    end
| Some username =>
    Some (mkStore (uiDefaults st) (Clusters st) (<[(username, key) := value]> (configuration st))
            (lookupConfigStmt st) (delete username (cache st)), None)
end.

(** [GetClusterConfig]. *)
Definition GetClusterConfig (st : Store) (cluster : string) : option Cluster :=
List.find (λ c, bool_decide (ClusterName c = cluster)) (Clusters st).

(** [GetPartition]: the loop goes on to the next cluster of the name when
    the partition is not in this one. *)
Definition GetPartition (st : Store) (cluster partition : string) : option Partition :=
foldr (λ c next,
         if decide (ClusterName c = cluster) then
           match List.find (λ p, bool_decide (PartitionName p = partition)) (Partitions c) with
           | Some p => Some p
           | None => next
           end
         else next) None (Clusters st).

(** [GetMetricConfig]. *)
Definition GetMetricConfig (st : Store) (cluster metric : string) : option MetricConfig :=
foldr (λ c next,
         if decide (ClusterName c = cluster) then
           match List.find (λ m, bool_decide (MetricName m = metric)) (MetricConfigOf c) with
           | Some m => Some m
           | None => next
           end
         else next) None (Clusters st).

End Configuration.

Arguments CvErr {Value} e.
Arguments CvConfig {Value} config.
Arguments mkStore {Value} uiDefaults Clusters configuration lookupConfigStmt cache.
Arguments uiDefaults {Value} s.
Arguments Clusters {Value} s.
Arguments configuration {Value} s.
Arguments lookupConfigStmt {Value} s.
Arguments cache {Value} s.
Arguments Init {Value} st usersdb authEnabled uiConfig jobArchive.
Arguments cacheGet {Value} key computeFn st.
Arguments userRows {Value} st username.
Arguments scanRows {Value} unmarshal rows config size.
Arguments loadUIConfig {Value} unmarshal username st.
Arguments GetUIConfig {Value} unmarshal caller st.
Arguments UpdateConfig {Value} unmarshal key value caller st.
Arguments GetClusterConfig {Value} st cluster.
Arguments GetPartition {Value} st cluster partition.
Arguments GetMetricConfig {Value} st cluster metric.

End Config.

(** * A test cluster

    The set-up of the REST API test of the repository: one cluster
    [testcluster] with the metric [load_one] at node scope, served by a test
    adapter, and job 123 on [host123]. *)

Module Fixtures.

Import MetricData.

Definition loadOne (n : nat) (stats : option StatsSeries) : JobMetric :=
mkJobMetric "load" MetricScopeNode 60
  (replicate n (mkSeries "host123" (Some (mkMetricStatistics 0.25 0.125 0.5))
                  [0.125; 0.125; 0.25; 0.25; 0.5; 0.5]%float))
  stats.

Definition testData : gmap string (gmap string JobMetric) :=
{[ "load_one" := {[ "node" := loadOne 1 None ]} ]}.

(** An archived job with one metric at core scope only. *)
Definition coreData : gmap string (gmap string JobMetric) :=
{[ "flops_any" := {[ "core" := loadOne 1 None ]} ]}.

(** An archived job with the metric at node and at core scope. *)
Definition twoScopeData : gmap string (gmap string JobMetric) :=
{[ "load_one" := {[ "node" := loadOne 1 None; "core" := loadOne 8 None ]} ]}.

(** A job on seventeen nodes. *)
Definition wideData : gmap string (gmap string JobMetric) :=
{[ "load_one" := {[ "node" := loadOne 17 None ]} ]}.

Definition testRepo : MetricDataRepository :=
mkMetricDataRepository (λ _ _ _, (testData, None)).

(** An adapter that times out after it got part of the data, and one that
    times out with nothing. *)
Definition partialRepo : MetricDataRepository :=
mkMetricDataRepository (λ _ _ _, (testData, Some "timeout")).

Definition failingRepo : MetricDataRepository :=
mkMetricDataRepository (λ _ _ _, (∅, Some "timeout")).

Definition testCluster (_ : string) : ClusterConfig :=
mkClusterConfig "testcluster" [mkMetricConfig "load_one"].

Definition noStatistics (_ : list Series) : StatsSeries := mkStatsSeries [] [] [].

Definition noNodeScope (_ : gmap string JobMetric) : option JobMetric := None.

Definition runningJob : Job := mkJob 1 "testcluster" "running" 1.

Definition stoppedJob : Job := mkJob 1 "testcluster" "completed" 3.

Definition emptyWorld : World := mkWorld ∅ [] [].

(** [LoadData] of the service whose one adapter is [repo] and whose archive
    holds [archived] for every job. *)
Definition loadWith (repo : MetricDataRepository) (archived : gmap string (gmap string JobMetric)) :=
LoadData {[ "testcluster" := repo ]} true testCluster (λ _, (archived, None)) (λ _, 1)
  noStatistics noNodeScope.

(** The job of the start request of the test, started at [startTime]. *)
Definition testJob (startTime : Z) : Repository.JobMeta :=
Repository.mkJobMeta 123 "testuser" "testproj" "testcluster" "default" 0 1 8 0 1 1 1
  "running" startTime 0
  [Repository.mkResource "host123" [0; 1; 2; 3; 4; 5; 6; 7]] "[]"
  {[ "jobScript" := "blablabla..." ]} "{}"
  [Repository.mkTag "testTagType" "testTagName"] ∅.

(** The same job, its tag named twice. *)
Definition twiceTagged (startTime : Z) : Repository.JobMeta :=
Repository.mkJobMeta 123 "testuser" "testproj" "testcluster" "default" 0 1 8 0 1 1 1
  "completed" startTime 1000
  [Repository.mkResource "host123" [0; 1; 2; 3; 4; 5; 6; 7]] "[]"
  {[ "jobScript" := "blablabla..." ]} "{}"
  [Repository.mkTag "testTagType" "testTagName"; Repository.mkTag "testTagType" "testTagName"] ∅.

(** The tables that hold one job, running, as row 1: its columns are those
    of the start request of the test. *)
Definition startedTables : Repository.Tables :=
Repository.mkTables {[ 1 := Repository.startRow (testJob 123456789) ]} ∅ ∅.

(** A job archive: below [testcluster], next to [cluster.json], the
    directories of three jobs; the [meta.json] of the second does not
    decode. *)
Definition jobDir (startTime : Z) : Repository.FsNode :=
Repository.Dir (Some [("meta.json", Repository.File (Some (testJob startTime)));
                      ("data.json", Repository.File None)]).

Definition corruptDir : Repository.FsNode :=
Repository.Dir (Some [("meta.json", Repository.File None)]).

Definition testArchive : Repository.FsNode :=
Repository.Dir (Some
  [("testcluster", Repository.Dir (Some
     [("cluster.json", Repository.File None);
      ("0", Repository.Dir (Some
         [("123", Repository.Dir (Some
            [("123456789", jobDir 123456789);
             ("123456999", corruptDir);
             ("123457999", jobDir 123457999)]))]))]))]).

(** [InitDB] with foreign keys enforced, no sanity check failing, and
    constant statistics and JSON. *)
Definition importArchive (db : Repository.Tables) (root : Repository.FsNode) :
  option Repository.Err * Repository.ImportState :=
Repository.InitDB true (λ _, None) (λ _ _, 0%float) (λ _, "[]") (λ _, "{}") db "archive" root.

(** An adapter with statistics for [load_one] on two hosts, and node data
    for one host; one whose node query times out after part of the data; one
    that does not support the node query. *)
Definition testStats : gmap string (gmap string MetricStatistics) :=
{[ "load_one" := {[ "host123" := mkMetricStatistics 0.25 0.125 0.5;
                    "host124" := mkMetricStatistics 0.5 0.25 1 ]} ]}.

Definition testNodeData : gmap string (gmap string (list JobMetric)) :=
{[ "host123" := {[ "load_one" := [loadOne 1 None] ]} ]}.

Definition testAdapter : Adapter :=
mkAdapter testRepo (λ _ _, (testStats, None)) (λ _ _ _ _ _ _, (Some testNodeData, None)).

Definition partialAdapter : Adapter :=
mkAdapter partialRepo (λ _ _, (testStats, None))
  (λ _ _ _ _ _ _, (Some testNodeData, Some "timeout")).

Definition noNodeQueryAdapter : Adapter :=
mkAdapter testRepo (λ _ _, (testStats, None)) (λ _ _ _ _ _ _, (None, None)).

(** A job that has stopped and is being archived. *)
Definition archivingJob : Job := mkJob 1 "testcluster" "completed" 1.

(** The configuration of [Init]: the raw configuration is taken to be the
    kind itself; only the test repository initialises. *)
Definition initWith :=
Init (λ raw, inr raw) (λ _, inl "connection refused") (λ _, inl "connection refused")
  (λ _, inr testAdapter).

Definition noGlobals : Globals := mkGlobals false "" ∅.

(** The configuration of two clusters; JSON values are kept as their text,
    the empty text being no JSON. *)
Definition jsonText (raw : string) : error + string :=
if decide (raw = "") then inl "unexpected end of JSON input" else inr raw.

Definition emmy : Config.Cluster :=
Config.mkCluster "emmy" [Config.mkPartition "work"] [Config.mkMetricConfig "load_one"] None.

Definition woody : Config.Cluster :=
Config.mkCluster "woody" [Config.mkPartition "work"; Config.mkPartition "debug"]
  [Config.mkMetricConfig "flops_any"] (Some 1700000000).

Definition twoClusters : list (string * (error + Config.Cluster)) :=
[("emmy", inr emmy); ("woody", inr woody)].

Definition noConfig : Config.Store string := Config.mkStore None [] ∅ false ∅.

Definition testConfig : Config.Store string :=
(Config.Init noConfig ∅ true (Some {[ "plot_general_colorscheme" := "dark" ]})
   (inr twoClusters)).1.

(** Three clusters, the second with a repository of a kind [Init] does not
    know. *)
Definition threeClusters : list ClusterEntry :=
[mkClusterEntry "alex" (Some "test"); mkClusterEntry "fritz" (Some "prometheus");
 mkClusterEntry "meggie" (Some "test")].

(** The service with no adapter registered, and the one whose archive cannot
    be read. *)
Definition loadUnconfigured :=
LoadData ∅ true testCluster (λ _, (testData, None)) (λ _, 1) noStatistics noNodeScope.

Definition loadUnreadable :=
LoadData {[ "testcluster" := testRepo ]} true testCluster (λ _, (∅, Some "no such file"))
  (λ _, 1) noStatistics noNodeScope.

(** A scan that keeps the row with its id, and an engine that yields the
    rows in the order of their ids. *)
Definition scanRow (id : Z) (r : Repository.JobRow) : string + Z * Repository.JobRow :=
inr (id, r).

Definition rowsById (t : gmap Z Repository.JobRow) : list (Z * Repository.JobRow) :=
map_to_list t.

Definition testUser : Repository.AuthUser := Repository.mkAuthUser "testuser" false.

(** A loop over the nodes of a metric that meets them in the order of their
    names, whatever the index. *)
Definition nodesByName (_ : nat) (nodes : gmap string MetricStatistics) :
  list (string * MetricStatistics) :=
map_to_list nodes.

(** The tables with the job of the test and two tags on it. *)
Definition taggedTables : Repository.Tables :=
(Repository.AddTagOrCreate true
   (Repository.AddTagOrCreate true startedTables 1 "testTagType" "testTagName").1
   1 "testTagType" "otherTagName").1.

End Fixtures.

(** * Properties of the metric data service *)

Section ServiceProperties.

Import MetricData.

Variable metricDataRepos : gmap string MetricDataRepository.
Variable useArchive : bool.
Variable GetCluster : string → ClusterConfig.
Variable loadFromArchive : Job → gmap string (gmap string JobMetric) * option error.
Variable JobDataSize : gmap string (gmap string JobMetric) → Z.
Variable statisticsSeriesOf : list Series → StatsSeries.
Variable nodeScopeOf : gmap string JobMetric → option JobMetric.

Lemma readsLive_spec (job : Job) :
  readsLive useArchive job = true ↔
  State job = JobStateRunning
  ∨ MonitoringStatus job = MonitoringStatusRunningOrArchiving
  ∨ useArchive = false.
Proof.
unfold readsLive.
rewrite !orb_true_iff, !bool_decide_eq_true, negb_true_iff.
tauto.
Qed.

Lemma ttl_nonzero (job : Job) :
  ((if decide (State job = JobStateRunning) then 2 * Minute else 5 * Hour) =? 0) = false.
Proof. case_decide; reflexivity. Qed.

(** C1, as amended. On a computation (the key is not in the cache), [LoadData] reads
    exactly one source: the archive exactly when the job is not running, its
    monitoring status is not running-or-archiving and the archive is in use;
    the live adapter registered for the cluster of the job exactly in the
    other case. With no adapter registered for the cluster the live case
    reads nothing. *)
Theorem LoadData_routing (w : World) (job : Job) (metrics : slice string) (scopes : slice string) :
  cache w !! cacheKey job metrics scopes = None →
  let live := State job = JobStateRunning
              ∨ MonitoringStatus job = MonitoringStatusRunningOrArchiving
              ∨ useArchive = false in
  ∃ new : list Source,
    reads (LoadData metricDataRepos useArchive GetCluster loadFromArchive JobDataSize
             statisticsSeriesOf nodeScopeOf job metrics scopes w).2 = reads w ++ new
    ∧ (new = [SrcArchive (ID job)] ↔ ¬ live)
    ∧ (∀ repo, metricDataRepos !! Cluster job = Some repo → (new = [SrcLive (Cluster job)] ↔ live))
    ∧ (metricDataRepos !! Cluster job = None → live → new = []).
Proof.
intros Hmiss live.
pose proof (readsLive_spec job) as Hlive. fold live in Hlive.
unfold LoadData, mbind, M_bind, cacheGet. rewrite Hmiss.
unfold loadDataFn.
destruct (readsLive useArchive job) eqn:Hr.
- assert (live) as HL by (apply Hlive; reflexivity).
  destruct (metricDataRepos !! Cluster job) as [repo|] eqn:Hrepo.
  + exists [SrcLive (Cluster job)].
    unfold mbind, M_bind, readFrom, logErrorf, mret, M_ret, finishLoad; simpl.
    destruct (repoLoadData repo job _ _) as [jd [e|]]; simpl.
    * case_decide; simpl; rewrite ?ttl_nonzero; simpl.
      all: split; [reflexivity|].
      all: split; [split; [discriminate| tauto]|].
      all: split; [intros; tauto | discriminate].
    * rewrite ttl_nonzero; simpl.
      split; [reflexivity|].
      split; [split; [discriminate| tauto]|].
      split; [intros; tauto | discriminate].
  + exists []. simpl. rewrite app_nil_r.
    split; [reflexivity|].
    split; [split; [discriminate| tauto]|].
    split; [discriminate | reflexivity].
- assert (¬ live) as HL by (rewrite <- Hlive; congruence).
  exists [SrcArchive (ID job)].
  unfold mbind, M_bind, readFrom, mret, M_ret, finishLoad; simpl.
  destruct (loadFromArchive job) as [jd [e|]]; simpl; rewrite ?ttl_nonzero; simpl.
  all: split; [reflexivity|].
  all: split; [tauto|].
  all: split; [intros; split; [discriminate|tauto] | tauto].
Qed.

(** C3. On the live path, on a computation: when the adapter returns an
    error together with data that is not empty, [LoadData] returns the data
    (post-processed by [prepareJobData]) and no error, and the error is
    logged; when it returns an error and empty data, [LoadData] returns that
    error and no data, and nothing is logged. *)
Theorem LoadData_partial_error (w : World) (job : Job) (metrics : slice string)
    (scopes : slice string) (repo : MetricDataRepository)
    (jd : gmap string (gmap string JobMetric)) (err : error) :
  cache w !! cacheKey job metrics scopes = None →
  readsLive useArchive job = true →
  metricDataRepos !! Cluster job = Some repo →
  repoLoadData repo job (defaultMetrics GetCluster job metrics) (defaultScopes scopes) = (jd, Some err) →
  let out := LoadData metricDataRepos useArchive GetCluster loadFromArchive JobDataSize
               statisticsSeriesOf nodeScopeOf job metrics scopes w in
  (jd ≠ ∅ →
     out.1 = (prepareJobData statisticsSeriesOf nodeScopeOf job jd (defaultScopes scopes), None)
     ∧ logs out.2 = logs w ++ ["partial error: " +:+ err])
  ∧ (jd = ∅ → out.1 = (∅, Some err) ∧ logs out.2 = logs w).
Proof.
intros Hmiss Hlive Hrepo Hload out. subst out.
unfold LoadData, mbind, M_bind, cacheGet. rewrite Hmiss.
unfold loadDataFn. rewrite Hlive, Hrepo.
unfold mbind, M_bind, readFrom; simpl. rewrite Hload.
split.
- intros Hne. apply map_size_non_empty_iff in Hne.
  destruct (decide (size jd ≠ 0%nat)) as [_|Hn]; [|contradiction].
  unfold logErrorf, mret, M_ret, finishLoad; simpl.
  rewrite ttl_nonzero; simpl. split; reflexivity.
- intros ->. rewrite map_size_empty.
  destruct (decide (0%nat ≠ 0%nat)) as [Hn|_]; [contradiction|].
  simpl. split; reflexivity.
Qed.

Lemma recordAt_fmap (f : JobMetric → JobMetric) (jd : gmap string (gmap string JobMetric))
    (metric scope : string) :
  recordAt ((λ perscope : gmap string JobMetric, f <$> perscope) <$> jd) metric scope
  = f <$> recordAt jd metric scope.
Proof.
unfold recordAt. rewrite lookup_fmap.
destruct (jd !! metric) as [ps|]; simpl; [|reflexivity].
apply lookup_fmap.
Qed.

Lemma AddNodeScope_recordAt (metric : string) (jd : gmap string (gmap string JobMetric))
    (k scope : string) (jm : JobMetric) :
  recordAt jd k scope = Some jm →
  recordAt (AddNodeScope nodeScopeOf metric jd) k scope = Some jm.
Proof.
unfold AddNodeScope. intros H.
destruct (jd !! metric) as [ps|] eqn:Hm; [|exact H].
destruct (ps !! MetricScopeNode) as [x|] eqn:Hn; [exact H|].
destruct (nodeScopeOf ps) as [nodeJm|]; [|exact H].
unfold recordAt in *.
destruct (decide (metric = k)) as [->|Hne].
- rewrite lookup_insert_eq. rewrite Hm in H. simpl in *.
  destruct (decide (MetricScopeNode = scope)) as [<-|Hs]; [congruence|].
  rewrite lookup_insert_ne; assumption.
- rewrite lookup_insert_ne; assumption.
Qed.

Lemma prepareJobData_recordAt (job : Job) (jd : gmap string (gmap string JobMetric))
    (scopes : slice string) (metric scope : string) (jm : JobMetric) :
  recordAt jd metric scope = Some jm →
  recordAt (prepareJobData statisticsSeriesOf nodeScopeOf job jd scopes) metric scope
  = Some (if skipsStatistics jm then jm else AddStatisticsSeries statisticsSeriesOf jm).
Proof.
intros H. unfold prepareJobData.
match goal with |- recordAt (if ?b then _ else _) _ _ = _ => destruct b end.
- do 2 apply AddNodeScope_recordAt. rewrite recordAt_fmap, H. reflexivity.
- rewrite recordAt_fmap, H. reflexivity.
Qed.

(** C7. [prepareJobData] on a record of the job data: with more than 15
    series and no statistics series, the record gets the derived statistics
    series of its series and is otherwise as before; with at most 15 series,
    or with a statistics series, the record is left as it is. *)
Theorem prepareJobData_statistics (job : Job) (jd : gmap string (gmap string JobMetric))
    (scopes : slice string) (metric scope : string) (jm : JobMetric) :
  recordAt jd metric scope = Some jm →
  let out := prepareJobData statisticsSeriesOf nodeScopeOf job jd scopes in
  ((15 < length (SeriesOf jm))%nat → StatisticsSeries jm = None →
     ∃ jm', recordAt out metric scope = Some jm'
       ∧ StatisticsSeries jm' = Some (statisticsSeriesOf (SeriesOf jm))
       ∧ SeriesOf jm' = SeriesOf jm ∧ Unit jm' = Unit jm
       ∧ Scope jm' = Scope jm ∧ Timestep jm' = Timestep jm)
  ∧ ((length (SeriesOf jm) ≤ 15)%nat ∨ is_Some (StatisticsSeries jm) →
     recordAt out metric scope = Some jm).
Proof.
intros H out. subst out. rewrite (prepareJobData_recordAt _ _ _ _ _ _ H).
unfold skipsStatistics, maxSeriesSize. split.
- intros Hlen Hnone.
  rewrite !bool_decide_eq_false_2; [|lia|rewrite Hnone; apply is_Some_None]. simpl.
  eexists; split; [reflexivity|]. simpl. repeat split; reflexivity.
- intros [Hlen|Hsome].
  + rewrite (bool_decide_eq_true_2 (length (SeriesOf jm) ≤ 15)%nat) by exact Hlen.
    rewrite orb_true_r. reflexivity.
  + rewrite (bool_decide_eq_true_2 (is_Some (StatisticsSeries jm))) by exact Hsome.
    reflexivity.
Qed.

Lemma subset_lookup (perscope : gmap string JobMetric) (scopes : list string)
    (acc : gmap string JobMetric) (scope : string) :
  foldl (λ subset scope,
           match perscope !! scope with
           | Some jm => <[scope := jm]> subset
           | None => subset
           end) acc scopes !! scope
  = if decide (scope ∈ scopes)
    then match perscope !! scope with Some jm => Some jm | None => acc !! scope end
    else acc !! scope.
Proof.
revert acc. induction scopes as [|x l IH]; intros acc; simpl.
- destruct (decide (scope ∈ [])) as [H|_]; [inversion H|reflexivity].
- rewrite IH. destruct (decide (x = scope)) as [->|Hne].
  + rewrite (decide_True (P := scope ∈ scope :: l)) by constructor.
    destruct (perscope !! scope) as [jm|] eqn:Hp.
    * rewrite lookup_insert_eq. destruct (decide (scope ∈ l)); reflexivity.
    * destruct (decide (scope ∈ l)); reflexivity.
  + destruct (decide (scope ∈ l)) as [Hin|Hnin].
    * rewrite (decide_True (P := scope ∈ x :: l)) by (constructor; exact Hin).
      destruct (perscope !! scope) as [jm|] eqn:Hp; [reflexivity|].
      destruct (perscope !! x); [rewrite lookup_insert_ne by exact Hne|]; reflexivity.
    * rewrite (decide_False (P := scope ∈ x :: l))
        by (intros Hc; apply elem_of_cons in Hc; destruct Hc; congruence).
      destruct (perscope !! x); [rewrite lookup_insert_ne by exact Hne|]; reflexivity.
Qed.

Lemma trimScopes_spec (perscope : gmap string JobMetric) (scopes : list string) :
  let cut := (1 < size perscope)%nat ∧ ∃ s, s ∈ scopes ∧ is_Some (perscope !! s) in
  (cut → ∀ s, trimScopes perscope (Some scopes) !! s
              = if decide (s ∈ scopes) then perscope !! s else None)
  ∧ (¬ cut → trimScopes perscope (Some scopes) = perscope).
Proof.
intros cut. subst cut. unfold trimScopes. simpl.
set (subset := foldl _ _ _).
assert (Hsub : ∀ s, subset !! s = if decide (s ∈ scopes) then perscope !! s else None).
{ intros s0. subst subset. rewrite subset_lookup, lookup_empty.
  destruct (decide (s0 ∈ scopes)); [|reflexivity].
  destruct (perscope !! s0); reflexivity. }
assert (Hsize : (0 < size subset)%nat ↔ ∃ s, s ∈ scopes ∧ is_Some (perscope !! s)).
{ split.
  - intros Hpos. assert (size subset ≠ 0%nat) as Hne by lia.
    apply map_size_ne_0_lookup in Hne as [s0 Hs0]. exists s0.
    rewrite Hsub in Hs0. destruct (decide (s0 ∈ scopes)); [tauto|].
    destruct Hs0 as [? ?]; discriminate.
  - intros (s0 & Hin & Hs0).
    assert (size subset ≠ 0%nat); [|lia].
    apply map_size_ne_0_lookup. exists s0. rewrite Hsub, decide_True; assumption. }
destruct (decide (1 < size perscope)%nat) as [H1|H1].
- destruct (decide (0 < size subset)%nat) as [H0|H0].
  + split; [intros _; exact Hsub|]. intros Hn. exfalso. apply Hn. tauto.
  + split; [|reflexivity]. intros [_ Hex]. exfalso. apply H0, Hsize, Hex.
- split; [|reflexivity]. intros [Hc _]. contradiction.
Qed.

Lemma trimScopes_sub (perscope : gmap string JobMetric) (scopes : slice string)
    (s : string) (jm : JobMetric) :
  trimScopes perscope scopes !! s = Some jm → perscope !! s = Some jm.
Proof.
unfold trimScopes.
destruct (decide (1 < size perscope)%nat); [|tauto].
match goal with |- context [decide (0 < size ?m)%nat] => destruct (decide (0 < size m)%nat) end;
  [|tauto].
rewrite subset_lookup, lookup_empty.
destruct (decide (s ∈ elems scopes)); [|discriminate].
destruct (perscope !! s); [tauto|discriminate].
Qed.

Lemma trimArchived_lookup (jd : gmap string (gmap string JobMetric)) (metrics : list string)
    (scopes : slice string) (acc : gmap string (gmap string JobMetric)) (m : string) :
  foldl (λ res metric,
           match jd !! metric with
           | Some perscope => <[metric := trimScopes perscope scopes]> res
           | None => res
           end) acc metrics !! m
  = if decide (m ∈ metrics)
    then match jd !! m with Some perscope => Some (trimScopes perscope scopes) | None => acc !! m end
    else acc !! m.
Proof.
revert acc. induction metrics as [|x l IH]; intros acc; simpl.
- destruct (decide (m ∈ [])) as [H|_]; [inversion H|reflexivity].
- rewrite IH. destruct (decide (x = m)) as [->|Hne].
  + rewrite (decide_True (P := m ∈ m :: l)) by constructor.
    destruct (jd !! m) as [ps|] eqn:Hp.
    * rewrite lookup_insert_eq. destruct (decide (m ∈ l)); reflexivity.
    * destruct (decide (m ∈ l)); reflexivity.
  + destruct (decide (m ∈ l)) as [Hin|Hnin].
    * rewrite (decide_True (P := m ∈ x :: l)) by (constructor; exact Hin).
      destruct (jd !! m) as [ps|] eqn:Hp; [reflexivity|].
      destruct (jd !! x); [rewrite lookup_insert_ne by exact Hne|]; reflexivity.
    * rewrite (decide_False (P := m ∈ x :: l))
        by (intros Hc; apply elem_of_cons in Hc; destruct Hc; congruence).
      destruct (jd !! x); [rewrite lookup_insert_ne by exact Hne|]; reflexivity.
Qed.

Lemma trimArchived_spec (jd : gmap string (gmap string JobMetric)) (metrics : list string)
    (scopes : slice string) (m : string) :
  trimArchived jd (Some metrics) scopes !! m
  = if decide (m ∈ metrics) then (λ perscope, trimScopes perscope scopes) <$> jd !! m else None.
Proof.
unfold trimArchived. simpl. rewrite trimArchived_lookup, lookup_empty.
destruct (decide (m ∈ metrics)); [|reflexivity].
destruct (jd !! m); reflexivity.
Qed.

(** C4, as amended. On the archive path, on a computation with a metric list
    and a scope list that are not [nil]: [LoadData] returns the trimmed
    archive data, post-processed. The trimmed data holds exactly the
    requested metrics that the archive has. A metric the archive has at more
    than one scope, one of them requested, is cut down to its requested
    scopes; any other metric keeps all its archived scopes. Every record of
    the trimmed data is the archived record at that metric and scope. *)
Theorem LoadData_archive_trimming (w : World) (job : Job) (metrics scopes : list string)
    (jd : gmap string (gmap string JobMetric)) :
  cache w !! cacheKey job (Some metrics) (Some scopes) = None →
  readsLive useArchive job = false →
  loadFromArchive job = (jd, None) →
  let res := trimArchived jd (Some metrics) (Some scopes) in
  (LoadData metricDataRepos useArchive GetCluster loadFromArchive JobDataSize
     statisticsSeriesOf nodeScopeOf job (Some metrics) (Some scopes) w).1
  = (prepareJobData statisticsSeriesOf nodeScopeOf job res (Some scopes), None)
  ∧ (∀ m, is_Some (res !! m) ↔ m ∈ metrics ∧ is_Some (jd !! m))
  ∧ (∀ m perscope archived, res !! m = Some perscope → jd !! m = Some archived →
       let cut := (1 < size archived)%nat ∧ ∃ s, s ∈ scopes ∧ is_Some (archived !! s) in
       (cut → ∀ s, perscope !! s = if decide (s ∈ scopes) then archived !! s else None)
       ∧ (¬ cut → perscope = archived))
  ∧ (∀ m s jm, recordAt res m s = Some jm → recordAt jd m s = Some jm).
Proof.
intros Hmiss Hlive Hload res. split; [|split; [|split]].
- unfold LoadData, mbind, M_bind, cacheGet. rewrite Hmiss.
  unfold loadDataFn. rewrite Hlive.
  unfold mbind, M_bind, readFrom; simpl. rewrite Hload. simpl.
  unfold finishLoad. rewrite ttl_nonzero. reflexivity.
- intros m. subst res. rewrite trimArchived_spec.
  destruct (decide (m ∈ metrics)) as [Hin|Hnin].
  + rewrite fmap_is_Some. tauto.
  + split; [intros [? ?]; discriminate|tauto].
- intros m perscope archived Hres Hjd. subst res.
  rewrite trimArchived_spec, Hjd in Hres.
  destruct (decide (m ∈ metrics)); [|discriminate].
  simpl in Hres. injection Hres as <-.
  apply trimScopes_spec.
- intros m s jm. subst res. unfold recordAt. rewrite trimArchived_spec.
  destruct (decide (m ∈ metrics)); [|discriminate].
  destruct (jd !! m) as [ps|]; simpl; [|discriminate].
  apply trimScopes_sub.
Qed.

End ServiceProperties.

(** * Properties of the job repository *)

Section RepositoryProperties.

Import Repository.

Variable foreignKeys : bool.

Lemma nextRowid_above {A : Type} (t : gmap Z A) (k : Z) :
  is_Some (t !! k) → k < nextRowid t.
Proof.
unfold nextRowid. intros Hk.
assert (k ≤ map_fold (λ k _ acc, Z.max k acc) 0 t); [|lia].
revert k Hk.
apply (map_fold_weak_ind (λ r (m : gmap Z A), ∀ k, is_Some (m !! k) → k ≤ r)).
- intros k [x Hx]. rewrite lookup_empty in Hx. discriminate.
- intros i x m r Hi IH k Hk.
  destruct (decide (i = k)) as [->|Hne]; [lia|].
  rewrite lookup_insert_ne in Hk by exact Hne.
  specialize (IH k Hk). lia.
Qed.

Lemma nextRowid_fresh {A : Type} (t : gmap Z A) : t !! nextRowid t = None.
Proof.
destruct (t !! nextRowid t) as [x|] eqn:Hx; [|reflexivity].
pose proof (nextRowid_above t (nextRowid t) (mk_is_Some _ _ Hx)). lia.
Qed.

(** ** [Stop] *)

(** C2, as amended. [Stop] never reports a missing job: for an id with no
    row it returns no error and leaves the tables as they are. For the id of
    a row it sets [job_state], [duration] and [monitoring_status] of that row
    and nothing else, provided the new state and monitoring status pass the
    [CHECK] constraints of the table. *)
Theorem Stop_updates_row (db : Tables) (jobId duration : Z) (state : string) (monitoringStatus : Z) :
  (jobTable db !! jobId = None → Stop db jobId duration state monitoringStatus = (db, None))
  ∧ (∀ r, jobTable db !! jobId = Some r → jobChecks r = true →
       state ∈ jobStates → monitoringStatus ∈ [0; 1; 2; 3] →
       Stop db jobId duration state monitoringStatus
       = (mkTables
            (<[jobId := set_monitoring_status monitoringStatus
                          (set_duration duration (set_job_state state r))]> (jobTable db))
            (tagTable db) (jobtagTable db), None)).
Proof.
unfold Stop, execUpdate; simpl. split.
- intros ->. reflexivity.
- intros r -> Hr Hstate Hms.
  assert (jobChecks (set_monitoring_status monitoringStatus
                       (set_duration duration (set_job_state state r))) = true) as ->;
    [|reflexivity].
  unfold jobChecks in *; simpl.
  apply andb_prop in Hr as [Hr _]. apply andb_prop in Hr as [Hr Hex].
  apply andb_prop in Hr as [_ Hsmt].
  rewrite Hsmt, Hex.
  rewrite !bool_decide_eq_true_2 by assumption. reflexivity.
Qed.

(** ** [Start] *)


(** ** [Archive] *)


Lemma archiveClause_where (stmt : UpdateBuilder) (metric : string) (stats : JobStatistics) :
  whereId (archiveClause stmt metric stats) = whereId stmt.
Proof. unfold archiveClause. repeat case_decide; reflexivity. Qed.




Lemma archive_fold_where (l : list (string * JobStatistics)) (stmt : UpdateBuilder) :
  whereId (foldl (λ stmt '(metric, stats), archiveClause stmt metric stats) stmt l)
  = whereId stmt.
Proof.
revert stmt. induction l as [|[metric stats] l IH]; intros stmt; simpl; [reflexivity|].
rewrite IH. apply archiveClause_where.
Qed.




















(** ** Tags *)

Lemma selectTag_elem (db : Tables) (tagType tagName : string) (id : Z) (row : TagRow) :
  (id, row) ∈ selectTag db tagType tagName ↔
  tagTable db !! id = Some row ∧ row = mkTagRow tagType tagName.
Proof.
unfold selectTag. rewrite list_elem_of_filter, elem_of_map_to_list. simpl.
destruct row as [ty name]; simpl. split.
- intros [[-> ->] H]. split; [exact H|reflexivity].
- intros [H Heq]. injection Heq as -> ->. split; [split; reflexivity|exact H].
Qed.

Lemma selectTag_insert (db : Tables) (tagType tagName : string) (id : Z) :
  selectTag db tagType tagName = [] →
  tagTable db !! id = None →
  selectTag (mkTables (jobTable db) (<[id := mkTagRow tagType tagName]> (tagTable db))
               (jobtagTable db)) tagType tagName
  = [(id, mkTagRow tagType tagName)].
Proof.
intros Hnone Hfresh. unfold selectTag in *. simpl.
apply Permutation_singleton_r.
rewrite (map_to_list_insert _ _ _ Hfresh).
rewrite filter_cons_True by (split; reflexivity).
rewrite Hnone. reflexivity.
Qed.

Lemma AddTag_tags (db : Tables) (jobId tagId : Z) :
  tagTable (AddTag foreignKeys db jobId tagId).1 = tagTable db.
Proof.
unfold AddTag, insertJobTag.
destruct (bool_decide _); [reflexivity|].
destruct (_ && _); reflexivity.
Qed.

Lemma selectTag_tags (db db' : Tables) (tagType tagName : string) :
  tagTable db' = tagTable db → selectTag db' tagType tagName = selectTag db tagType tagName.
Proof. unfold selectTag. intros ->. reflexivity. Qed.

(** What [AddTagOrCreate] returns and leaves in table [tag]: the id of the
    row of the pair, which it inserts when there was none. *)
Lemma AddTagOrCreate_spec (db : Tables) (jobId : Z) (tagType tagName : string) :
  ∃ id rest,
    (AddTagOrCreate foreignKeys db jobId tagType tagName).2.1 = id
    ∧ selectTag (AddTagOrCreate foreignKeys db jobId tagType tagName).1 tagType tagName
      = (id, mkTagRow tagType tagName) :: rest
    ∧ ((selectTag db tagType tagName = (id, mkTagRow tagType tagName) :: rest
        ∧ tagTable (AddTagOrCreate foreignKeys db jobId tagType tagName).1 = tagTable db)
       ∨ (selectTag db tagType tagName = [] ∧ rest = []
          ∧ tagTable db !! id = None
          ∧ tagTable (AddTagOrCreate foreignKeys db jobId tagType tagName).1
            = <[id := mkTagRow tagType tagName]> (tagTable db))).
Proof.
unfold AddTagOrCreate, TagId, CreateTag, insertTag.
destruct (selectTag db tagType tagName) as [|[id row] rest] eqn:Hsel.
- pose proof (selectTag_insert db tagType tagName (nextRowid (tagTable db)) Hsel
                (nextRowid_fresh _)) as Hins.
  set (db' := mkTables _ _ _) in *.
  exists (nextRowid (tagTable db)), [].
  pose proof (AddTag_tags db' jobId (nextRowid (tagTable db))) as Htags.
  destruct (AddTag foreignKeys db' jobId (nextRowid (tagTable db))) as [db'' err].
  simpl in *. split; [reflexivity|]. split.
  + rewrite (selectTag_tags db' db'' _ _ Htags). exact Hins.
  + right. repeat split; [apply nextRowid_fresh|exact Htags].
- assert (row = mkTagRow tagType tagName) as ->.
  { apply (selectTag_elem db tagType tagName id row). rewrite Hsel. constructor. }
  exists id, rest.
  pose proof (AddTag_tags db jobId id) as Htags.
  destruct (AddTag foreignKeys db jobId id) as [db' err].
  simpl in *. split; [reflexivity|]. split.
  + rewrite (selectTag_tags db db' _ _ Htags). exact Hsel.
  + left. split; [reflexivity|exact Htags].
Qed.

(** C8. Two calls of [AddTagOrCreate] in sequence with the same type and
    name, for any two jobs: both return the same tag id; the second call
    leaves table [tag] as the first left it; the row under the returned id
    is the pair; and the two calls together insert at most one row, under an
    id no row had, and none when the pair had a row. *)
Theorem AddTagOrCreate_twice (db : Tables) (jobId jobId' : Z) (tagType tagName : string) :
  let first := AddTagOrCreate foreignKeys db jobId tagType tagName in
  let second := AddTagOrCreate foreignKeys first.1 jobId' tagType tagName in
  second.2.1 = first.2.1
  ∧ tagTable second.1 = tagTable first.1
  ∧ tagTable second.1 !! first.2.1 = Some (mkTagRow tagType tagName)
  ∧ (tagTable second.1 = tagTable db
     ∨ (selectTag db tagType tagName = []
        ∧ tagTable db !! first.2.1 = None
        ∧ tagTable second.1 = <[first.2.1 := mkTagRow tagType tagName]> (tagTable db)
        ∧ selectTag second.1 tagType tagName = [(first.2.1, mkTagRow tagType tagName)])).
Proof.
intros first second.
destruct (AddTagOrCreate_spec db jobId tagType tagName) as (id & rest & Hid & Hsel & Hcase).
fold first in Hid, Hsel, Hcase.
destruct (AddTagOrCreate_spec first.1 jobId' tagType tagName)
  as (id' & rest' & Hid' & Hsel' & Hcase').
fold second in Hid', Hsel', Hcase'.
destruct Hcase' as [[Hsame Htags']|[Hnone _]]; [|rewrite Hsel in Hnone; discriminate].
rewrite Hsel in Hsame. injection Hsame as <- <-.
rewrite Hid, Hid'. split; [reflexivity|]. split; [exact Htags'|].
assert (tagTable first.1 !! id = Some (mkTagRow tagType tagName)) as Hrow.
{ apply (selectTag_elem first.1 tagType tagName id). rewrite Hsel. constructor. }
split; [rewrite Htags'; exact Hrow|].
destruct Hcase as [[_ Htags]|(Hnone & -> & Hfresh & Htags)].
- left. rewrite Htags'. exact Htags.
- right. split; [exact Hnone|]. split; [exact Hfresh|].
  split; [rewrite Htags'; exact Htags|exact Hsel'].
Qed.

End RepositoryProperties.

(** * Properties of the import *)

Section ImportProperties.

Import Repository.

Variable foreignKeys : bool.
Variable SanityChecks : JobMeta → option string.
Variable loadJobStat : JobMeta → string → float.
Variable marshalResources : list Resource → string.
Variable marshalMetaData : gmap string string → string.










Lemma logged_inr (path : string) (step : I unit) (s : ImportState) :
  logged path step s = (inr tt, (logged path step s).2).
Proof. unfold logged. destruct (step s) as [[err|u] s']; reflexivity. Qed.




(** ** The walk is a fold over the job directories *)

Lemma walkStartTimeDirs_fold (dirpath : string) (lvl2Dir : FsNode)
    (startTimeDirs : list (string * FsNode)) (s : ImportState) :
  walkStartTimeDirs foreignKeys SanityChecks loadJobStat marshalResources marshalMetaData
    dirpath lvl2Dir startTimeDirs s
  = (inr tt,
     foldl (λ s d, importDir foreignKeys SanityChecks loadJobStat marshalResources
                     marshalMetaData d s) s
       (flat_map (λ '(name, startTimeDir),
                    if IsRegular startTimeDir && bool_decide (name = "meta.json")
                    then [(dirpath, lvl2Dir)]
                    else if IsDir startTimeDir then [(pathJoin dirpath name, startTimeDir)]
                    else []) startTimeDirs)).
Proof.
unfold walkStartTimeDirs.
revert s. induction startTimeDirs as [|[name n] l IH]; intros s; simpl; [reflexivity|].
unfold mbind, I_bind.
destruct (IsRegular n && bool_decide (name = "meta.json")).
- rewrite logged_inr. simpl. rewrite IH. reflexivity.
- destruct (IsDir n).
  + rewrite logged_inr. simpl. rewrite IH. reflexivity.
  + simpl. rewrite IH. reflexivity.
Qed.

Lemma walkLvl2Dirs_fold (lvl1path : string) (lvl2Dirs : list (string * FsNode))
    (s : ImportState) :
  forallb (λ p, readable p.2) lvl2Dirs = true →
  walkLvl2Dirs foreignKeys SanityChecks loadJobStat marshalResources marshalMetaData
    lvl1path lvl2Dirs s
  = (inr tt,
     foldl (λ s d, importDir foreignKeys SanityChecks loadJobStat marshalResources
                     marshalMetaData d s) s
       (flat_map (λ '(name, lvl2Dir), jobDirsOfLvl2 (pathJoin lvl1path name) lvl2Dir) lvl2Dirs)).
Proof.
unfold walkLvl2Dirs.
revert s. induction lvl2Dirs as [|[name n] l IH]; intros s Hread; simpl; [reflexivity|].
simpl in Hread. apply andb_prop in Hread as [Hn Hl].
destruct n as [|[es|]|]; try discriminate.
unfold mbind, I_bind. simpl.
rewrite walkStartTimeDirs_fold, foldl_app.
rewrite IH by exact Hl. reflexivity.
Qed.

Lemma walkLvl1Dirs_fold (clusterpath : string) (lvl1Dirs : list (string * FsNode))
    (s : ImportState) :
  forallb (λ p, negb (IsDir p.2) || lvl1Walkable p.2) lvl1Dirs = true →
  walkLvl1Dirs foreignKeys SanityChecks loadJobStat marshalResources marshalMetaData
    clusterpath lvl1Dirs s
  = (inr tt,
     foldl (λ s d, importDir foreignKeys SanityChecks loadJobStat marshalResources
                     marshalMetaData d s) s
       (flat_map (λ '(name, lvl1Dir),
                    if IsDir lvl1Dir then jobDirsOfLvl1 (pathJoin clusterpath name) lvl1Dir
                    else []) lvl1Dirs)).
Proof.
unfold walkLvl1Dirs.
revert s. induction lvl1Dirs as [|[name n] l IH]; intros s Hread; simpl; [reflexivity|].
simpl in Hread. apply andb_prop in Hread as [Hn Hl].
unfold mbind, I_bind.
destruct (IsDir n) eqn:Hdir; simpl in *.
- unfold lvl1Walkable in Hn. apply andb_prop in Hn as [Hr Hes].
  destruct n as [|[es|]|]; try discriminate. simpl in *.
  rewrite walkLvl2Dirs_fold by exact Hes.
  rewrite foldl_app. rewrite IH by exact Hl. reflexivity.
- rewrite IH by exact Hl. reflexivity.
Qed.

Lemma walkClusters_fold (archive : string) (clustersDir : list (string * FsNode))
    (s : ImportState) :
  forallb (λ p, clusterWalkable p.2) clustersDir = true →
  walkClusters foreignKeys SanityChecks loadJobStat marshalResources marshalMetaData
    archive clustersDir s
  = (inr tt,
     foldl (λ s d, importDir foreignKeys SanityChecks loadJobStat marshalResources
                     marshalMetaData d s) s
       (flat_map (λ '(name, clusterDir), jobDirsOfCluster (pathJoin archive name) clusterDir)
          clustersDir)).
Proof.
unfold walkClusters.
revert s. induction clustersDir as [|[name n] l IH]; intros s Hread; simpl; [reflexivity|].
simpl in Hread. apply andb_prop in Hread as [Hn Hl].
unfold clusterWalkable in Hn. apply andb_prop in Hn as [Hr Hes].
destruct n as [|[es|]|]; try discriminate. simpl in *.
unfold mbind, I_bind. simpl.
rewrite walkLvl1Dirs_fold by exact Hes.
rewrite foldl_app. rewrite IH by exact Hl. reflexivity.
Qed.

(** [InitDB] on an archive that can be read throughout. *)
Lemma InitDB_walkable (db : Tables) (archive : string) (root : FsNode) :
  walkable root = true →
  InitDB foreignKeys SanityChecks loadJobStat marshalResources marshalMetaData db archive root
  = let walked :=
      foldl (λ s d, importDir foreignKeys SanityChecks loadJobStat marshalResources
                      marshalMetaData d s)
        (mkImportState emptyTables (Some emptyTables) [OpSchema; OpBegin] [] 0 ∅)
        (jobDirs archive root) in
    (None, mkImportState (workTables walked) None (ops walked ++ [OpCommit; OpIndexes])
             (errlog walked) (count walked) (tagIds walked)).
Proof.
intros Hwalk. unfold walkable in Hwalk. apply andb_prop in Hwalk as [Hr Hes].
destruct root as [|[es|]|]; try discriminate. simpl in Hes.
unfold InitDB, initDB, mbind, I_bind. simpl.
rewrite walkClusters_fold by exact Hes. simpl.
unfold addOp. simpl. rewrite <- app_assoc. reflexivity.
Qed.


(** C10. [InitDB] leaves what it would leave on empty tables, whatever the
    tables held; when the archive cannot be read it returns the error and
    leaves the three tables empty; so it does, with no error, when the
    archive holds no job directory. *)
Theorem InitDB_drops_tables (db : Tables) (archive : string) (root : FsNode) :
  InitDB foreignKeys SanityChecks loadJobStat marshalResources marshalMetaData db archive root
  = InitDB foreignKeys SanityChecks loadJobStat marshalResources marshalMetaData
      emptyTables archive root
  ∧ (readable root = false →
     InitDB foreignKeys SanityChecks loadJobStat marshalResources marshalMetaData db archive root
     = (Some (ErrReadDir archive), mkImportState emptyTables None [OpSchema] [] 0 ∅))
  ∧ (walkable root = true → jobDirs archive root = [] →
     InitDB foreignKeys SanityChecks loadJobStat marshalResources marshalMetaData db archive root
     = (None, mkImportState emptyTables None [OpSchema; OpBegin; OpCommit; OpIndexes] [] 0 ∅)).
Proof.
split; [reflexivity|]. split.
- intros Hr. unfold InitDB, initDB, mbind, I_bind. simpl.
  destruct root as [|[es|]|]; try discriminate; reflexivity.
- intros Hwalk Hnone. rewrite (InitDB_walkable db archive root Hwalk), Hnone. reflexivity.
Qed.

End ImportProperties.

(** ** The service on the test cluster *)

Section ServiceExamples.

Import MetricData Fixtures.

Example cacheKey_example :
  cacheKey runningJob (Some ["load_one"; "flops_any"]) None = "1(running):[[load_one flops_any]],[[]]".
Proof. reflexivity. Qed.

(** A second call with the same arguments is served from the cache: it reads
    no source. *)
Example LoadData_cached :
  reads (loadWith testRepo testData runningJob None None
           (loadWith testRepo testData runningJob None None emptyWorld).2).2
  = [SrcLive "testcluster"].
Proof. reflexivity. Qed.

(** C1, as stated, fails. The job has stopped and is being archived when its
    data is loaded, from the adapter. Once it is archived, the same call has
    the same key, which holds the job id, the state, the metrics and the
    scopes but not the monitoring status: while the cache keeps the entry
    (five hours at most), [LoadData] answers from it. The job is not
    running, its monitoring status is archiving-successful and the archive
    is in use, yet the archive, which holds other data, is not read. *)
Lemma LoadData_archived_job_not_read_from_archive :
  readsLive true stoppedJob = false
  ∧ cacheKey stoppedJob None None = cacheKey archivingJob None None
  ∧ reads (loadWith testRepo coreData archivingJob None None emptyWorld).2
    = [SrcLive "testcluster"]
  ∧ loadWith testRepo coreData stoppedJob None None
      (loadWith testRepo coreData archivingJob None None emptyWorld).2
    = ((testData, None), (loadWith testRepo coreData archivingJob None None emptyWorld).2)
  ∧ (loadWith testRepo coreData stoppedJob None None emptyWorld).1 = (coreData, None).
Proof. repeat split. Qed.

(** C1, as amended, on the test cluster: on a computation the running job is
    read from the adapter, the completed and archived job from the archive. *)
Lemma LoadData_routing_witness :
  reads (loadWith testRepo testData runningJob None None emptyWorld).2 = [SrcLive "testcluster"]
  ∧ reads (loadWith testRepo testData stoppedJob None None emptyWorld).2 = [SrcArchive 1].
Proof.
split.
- destruct (LoadData_routing {[ "testcluster" := testRepo ]} true testCluster
              (λ _, (testData, None)) (λ _, 1) noStatistics noNodeScope
              emptyWorld runningJob None None ltac:(reflexivity)) as (new & Hreads & _ & Hlive & _).
  unfold loadWith. rewrite Hreads.
  rewrite (proj2 (Hlive testRepo ltac:(reflexivity))); [reflexivity|].
  left. reflexivity.
- destruct (LoadData_routing {[ "testcluster" := testRepo ]} true testCluster
              (λ _, (testData, None)) (λ _, 1) noStatistics noNodeScope
              emptyWorld stoppedJob None None ltac:(reflexivity)) as (new & Hreads & Harchive & _).
  unfold loadWith. rewrite Hreads.
  rewrite (proj2 Harchive); [reflexivity|].
  intros [H|[H|H]]; discriminate.
Defined.

(** C3 on the test cluster: the adapter that times out with part of the data,
    and the one that times out with none. *)
Lemma LoadData_partial_error_witness :
  (loadWith partialRepo testData runningJob None None emptyWorld).1 = (testData, None)
  ∧ logs (loadWith partialRepo testData runningJob None None emptyWorld).2
    = ["partial error: timeout"]
  ∧ (loadWith failingRepo testData runningJob None None emptyWorld).1 = (∅, Some "timeout").
Proof.
split; [|split].
- destruct (LoadData_partial_error {[ "testcluster" := partialRepo ]} true testCluster
              (λ _, (testData, None)) (λ _, 1) noStatistics noNodeScope
              emptyWorld runningJob None None partialRepo testData "timeout"
              ltac:(reflexivity) ltac:(reflexivity) ltac:(reflexivity) ltac:(reflexivity)) as [Hdata _].
  destruct Hdata as [Hout _]; [discriminate|].
  unfold loadWith. rewrite Hout. reflexivity.
- destruct (LoadData_partial_error {[ "testcluster" := partialRepo ]} true testCluster
              (λ _, (testData, None)) (λ _, 1) noStatistics noNodeScope
              emptyWorld runningJob None None partialRepo testData "timeout"
              ltac:(reflexivity) ltac:(reflexivity) ltac:(reflexivity) ltac:(reflexivity)) as [Hdata _].
  destruct Hdata as [_ Hlog]; [discriminate|].
  exact Hlog.
- destruct (LoadData_partial_error {[ "testcluster" := failingRepo ]} true testCluster
              (λ _, (testData, None)) (λ _, 1) noStatistics noNodeScope
              emptyWorld runningJob None None failingRepo ∅ "timeout"
              ltac:(reflexivity) ltac:(reflexivity) ltac:(reflexivity) ltac:(reflexivity)) as [_ Hnone].
  destruct Hnone as [Hout _]; [reflexivity|].
  exact Hout.
Defined.

(** C7 on a job of seventeen nodes, and on the job of one node. *)
Lemma prepareJobData_statistics_witness :
  recordAt (prepareJobData noStatistics noNodeScope runningJob wideData (Some ["node"]))
    "load_one" "node" = Some (loadOne 17 (Some (mkStatsSeries [] [] [])))
  ∧ recordAt (prepareJobData noStatistics noNodeScope runningJob testData (Some ["node"]))
      "load_one" "node" = Some (loadOne 1 None).
Proof.
split.
- destruct (prepareJobData_statistics noStatistics noNodeScope runningJob wideData
              (Some ["node"]) "load_one" "node" (loadOne 17 None) ltac:(reflexivity)) as [Hadd _].
  destruct Hadd as (jm' & Hrec & Hstat & Hser & Hunit & Hscope & Hstep);
    [simpl; lia|reflexivity|].
  rewrite Hrec. f_equal. destruct jm'; simpl in *. subst. reflexivity.
- destruct (prepareJobData_statistics noStatistics noNodeScope runningJob testData
              (Some ["node"]) "load_one" "node" (loadOne 1 None) ltac:(reflexivity)) as [_ Hkeep].
  apply Hkeep. left. simpl. lia.
Defined.

(** C4, as stated, fails. The archive holds [flops_any] at core scope only;
    [flops_any] and [mem_bw] are requested at socket scope. The data returned
    has not exactly the requested metrics, and its one metric is there at a
    scope that was not requested. *)
Lemma LoadData_archive_unrequested_scope :
  (loadWith testRepo coreData stoppedJob (Some ["flops_any"; "mem_bw"]) (Some ["socket"])
     emptyWorld).1 = (coreData, None)
  ∧ ¬ (∀ m, is_Some (coreData !! m) ↔ m ∈ ["flops_any"; "mem_bw"])
  ∧ ¬ (∀ s, is_Some (recordAt coreData "flops_any" s) → s ∈ ["socket"]).
Proof.
split; [reflexivity|split].
- intros H. destruct (proj2 (H "mem_bw")) as [x Hx].
  + apply elem_of_cons. right. apply elem_of_cons. left. reflexivity.
  + discriminate Hx.
- intros H. specialize (H "core" (mk_is_Some _ _ ltac:(reflexivity))).
  apply elem_of_cons in H as [H|H]; [discriminate|inversion H].
Qed.

(** C4, as amended, on a metric archived at node and core scope and
    requested at node scope. *)
Lemma LoadData_archive_trimming_witness :
  (loadWith testRepo twoScopeData stoppedJob (Some ["load_one"]) (Some ["node"]) emptyWorld).1
  = (testData, None).
Proof.
destruct (LoadData_archive_trimming {[ "testcluster" := testRepo ]} true testCluster
            (λ _, (twoScopeData, None)) (λ _, 1) noStatistics noNodeScope
            emptyWorld stoppedJob ["load_one"] ["node"] twoScopeData
            ltac:(reflexivity) ltac:(reflexivity) ltac:(reflexivity)) as [Hout _].
unfold loadWith. rewrite Hout. reflexivity.
Defined.

End ServiceExamples.

(** ** The repository on the test cluster *)

Section RepositoryExamples.

Import Repository Fixtures.

(** C2, as stated, fails: no job has the id 2, and [Stop] returns no error. *)
Lemma Stop_unknown_id_no_error :
  jobTable startedTables !! 2 = None
  ∧ Stop startedTables 2 1000 "completed" 3 = (startedTables, None).
Proof. split; reflexivity. Qed.

(** C2, as amended, on the job of the test. *)
Lemma Stop_updates_row_witness :
  Stop startedTables 1 1000 "completed" 3
  = (mkTables {[ 1 := set_monitoring_status 3
                        (set_duration 1000 (set_job_state "completed" (startRow (testJob 123456789)))) ]}
       ∅ ∅, None).
Proof.
destruct (Stop_updates_row startedTables 1 1000 "completed" 3) as [_ H].
rewrite (H (startRow (testJob 123456789)));
  [reflexivity|reflexivity|reflexivity|set_solver|set_solver].
Defined.




(** The tag of the test is added twice to job 1: both calls return tag 1,
    the second fails on the primary key of [jobtag], and [tag] has one row. *)
Example AddTagOrCreate_twice_example :
  (AddTagOrCreate true startedTables 1 "testTagType" "testTagName").2 = (1, None)
  ∧ AddTagOrCreate true
      (AddTagOrCreate true startedTables 1 "testTagType" "testTagName").1
      1 "testTagType" "testTagName"
    = (mkTables (jobTable startedTables) {[ 1 := mkTagRow "testTagType" "testTagName" ]}
         {[ (1, 1) ]},
       (1, Some (ErrUnique "jobtag.job_id, jobtag.tag_id"))).
Proof. split; reflexivity. Qed.

(** A job whose [meta.json] names a tag twice: its load fails at the second
    association, after the row of the job was inserted. *)
Example InitDB_duplicate_tag :
  let out := importArchive emptyTables
               (Dir (Some [("testcluster", Dir (Some [("0", Dir (Some [("123",
                  Dir (Some [("meta.json", File (Some (twiceTagged 123456789)))]))]))]))])) in
  out.1 = None
  ∧ errlog out.2 = [("archive/testcluster/0/123", ErrUnique "jobtag.job_id, jobtag.tag_id")]
  ∧ count out.2 = 0
  ∧ dom (jobTable (store out.2)) = {[ 1 ]}.
Proof. vm_compute. repeat split. Qed.


(** C10 on the tables of the test: an archive that cannot be read, and an
    empty one. *)
Lemma InitDB_drops_tables_witness :
  jobTable startedTables ≠ ∅
  ∧ importArchive startedTables (File None)
    = (Some (ErrReadDir "archive"), mkImportState emptyTables None [OpSchema] [] 0 ∅)
  ∧ importArchive startedTables (Dir (Some []))
    = (None, mkImportState emptyTables None [OpSchema; OpBegin; OpCommit; OpIndexes] [] 0 ∅).
Proof.
split; [discriminate|].
split.
- apply (InitDB_drops_tables true (λ _, None) (λ _ _, 0%float) (λ _, "[]") (λ _, "{}")
           startedTables "archive" (File None)). reflexivity.
- apply (InitDB_drops_tables true (λ _, None) (λ _ _, 0%float) (λ _, "[]") (λ _, "{}")
           startedTables "archive" (Dir (Some []))); reflexivity.
Defined.

End RepositoryExamples.

(** * Further properties of the metric data service *)

Section ServiceMore.

Import MetricData.

Variable metricDataRepos : gmap string MetricDataRepository.
Variable useArchive : bool.
Variable GetCluster : string → ClusterConfig.
Variable loadFromArchive : Job → gmap string (gmap string JobMetric) * option error.
Variable JobDataSize : gmap string (gmap string JobMetric) → Z.
Variable statisticsSeriesOf : list Series → StatsSeries.
Variable nodeScopeOf : gmap string JobMetric → option JobMetric.

(** The closure returns an error with a zero time-to-live, or data with a
    time-to-live that is not zero; it does not touch the cache. *)
Lemma loadDataFn_outcome (job : Job) (metrics scopes : slice string) (w : World) :
  let out := loadDataFn metricDataRepos useArchive GetCluster loadFromArchive JobDataSize
               statisticsSeriesOf nodeScopeOf job metrics scopes w in
  cache out.2 = cache w
  ∧ ((∃ e, out.1.1.1 = CvErr e ∧ out.1.1.2 = 0)
     ∨ (∃ jd, out.1.1.1 = CvData jd ∧ out.1.1.2 ≠ 0)).
Proof.
assert (Httl : (if decide (State job = JobStateRunning) then 2 * Minute else 5 * Hour) ≠ 0)
  by (case_decide; discriminate).
unfold loadDataFn.
destruct (readsLive useArchive job).
- destruct (metricDataRepos !! Cluster job) as [repo|]; simpl;
    [|split; [reflexivity|left; eauto]].
  unfold mbind, M_bind, readFrom, logErrorf, mret, M_ret; simpl.
  destruct (repoLoadData repo job _ _) as [jd [e|]]; simpl.
  + destruct (decide (size jd ≠ 0%nat)); unfold finishLoad; simpl;
      (split; [reflexivity|]); [right|left]; eauto.
  + unfold finishLoad; simpl. split; [reflexivity|right; eauto].
- unfold mbind, M_bind, readFrom, mret, M_ret; simpl.
  destruct (loadFromArchive job) as [jd [e|]]; unfold finishLoad; simpl;
    (split; [reflexivity|]); [left|right]; eauto.
Qed.

(** X1. On a computation on the live path for a cluster with no adapter
    registered, [LoadData] returns the configuration error and no data, and
    reads, logs and caches nothing. *)
Theorem LoadData_no_adapter (w : World) (job : Job) (metrics scopes : slice string) :
  cache w !! cacheKey job metrics scopes = None →
  readsLive useArchive job = true →
  metricDataRepos !! Cluster job = None →
  LoadData metricDataRepos useArchive GetCluster loadFromArchive JobDataSize
    statisticsSeriesOf nodeScopeOf job metrics scopes w
  = ((∅, Some ("no metric data repository configured for '" +:+ Cluster job +:+ "'")), w).
Proof.
intros Hmiss Hlive Hnone.
unfold LoadData, mbind, M_bind, cacheGet. rewrite Hmiss.
unfold loadDataFn. rewrite Hlive, Hnone. simpl. reflexivity.
Qed.

(** X2. On a computation on the archive path, an error of the archive is
    returned with no data, whatever data came with it; nothing is logged and
    nothing is cached. *)
Theorem LoadData_archive_error (w : World) (job : Job) (metrics scopes : slice string)
    (jd : gmap string (gmap string JobMetric)) (err : error) :
  cache w !! cacheKey job metrics scopes = None →
  readsLive useArchive job = false →
  loadFromArchive job = (jd, Some err) →
  LoadData metricDataRepos useArchive GetCluster loadFromArchive JobDataSize
    statisticsSeriesOf nodeScopeOf job metrics scopes w
  = ((∅, Some err), mkWorld (cache w) (logs w) (reads w ++ [SrcArchive (ID job)])).
Proof.
intros Hmiss Hlive Hload.
unfold LoadData, mbind, M_bind, cacheGet. rewrite Hmiss.
unfold loadDataFn. rewrite Hlive.
unfold mbind, M_bind, readFrom; simpl. rewrite Hload. reflexivity.
Qed.

(** A call that returns data leaves the data in the cache under the key;
    a call that finds data under the key returns it and does nothing else. *)
Lemma LoadData_stores (w : World) (job : Job) (metrics scopes : slice string) :
  let out := LoadData metricDataRepos useArchive GetCluster loadFromArchive JobDataSize
               statisticsSeriesOf nodeScopeOf job metrics scopes w in
  out.1.2 = None → cache out.2 !! cacheKey job metrics scopes = Some (CvData out.1.1).
Proof.
intros out. subst out. unfold LoadData, mbind, M_bind, cacheGet.
destruct (cache w !! cacheKey job metrics scopes) as [v|] eqn:Hc.
- destruct v as [e|jd]; simpl; [discriminate|]. intros _. exact Hc.
- pose proof (loadDataFn_outcome job metrics scopes w) as H. cbv zeta in H.
  destruct (loadDataFn _ _ _ _ _ _ _ job metrics scopes w) as [[[v ttl] sz] w'].
  simpl in H. destruct H as [Hcache [[e [-> ->]]|[jd [-> Httl]]]]; simpl; [discriminate|].
  apply Z.eqb_neq in Httl. rewrite Httl. simpl. intros _. apply lookup_insert_eq.
Qed.

Lemma LoadData_hit (w : World) (job : Job) (metrics scopes : slice string)
    (jd : gmap string (gmap string JobMetric)) :
  cache w !! cacheKey job metrics scopes = Some (CvData jd) →
  LoadData metricDataRepos useArchive GetCluster loadFromArchive JobDataSize
    statisticsSeriesOf nodeScopeOf job metrics scopes w
  = ((jd, None), w).
Proof.
intros Hc. unfold LoadData, mbind, M_bind, cacheGet. rewrite Hc. reflexivity.
Qed.

(** X3. A call of [LoadData] that returns an error leaves the cache as it
    was, so that the next call starts anew. After a call that returned data,
    whatever has expired or been evicted since: as long as the entry of the
    key is still in the cache, the same call returns the same data and
    reads, logs and caches nothing. *)
Theorem LoadData_caching (w : World) (job : Job) (metrics scopes : slice string) :
  let load := LoadData metricDataRepos useArchive GetCluster loadFromArchive JobDataSize
                statisticsSeriesOf nodeScopeOf job metrics scopes in
  (∀ e, (load w).1.2 = Some e → cache (load w).2 = cache w)
  ∧ (∀ w', (load w).1.2 = None →
       forgets (load w).2 w' →
       is_Some (cache w' !! cacheKey job metrics scopes) →
       load w' = ((load w).1, w')).
Proof.
intros load. split.
- subst load. unfold LoadData, mbind, M_bind, cacheGet.
  destruct (cache w !! cacheKey job metrics scopes) as [v|] eqn:Hc.
  + destruct v as [e|jd]; simpl; reflexivity.
  + pose proof (loadDataFn_outcome job metrics scopes w) as H. cbv zeta in H.
    destruct (loadDataFn _ _ _ _ _ _ _ job metrics scopes w) as [[[v ttl] sz] w'].
    simpl in H. destruct H as [Hcache [[e [-> ->]]|[jd [-> Httl]]]]; simpl.
    * intros _ _. exact Hcache.
    * apply Z.eqb_neq in Httl. rewrite Httl. simpl. discriminate.
- intros w' Hok (Hsub & _ & _) [v Hv].
  pose proof (LoadData_stores w job metrics scopes) as Hstored.
  cbv zeta in Hstored. fold load in Hstored. specialize (Hstored Hok).
  assert (v = CvData (load w).1.1) as ->.
  { pose proof (lookup_weaken _ _ _ _ Hv Hsub) as Hv'. congruence. }
  subst load. rewrite (LoadData_hit w' job metrics scopes _ Hv).
  destruct (LoadData _ _ _ _ _ _ _ job metrics scopes w) as [[jd err] w''].
  simpl in *. rewrite Hok. reflexivity.
Qed.

(** X4. The cache key does not tell a [nil] list from an empty one, nor two
    metric names from the one name made of both with a space between. After
    a call for the metrics [a] and [b] that returned data, and as long as
    the entry of the key is still in the cache, the call for the one metric
    [a b] returns that data. *)
Theorem LoadData_key_collision (w : World) (job : Job) (a b : string) (scopes : slice string) :
  let load := LoadData metricDataRepos useArchive GetCluster loadFromArchive JobDataSize
                statisticsSeriesOf nodeScopeOf job in
  cacheKey job None scopes = cacheKey job (Some []) scopes
  ∧ cacheKey job (Some [a; b]) scopes = cacheKey job (Some [a +:+ " " +:+ b]) scopes
  ∧ (∀ w', (load (Some [a; b]) scopes w).1.2 = None →
       forgets (load (Some [a; b]) scopes w).2 w' →
       is_Some (cache w' !! cacheKey job (Some [a; b]) scopes) →
       load (Some [a +:+ " " +:+ b]) scopes w' = ((load (Some [a; b]) scopes w).1, w')).
Proof.
intros load.
assert (Hkey : cacheKey job (Some [a; b]) scopes = cacheKey job (Some [a +:+ " " +:+ b]) scopes)
  by reflexivity.
split; [reflexivity|]. split; [exact Hkey|].
intros w' Hok (Hsub & _ & _) [v Hv]. subst load.
pose proof (LoadData_stores w job (Some [a; b]) scopes) as Hstored.
cbv zeta in Hstored. specialize (Hstored Hok).
assert (v = CvData (LoadData metricDataRepos useArchive GetCluster loadFromArchive JobDataSize
                      statisticsSeriesOf nodeScopeOf job (Some [a; b]) scopes w).1.1) as ->.
{ pose proof (lookup_weaken _ _ _ _ Hv Hsub) as Hv'. congruence. }
rewrite Hkey in Hv.
rewrite (LoadData_hit w' job (Some [a +:+ " " +:+ b]) scopes _ Hv).
destruct (LoadData _ _ _ _ _ _ _ job (Some [a; b]) scopes w) as [[jd err] w''].
simpl in *. rewrite Hok. reflexivity.
Qed.

(** X6. On the archive path, on a computation with a [nil] metric list: with
    a scope list, every archived metric is returned, its scopes trimmed;
    with a [nil] scope list too, the archived data is returned as it is
    (post-processed, with no node scope requested). *)
Theorem LoadData_archive_all_metrics (w : World) (job : Job) (scopes : slice string)
    (jd : gmap string (gmap string JobMetric)) :
  cache w !! cacheKey job None scopes = None →
  readsLive useArchive job = false →
  loadFromArchive job = (jd, None) →
  ∃ res,
    (LoadData metricDataRepos useArchive GetCluster loadFromArchive JobDataSize
       statisticsSeriesOf nodeScopeOf job None scopes w).1
    = (prepareJobData statisticsSeriesOf nodeScopeOf job res scopes, None)
    ∧ (scopes = None → res = jd)
    ∧ (∀ m, res !! m = (λ perscope, trimScopes perscope scopes) <$> jd !! m).
Proof.
intros Hmiss Hlive Hload.
unfold LoadData, mbind, M_bind, cacheGet. rewrite Hmiss.
unfold loadDataFn. rewrite Hlive.
unfold mbind, M_bind, readFrom; simpl. rewrite Hload. simpl.
unfold finishLoad. rewrite ttl_nonzero. simpl.
destruct scopes as [l|]; simpl.
- eexists. split; [reflexivity|]. split; [discriminate|].
  intros m. rewrite trimArchived_spec.
  destruct (jd !! m) as [ps|] eqn:Hm.
  + rewrite decide_True; [reflexivity|].
    apply list_elem_of_fmap. exists (m, ps). split; [reflexivity|].
    apply elem_of_map_to_list. exact Hm.
  + destruct (decide _); reflexivity.
- exists jd. split; [reflexivity|]. split; [reflexivity|].
  intros m. destruct (jd !! m) as [ps|]; simpl; [|reflexivity].
  f_equal. unfold trimScopes. simpl.
  destruct (decide (1 < size ps)%nat); [|reflexivity].
  rewrite map_size_empty. destruct (decide (0 < 0)%nat); [lia|reflexivity].
Qed.

End ServiceMore.

(** * Properties of the post-processing *)

Section PostProcessing.

Import MetricData.

Variable statisticsSeriesOf : list Series → StatsSeries.
Variable nodeScopeOf : gmap string JobMetric → option JobMetric.

Lemma nodeScopeRequested_spec (scopes : list string) :
  foldl (λ acc scope, if decide (scope = MetricScopeNode) then true else acc) false scopes = true
  ↔ MetricScopeNode ∈ scopes.
Proof.
assert (H : ∀ b, foldl (λ acc scope, if decide (scope = MetricScopeNode) then true else acc)
                   b scopes = true ↔ b = true ∨ MetricScopeNode ∈ scopes).
{ induction scopes as [|x l IH]; intros b; simpl.
  - split; [tauto|]. intros [H|H]; [exact H|inversion H].
  - rewrite IH. rewrite elem_of_cons. case_decide; subst; intuition congruence. }
rewrite H. split; [intros [H'|H']; [discriminate|exact H']|tauto].
Qed.

Lemma AddNodeScope_shape (metric : string) (jd : gmap string (gmap string JobMetric))
    (m s : string) :
  (is_Some (AddNodeScope nodeScopeOf metric jd !! m) ↔ is_Some (jd !! m))
  ∧ (is_Some (recordAt (AddNodeScope nodeScopeOf metric jd) m s) →
     is_Some (recordAt jd m s) ∨ (m = metric ∧ s = MetricScopeNode)).
Proof.
unfold AddNodeScope.
destruct (jd !! metric) as [ps|] eqn:Hm; [|tauto].
destruct (ps !! MetricScopeNode) as [x|] eqn:Hn; [tauto|].
destruct (nodeScopeOf ps) as [nodeJm|]; [|tauto].
destruct (decide (metric = m)) as [->|Hne].
- unfold recordAt. rewrite lookup_insert_eq, Hm. simpl. split.
  + split; intros _; eauto.
  + destruct (decide (MetricScopeNode = s)) as [<-|Hs]; [tauto|].
    rewrite lookup_insert_ne by exact Hs. tauto.
- unfold recordAt. rewrite lookup_insert_ne by exact Hne. tauto.
Qed.

(** X7. [prepareJobData] neither adds nor removes a metric, and removes no
    record; the one record it may add is the node scope of [flops_any] or of
    [mem_bw], and only when the node scope is among the scopes. *)
Theorem prepareJobData_shape (job : Job) (jd : gmap string (gmap string JobMetric))
    (scopes : slice string) (m s : string) :
  let out := prepareJobData statisticsSeriesOf nodeScopeOf job jd scopes in
  (is_Some (out !! m) ↔ is_Some (jd !! m))
  ∧ (is_Some (recordAt jd m s) → is_Some (recordAt out m s))
  ∧ (is_Some (recordAt out m s) →
     is_Some (recordAt jd m s)
     ∨ (s = MetricScopeNode ∧ (m = "flops_any" ∨ m = "mem_bw")
        ∧ MetricScopeNode ∈ elems scopes)).
Proof.
intros out. subst out.
split; [|split].
- unfold prepareJobData.
  match goal with |- context [if ?b then _ else _] => destruct b end.
  + rewrite (proj1 (AddNodeScope_shape _ _ m s)), (proj1 (AddNodeScope_shape _ _ m s)).
    rewrite lookup_fmap, fmap_is_Some. reflexivity.
  + rewrite lookup_fmap, fmap_is_Some. reflexivity.
- intros [jm Hjm]. rewrite (prepareJobData_recordAt _ _ _ _ _ _ _ _ Hjm). eauto.
- unfold prepareJobData.
  match goal with |- context [if ?b then _ else _] => destruct b eqn:Hnode end.
  + apply nodeScopeRequested_spec in Hnode.
    intros H. apply AddNodeScope_shape in H as [H|[-> ->]]; [|tauto].
    apply AddNodeScope_shape in H as [H|[-> ->]]; [|tauto].
    rewrite recordAt_fmap, fmap_is_Some in H. tauto.
  + rewrite recordAt_fmap, fmap_is_Some. tauto.
Qed.

(** X8. When the node scope is not among the scopes, [prepareJobData] done a
    second time changes nothing: a cached value can be post-processed again. *)
Theorem prepareJobData_again (job : Job) (jd : gmap string (gmap string JobMetric))
    (scopes : slice string) :
  MetricScopeNode ∉ elems scopes →
  prepareJobData statisticsSeriesOf nodeScopeOf job
    (prepareJobData statisticsSeriesOf nodeScopeOf job jd scopes) scopes
  = prepareJobData statisticsSeriesOf nodeScopeOf job jd scopes.
Proof.
intros Hnode. unfold prepareJobData.
destruct (foldl _ false (elems scopes)) eqn:Hreq;
  [apply nodeScopeRequested_spec in Hreq; contradiction|].
rewrite <- map_fmap_compose. apply map_fmap_ext. intros m ps _. simpl.
rewrite <- map_fmap_compose. apply map_fmap_ext. intros s jm _. simpl.
destruct (skipsStatistics jm) eqn:Hskip; [rewrite Hskip; reflexivity|].
reflexivity.
Qed.

End PostProcessing.

Section ScopeTrimming.
Import MetricData.

Lemma trimSubset_lookup (perscope : gmap string JobMetric) (scopes : list string) (s : string) :
  foldl (λ subset scope,
           match perscope !! scope with
           | Some jm => <[scope := jm]> subset
           | None => subset
           end) (∅ : gmap string JobMetric) scopes !! s
  = if decide (s ∈ scopes) then perscope !! s else None.
Proof.
rewrite subset_lookup, lookup_empty.
destruct (decide (s ∈ scopes)); [|reflexivity].
destruct (perscope !! s); reflexivity.
Qed.

(** X5. The trimming of the scopes of a metric keeps only archived records,
    never leaves a metric that had scopes without any, and trimming again
    changes nothing. *)
Theorem trimScopes_keeps_some (perscope : gmap string JobMetric) (scopes : slice string) :
  trimScopes perscope scopes ⊆ perscope
  ∧ (perscope ≠ ∅ → trimScopes perscope scopes ≠ ∅)
  ∧ trimScopes (trimScopes perscope scopes) scopes = trimScopes perscope scopes.
Proof.
unfold trimScopes at 1 2 4 5.
destruct (decide (1 < size perscope)%nat) as [H1|H1];
  [|split; [reflexivity|split; [tauto|]];
    unfold trimScopes; rewrite decide_False by exact H1; reflexivity].
set (subset := foldl _ ∅ (elems scopes)).
assert (Hlook : ∀ s, subset !! s = if decide (s ∈ elems scopes) then perscope !! s else None)
  by (intros s; apply trimSubset_lookup).
destruct (decide (0 < size subset)%nat) as [H0|H0];
  [|split; [reflexivity|split; [tauto|]];
    unfold trimScopes; rewrite decide_True by exact H1;
    fold subset; rewrite decide_False by exact H0; reflexivity].
split; [|split].
- apply map_subseteq_spec. intros s jm. rewrite Hlook.
  destruct (decide (s ∈ elems scopes)); [tauto|discriminate].
- intros _ Hempty. rewrite Hempty in H0. rewrite map_size_empty in H0. lia.
- unfold trimScopes.
  destruct (decide (1 < size subset)%nat); [|reflexivity].
  match goal with |- context [decide (0 < size ?m)%nat] =>
    destruct (decide (0 < size m)%nat); [|reflexivity] end.
  apply map_eq. intros s.
  rewrite trimSubset_lookup, Hlook.
  destruct (decide (s ∈ elems scopes)); reflexivity.
Qed.

End ScopeTrimming.

(** * Properties of the other entry points of the metric data service *)

Section QueriesProperties.

Import MetricData.

Variable adapters : gmap string Adapter.
Variable useArchive : bool.
Variable GetCluster : string → ClusterConfig.
Variable loadAveragesFromArchive :
  Job → slice string → list (list float) → list (list float) * option error.
Variable rangeNodes : nat → gmap string MetricStatistics → list (string * MetricStatistics).

Lemma averagesFrom_spec (stats : gmap string (gmap string MetricStatistics))
    (metrics : list string) (i : nat) (data : list (list float)) :
  match averagesFrom rangeNodes stats i metrics data with
  | None => metrics ≠ [] ∧ (length data < i + length metrics)%nat
  | Some data' =>
      (metrics = [] ∨ i + length metrics ≤ length data)%nat
      ∧ length data' = length data
      ∧ ∀ j row, data !! j = Some row →
          data' !! j = Some (if decide (i ≤ j)%nat
                             then match metrics !! (j - i)%nat with
                                  | Some m => row ++ [averageOf rangeNodes stats j m]
                                  | None => row
                                  end
                             else row)
  end.
Proof.
revert i data. induction metrics as [|m ms IH]; intros i data; simpl.
- split; [left; reflexivity|]. split; [reflexivity|].
  intros j row Hj. destruct (decide (i ≤ j)%nat); [|exact Hj].
  destruct (j - i)%nat; exact Hj.
- unfold appendAt. destruct (data !! i) as [rowi|] eqn:Hi; simpl.
  + specialize (IH (S i) (<[i := rowi ++ [averageOf rangeNodes stats i m]]> data)).
    destruct (averagesFrom rangeNodes stats (S i) ms _) as [data'|].
    * destruct IH as [Hlen [Hsame Hrows]]. rewrite length_insert in Hlen, Hsame.
      apply lookup_lt_Some in Hi as Hlt.
      split; [right; destruct Hlen as [->|Hlen]; simpl; lia|].
      split; [exact Hsame|].
      intros j row Hj.
      destruct (decide (i = j)) as [<-|Hne].
      -- rewrite (Hrows i (rowi ++ [averageOf rangeNodes stats i m])) by
           (rewrite list_lookup_insert_eq by exact Hlt; reflexivity).
         rewrite decide_False by lia. rewrite decide_True by lia.
         replace (i - i)%nat with 0%nat by lia. simpl. congruence.
      -- rewrite (Hrows j row) by (rewrite list_lookup_insert_ne by exact Hne; exact Hj).
         destruct (decide (S i ≤ j)%nat), (decide (i ≤ j)%nat); try lia; [|reflexivity].
         replace (j - i)%nat with (S (j - S i)) by lia. reflexivity.
    * rewrite length_insert in IH. split; [discriminate|]. simpl. lia.
  + apply lookup_ge_None in Hi. split; [discriminate|]. simpl. lia.
Qed.

(** X9. [LoadAverages] on the live path, the adapter answering without an
    error, the loop over the nodes of a metric meeting each of them once, in
    whatever order: when [data] has a row for every metric, row [i] gets one
    more value, which is [NaN] when the statistics lack metric [i] and else
    the averages of its nodes added up, from zero, in the order the loop
    meets them; the rows beyond the metrics are left as they are. When
    [data] has fewer rows than there are metrics, the index goes out of
    range. *)
Theorem LoadAverages_rows (job : Job) (metrics : slice string) (data : list (list float))
    (repo : Adapter) (stats : gmap string (gmap string MetricStatistics)) :
  (∀ i nodes, rangeNodes i nodes ≡ₚ map_to_list nodes) →
  State job = JobStateRunning ∨ useArchive = false →
  adapters !! Cluster job = Some repo →
  adapterLoadStats repo job metrics = (stats, None) →
  match LoadAverages adapters useArchive loadAveragesFromArchive rangeNodes job metrics data with
  | None => (length data < length (elems metrics))%nat
  | Some (data', err) =>
      err = None
      ∧ (length (elems metrics) ≤ length data)%nat
      ∧ length data' = length data
      ∧ ∀ i row, data !! i = Some row →
          match elems metrics !! i with
          | None => data' !! i = Some row
          | Some m =>
              match stats !! m with
              | None => data' !! i = Some (row ++ [NaN])
              | Some nodes =>
                  ∃ order, order ≡ₚ map_to_list nodes
                           ∧ data' !! i
                             = Some (row ++ [foldl (λ sum node, (sum + Avg node.2)%float)
                                               0%float order])
              end
          end
  end.
Proof.
intros Horder Hlive Hrepo Hstats. unfold LoadAverages.
assert (negb (bool_decide (State job = JobStateRunning)) && useArchive = false) as ->.
{ destruct Hlive as [Hrun| ->]; [|apply andb_false_r].
  rewrite bool_decide_eq_true_2 by exact Hrun. reflexivity. }
rewrite Hrepo, Hstats.
pose proof (averagesFrom_spec stats (elems metrics) 0 data) as Hspec.
destruct (averagesFrom rangeNodes stats 0 (elems metrics) data) as [data'|]; simpl.
- destruct Hspec as [Hlen [Hsame Hrows]].
  split; [reflexivity|]. split; [destruct Hlen as [->|Hlen]; simpl; lia|].
  split; [exact Hsame|].
  intros i row Hi. rewrite (Hrows i row Hi). rewrite decide_True by lia.
  replace (i - 0)%nat with i by lia.
  destruct (elems metrics !! i) as [m|]; [|reflexivity].
  unfold averageOf. destruct (stats !! m) as [nodes|]; [|reflexivity].
  exists (rangeNodes i nodes). split; [apply Horder|reflexivity].
- simpl in Hspec. lia.
Qed.

(** X11. [LoadNodeData] answers with data or with an error, never with both
    and never with neither, and it does not go through the cache. *)
Theorem LoadNodeData_data_or_error (w : World) (cluster : string) (metrics nodes : slice string)
    (scopes : slice string) (from to : Z) :
  let out := LoadNodeData adapters GetCluster cluster metrics nodes scopes from to w in
  (is_Some out.1.1 ↔ out.1.2 = None)
  ∧ cache out.2 = cache w.
Proof.
unfold LoadNodeData.
destruct (adapters !! cluster) as [repo|]; simpl;
  [|split; [split; [intros [? ?]|]; discriminate|reflexivity]].
destruct (adapterLoadNodeData repo cluster _ nodes scopes from to) as [data err].
destruct err as [e|]; [destruct (decide (size (default ∅ data) ≠ 0%nat))|];
  destruct data as [d|]; simpl;
  (split; [split; [intros [? ?]|]; first [discriminate|reflexivity|eauto]
          |reflexivity]).
Qed.

(** X12. An error the adapter returns beside data for at least one host is
    written to the log and not returned: the caller of [LoadNodeData] gets
    the partial data with no error. With an error beside no host at all, a
    [nil] map or an empty one, the error is returned and nothing is logged.
    The metrics the adapter is asked for are those given, or, the list being
    [nil], those configured for the cluster. *)
Theorem LoadNodeData_partial_error (w : World) (cluster : string) (metrics nodes : slice string)
    (scopes : slice string) (from to : Z) (repo : Adapter)
    (data : option (gmap string (gmap string (list JobMetric)))) (e : error) :
  adapters !! cluster = Some repo →
  adapterLoadNodeData repo cluster
    (if metrics is None
     then foldl (λ ms mc, append ms (Name mc)) metrics (MetricConfigs (GetCluster cluster))
     else metrics) nodes scopes from to
  = (data, Some e) →
  LoadNodeData adapters GetCluster cluster metrics nodes scopes from to w
  = if decide (default ∅ data = ∅) then ((None, Some e), w)
    else ((data, None), mkWorld (cache w) (logs w ++ ["partial error: " +:+ e]) (reads w)).
Proof.
intros Hrepo Hload. unfold LoadNodeData. rewrite Hrepo, Hload.
destruct (decide (default ∅ data = ∅)) as [Hempty|Hne].
- rewrite Hempty, map_size_empty. rewrite decide_False by tauto. reflexivity.
- rewrite decide_True by (rewrite map_size_non_empty_iff; exact Hne).
  destruct data as [d|]; [reflexivity|]. simpl in Hne. contradiction.
Qed.

End QueriesProperties.

Section InitProperties.

Import MetricData.

Variable kindOf : string → error + string.
Variable newCCMetricStore : string → error + Adapter.
Variable newInfluxDBv2 : string → error + Adapter.
Variable newTest : string → error + Adapter.

Lemma initCluster_outcome (repos : gmap string Adapter) (c : ClusterEntry) :
  (∃ err, initCluster kindOf newCCMetricStore newInfluxDBv2 newTest repos c = (repos, Some err))
  ∨ (EntryRepository c = None
     ∧ initCluster kindOf newCCMetricStore newInfluxDBv2 newTest repos c = (repos, None))
  ∨ (∃ repo, is_Some (EntryRepository c)
     ∧ initCluster kindOf newCCMetricStore newInfluxDBv2 newTest repos c
       = (<[EntryName c := repo]> repos, None)).
Proof.
unfold initCluster.
destruct (EntryRepository c) as [raw|]; [|right; left; split; reflexivity].
destruct (kindOf raw) as [err|kind]; [left; eauto|].
repeat case_decide;
  first [ match goal with |- context [match ?x with inl _ => _ | inr _ => _ end] =>
            destruct x as [err|repo] end; [left; eauto|right; right; eauto]
        | left; eauto ].
Qed.

(** X13. [Init] sets [useArchive] and [JobArchivePath] whether it fails or
    not. When it returns no error, the clusters registered are those
    registered before and those with a repository configuration: the
    registry is added to, never emptied. *)
Theorem Init_registers (g : Globals) (clusters : list ClusterEntry) (jobArchivePath : string)
    (disableArchive : bool) :
  let out := Init kindOf newCCMetricStore newInfluxDBv2 newTest g clusters
               jobArchivePath disableArchive in
  gUseArchive out.1 = negb disableArchive
  ∧ gJobArchivePath out.1 = jobArchivePath
  ∧ (out.2 = None → ∀ name,
       is_Some (gRepos out.1 !! name)
       ↔ is_Some (gRepos g !! name)
         ∨ ∃ c, c ∈ clusters ∧ EntryName c = name ∧ is_Some (EntryRepository c)).
Proof.
unfold Init.
destruct (initClusters _ _ _ _ (gRepos g) clusters) as [repos err] eqn:Hinit. simpl.
split; [reflexivity|]. split; [reflexivity|].
intros ->. revert Hinit. generalize (gRepos g). clear g.
induction clusters as [|c cs IH]; intros repos0 Hinit name; simpl in Hinit.
- injection Hinit as <-. split; [tauto|]. intros [H|[c [Hc _]]]; [exact H|inversion Hc].
- destruct (initCluster_outcome repos0 c) as [[err Hc]|[[Hnone Hc]|[repo [Hsome Hc]]]];
    rewrite Hc in Hinit; [discriminate| |].
  + rewrite (IH _ Hinit name). split.
    * intros [H|[c' [Hin H]]]; [tauto|]. right. exists c'. rewrite elem_of_cons. tauto.
    * intros [H|[c' [Hin [Hname Hrepo]]]]; [tauto|].
      apply elem_of_cons in Hin as [->|Hin]; [rewrite Hnone in Hrepo; destruct Hrepo; discriminate|].
      right. eauto.
  + rewrite (IH _ Hinit name). split.
    * intros [H|[c' [Hin H]]].
      -- destruct (decide (EntryName c = name)) as [Heq|Hne].
         ++ right. exists c. rewrite elem_of_cons. tauto.
         ++ rewrite lookup_insert_ne in H by exact Hne. tauto.
      -- right. exists c'. rewrite elem_of_cons. tauto.
    * intros [H|[c' [Hin [Hname Hrepo]]]].
      -- left. destruct (decide (EntryName c = name)) as [Heq|Hne].
         ++ rewrite <- Heq, lookup_insert_eq. eauto.
         ++ rewrite lookup_insert_ne by exact Hne. exact H.
      -- apply elem_of_cons in Hin as [->|Hin].
         ++ left. rewrite <- Hname, lookup_insert_eq. eauto.
         ++ right. eauto.
Qed.

(** X14. When [Init] returns an error, it has stopped at the first cluster
    whose repository does not initialise: the clusters before it stay
    registered, as [Init] on them alone leaves them, and those after it are
    not looked at. *)
Theorem Init_stops_at_first_error (g : Globals) (clusters : list ClusterEntry)
    (jobArchivePath : string) (disableArchive : bool) (g' : Globals) (err : error) :
  Init kindOf newCCMetricStore newInfluxDBv2 newTest g clusters jobArchivePath disableArchive
  = (g', Some err) →
  ∃ before c after,
    clusters = before ++ c :: after
    ∧ Init kindOf newCCMetricStore newInfluxDBv2 newTest g before jobArchivePath disableArchive
      = (g', None)
    ∧ initCluster kindOf newCCMetricStore newInfluxDBv2 newTest (gRepos g') c
      = (gRepos g', Some err).
Proof.
unfold Init.
destruct (initClusters _ _ _ _ (gRepos g) clusters) as [repos e] eqn:Hinit.
intros H. injection H as <- ->. simpl.
revert Hinit. generalize (gRepos g). clear g.
induction clusters as [|c cs IH]; intros repos0 Hinit; simpl in Hinit; [discriminate|].
destruct (initCluster_outcome repos0 c) as [[e Hc]|[[Hnone Hc]|[repo [Hsome Hc]]]];
  rewrite Hc in Hinit.
- injection Hinit as <- <-. exists [], c, cs. simpl. split; [reflexivity|].
  split; [reflexivity|exact Hc].
- destruct (IH _ Hinit) as (before & c' & after & -> & Hbefore & Hc').
  exists (c :: before), c', after. split; [reflexivity|]. split; [|exact Hc'].
  simpl. rewrite Hc. exact Hbefore.
- destruct (IH _ Hinit) as (before & c' & after & -> & Hbefore & Hc').
  exists (c :: before), c', after. split; [reflexivity|]. split; [|exact Hc'].
  simpl. rewrite Hc. exact Hbefore.
Qed.

End InitProperties.

(** * Properties of the queries of the job repository *)

Section LookupProperties.

Import Repository.

Variable J : Type.
Variable ScanJob : Z → JobRow → string + J.
Variable resultRows : gmap Z JobRow → list (Z * JobRow).

(** The engine yields every row of the table once, in an order of its own. *)
Hypothesis resultRows_table : ∀ t, resultRows t ≡ₚ map_to_list t.

Lemma resultRows_elem (t : gmap Z JobRow) (id : Z) (r : JobRow) :
  In (id, r) (resultRows t) ↔ t !! id = Some r.
Proof.
rewrite <- list_elem_of_In, (resultRows_table t). apply elem_of_map_to_list.
Qed.

Lemma resultRows_NoDup (t : gmap Z JobRow) : NoDup (resultRows t).
Proof. rewrite (resultRows_table t). apply NoDup_map_to_list. Qed.

Lemma filter_by_id (t : gmap Z JobRow) (id : Z) :
  List.filter (λ p : Z * JobRow, bool_decide (p.1 = id)) (resultRows t)
  = match t !! id with Some r => [(id, r)] | None => [] end.
Proof.
assert (Hperm : List.filter (λ p : Z * JobRow, bool_decide (p.1 = id)) (resultRows t)
                ≡ₚ match t !! id with Some r => [(id, r)] | None => [] end).
{ apply NoDup_Permutation.
  - apply NoDup_ListNoDup, List.NoDup_filter, NoDup_ListNoDup, resultRows_NoDup.
  - destruct (t !! id); [apply NoDup_singleton|apply NoDup_nil_2].
  - intros [id' r]. rewrite list_elem_of_In, filter_In, resultRows_elem. simpl.
    rewrite bool_decide_eq_true. split.
    + intros [Hrow ->]. rewrite Hrow. apply list_elem_of_singleton. reflexivity.
    + destruct (t !! id) as [r0|] eqn:Hrow; [|intros H; inversion H].
      intros H. apply list_elem_of_singleton in H. injection H as -> ->. tauto. }
destruct (t !! id).
- apply Permutation_singleton_r. exact Hperm.
- apply Permutation_nil_r. exact Hperm.
Qed.

(** X15. Update and lookup: after a [Stop] on the id of a row, with a state
    and a monitoring status the table admits, [FindById] on the id scans the
    row with the new state, duration and monitoring status; on every other
    id it answers as it did before. *)
Theorem Stop_then_FindById (db : Tables) (jobId duration monitoringStatus : Z)
    (state : string) (r : JobRow) :
  jobTable db !! jobId = Some r →
  jobChecks r = true →
  state ∈ jobStates →
  monitoringStatus ∈ [0; 1; 2; 3] →
  FindById J ScanJob resultRows (Stop db jobId duration state monitoringStatus).1 jobId
  = scanFirst J ScanJob
      [(jobId, set_monitoring_status monitoringStatus
                 (set_duration duration (set_job_state state r)))]
  ∧ ∀ id', id' ≠ jobId →
      FindById J ScanJob resultRows (Stop db jobId duration state monitoringStatus).1 id'
      = FindById J ScanJob resultRows db id'.
Proof.
intros Hrow Hchk Hstate Hms. unfold FindById.
assert (jobTable (Stop db jobId duration state monitoringStatus).1
        = <[jobId := set_monitoring_status monitoringStatus
                       (set_duration duration (set_job_state state r))]> (jobTable db)) as ->.
{ unfold Stop, execUpdate. simpl. rewrite Hrow.
  assert (jobChecks (set_monitoring_status monitoringStatus
                       (set_duration duration (set_job_state state r))) = true) as ->;
    [|reflexivity].
  unfold jobChecks in *. simpl.
  apply andb_prop in Hchk as [Hchk _]. apply andb_prop in Hchk as [Hchk Hex].
  apply andb_prop in Hchk as [_ Hsmt]. rewrite Hsmt, Hex.
  rewrite !bool_decide_eq_true_2 by assumption. reflexivity. }
split.
- rewrite filter_by_id, lookup_insert_eq. reflexivity.
- intros id' Hne. rewrite !filter_by_id.
  rewrite lookup_insert_ne by (intros Heq; apply Hne; symmetry; exact Heq). reflexivity.
Qed.

Lemma findMatches_spec (jobId : option Z) (clusterName : option string) (startTime : option Z)
    (p : Z * JobRow) :
  findMatches jobId clusterName startTime p = true
  ↔ jobId = Some (job_id p.2)
    ∧ (∀ c, clusterName = Some c → cluster p.2 = c)
    ∧ (∀ t, startTime = Some t → start_time p.2 = t).
Proof.
unfold findMatches. rewrite !andb_true_iff.
assert (Hopt : ∀ {A : Type} `{EqDecision A} (o : option A) (x : A),
          (if o is Some y then bool_decide (x = y) else true) = true
          ↔ ∀ y, o = Some y → x = y).
{ intros A ? o x. destruct o as [y|].
  - rewrite bool_decide_eq_true. split; [intros -> y' [= <-]; reflexivity|].
    intros H. apply H. reflexivity.
  - split; [intros _ y; discriminate|reflexivity]. }
rewrite !Hopt.
assert ((if jobId is Some j then bool_decide (job_id p.2 = j) else false) = true
        ↔ jobId = Some (job_id p.2)) as ->; [|tauto].
destruct jobId as [j|]; [|split; discriminate].
rewrite bool_decide_eq_true. split; [intros ->; reflexivity|intros [= ->]; reflexivity].
Qed.

(** X16. [Find] answers from a row that has the job id asked for, and the
    cluster and the start time when they are given: it returns the job
    scanned from such a row, or the error of the scan of such a row, and
    [sql.ErrNoRows] exactly when the table has no such row. *)
Theorem Find_matching_row (db : Tables) (jobId : option Z) (clusterName : option string)
    (startTime : option Z) :
  let matches (r : JobRow) :=
    jobId = Some (job_id r)
    ∧ (∀ c, clusterName = Some c → cluster r = c)
    ∧ (∀ t, startTime = Some t → start_time r = t) in
  match Find J ScanJob resultRows db jobId clusterName startTime with
  | inr job => ∃ id r, jobTable db !! id = Some r ∧ matches r ∧ ScanJob id r = inr job
  | inl ErrNoRows => ∀ id r, jobTable db !! id = Some r → ¬ matches r
  | inl (ErrScan msg) => ∃ id r, jobTable db !! id = Some r ∧ matches r ∧ ScanJob id r = inl msg
  | inl ErrNotFound => False
  end.
Proof.
intros matches. unfold Find.
destruct (List.filter _ (resultRows (jobTable db))) as [|[id r] rest] eqn:Hf; simpl.
- intros id r Hrow Hm.
  assert (In (id, r) []) as [].
  rewrite <- Hf. apply filter_In. split; [apply resultRows_elem; exact Hrow|].
  apply findMatches_spec. exact Hm.
- assert (In (id, r) (List.filter (findMatches jobId clusterName startTime)
                        (resultRows (jobTable db)))) as Hin by (rewrite Hf; left; reflexivity).
  apply filter_In in Hin as [Hrow Hm]. apply resultRows_elem in Hrow.
  apply findMatches_spec in Hm.
  destruct (ScanJob id r) as [msg|job] eqn:Hscan; exists id, r;
    (split; [exact Hrow|split; [exact Hm|exact Hscan]]).
Qed.

(** X18. [FindJobOrUser] answers with a job, with a user name or with
    [ErrNotFound], never with two of them. A job it answers with has the
    search term, read as a number, as its job id, and belongs to the caller
    when the caller is no administrator. A user name it answers with is the
    search term, it is the user of a job, and the caller is an administrator
    or nobody: a caller who is no administrator never gets a user name. *)
Theorem FindJobOrUser_outcome (db : Tables) (caller : option AuthUser) (searchterm : string) :
  match FindJobOrUser resultRows db caller searchterm with
  | (job, username, None) =>
      (username = ""
       ∧ ∃ r, jobTable db !! job = Some r ∧ Atoi searchterm = Some (job_id r)
              ∧ ∀ u, caller = Some u → IsAdmin u = false → user r = Username u)
      ∨ (job = 0 ∧ username = searchterm
         ∧ (∃ id r, jobTable db !! id = Some r ∧ user r = searchterm)
         ∧ ∀ u, caller = Some u → IsAdmin u = true)
  | (job, username, Some err) => job = 0 ∧ username = "" ∧ err = ErrNotFound
  end.
Proof.
unfold FindJobOrUser.
set (found := match Atoi searchterm with Some id => _ | None => None end).
assert (Hfound : ∀ job r, found = Some (job, r) →
          jobTable db !! job = Some r ∧ Atoi searchterm = Some (job_id r)
          ∧ ∀ u, caller = Some u → IsAdmin u = false → user r = Username u).
{ subst found. intros job r. destruct (Atoi searchterm) as [id|]; [|discriminate].
  intros Hfind. apply find_some in Hfind as [Hin Hm]. apply resultRows_elem in Hin.
  apply andb_prop in Hm as [Hid Hu]. apply bool_decide_eq_true in Hid. simpl in *.
  split; [exact Hin|]. split; [congruence|].
  intros u -> Hadmin. rewrite Hadmin in Hu. simpl in Hu.
  apply bool_decide_eq_true in Hu. exact Hu. }
destruct found as [[job r]|].
- left. split; [reflexivity|]. exists r. apply Hfound. reflexivity.
- destruct (negb (if caller is Some u then negb (IsAdmin u) else false)) eqn:Hr;
    [|repeat split].
  destruct (List.find _ (resultRows (jobTable db))) as [[id r]|] eqn:Hfind; [|repeat split].
  apply find_some in Hfind as [Hin Hm]. apply resultRows_elem in Hin.
  apply bool_decide_eq_true in Hm. simpl in Hm.
  right. split; [reflexivity|]. split; [exact Hm|]. split; [eauto|].
  intros u ->. simpl in Hr. destruct (IsAdmin u); [reflexivity|discriminate].
Qed.

End LookupProperties.

(** * Properties of the statements of the job repository *)

Section StatementProperties.

Import Repository.

Variable foreignKeys : bool.

(** X17. On the table [JobsDBSchema] creates, [Start] always fails: its
    [INSERT] names no [subcluster], a column the schema declares [NOT NULL]
    and gives no default. Whatever the job and whatever the tables hold, it
    returns [-1] with the error of that constraint and inserts nothing. *)
Theorem Start_names_no_subcluster (db : Tables) (job : JobMeta) :
  "subcluster" ∈ jobRequired
  ∧ ("subcluster" ∉ startColumns)
  ∧ Start db job = (db, (-1, Some (ErrNotNull "job.subcluster"))).
Proof.
split; [unfold jobRequired; do 2 apply list_elem_of_further; apply list_elem_of_here|].
split; [|reflexivity].
unfold startColumns. intros Hin.
repeat (apply elem_of_cons in Hin as [Hin|Hin]; [discriminate Hin|]).
inversion Hin.
Qed.

Lemma countMatches_spec (caller : option AuthUser) (state : option string) (r : JobRow) :
  countMatches caller state r = true
  ↔ (∀ st, state = Some st → job_state r = st)
    ∧ (∀ u, caller = Some u → IsAdmin u = false → user r = Username u).
Proof.
unfold countMatches. rewrite andb_true_iff.
assert ((if state is Some st then bool_decide (job_state r = st) else true) = true
        ↔ ∀ st, state = Some st → job_state r = st) as ->.
{ destruct state as [st|].
  - rewrite bool_decide_eq_true. split; [intros -> st' [= <-]; reflexivity|].
    intros H. apply H. reflexivity.
  - split; [intros _ st; discriminate|reflexivity]. }
assert (match caller with
        | Some u => if IsAdmin u then true else bool_decide (user r = Username u)
        | None => true
        end = true
        ↔ ∀ u, caller = Some u → IsAdmin u = false → user r = Username u) as ->; [|tauto].
destruct caller as [u|]; [|split; [intros _ u; discriminate|reflexivity]].
destruct (IsAdmin u) eqn:Hadmin.
- split; [intros _ u' [= <-] H; congruence|reflexivity].
- rewrite bool_decide_eq_true. split; [intros H u' [= <-] _; exact H|].
  intros H. apply H; [reflexivity|exact Hadmin].
Qed.

Lemma CountJobs_fold (caller : option AuthUser) (state : option string) (c : string)
    (rows : list (Z * JobRow)) :
  foldr (λ (p : Z * JobRow) (counts : gmap string Z),
           if countMatches caller state p.2
           then <[cluster p.2 := 1 + default 0 (counts !! cluster p.2)]> counts
           else counts) ∅ rows !! c
  = let n := length (List.filter (λ p : Z * JobRow,
                                    countMatches caller state p.2 && bool_decide (cluster p.2 = c))
                       rows) in
    if decide (n = 0%nat) then None else Some (Z.of_nat n).
Proof.
induction rows as [|p rows IH]; [reflexivity|]. simpl.
destruct (countMatches caller state p.2); simpl; [|exact IH].
destruct (decide (cluster p.2 = c)) as [Hc|Hc].
- rewrite bool_decide_eq_true_2 by exact Hc. rewrite Hc, lookup_insert_eq, IH. simpl.
  destruct (decide (length _ = 0%nat)) as [->|Hn]; simpl; f_equal; lia.
- rewrite bool_decide_eq_false_2 by exact Hc. rewrite lookup_insert_ne by exact Hc. exact IH.
Qed.

(** X19. The count [CountJobs] gives for a cluster is the number of rows of
    that cluster that have the state, when one is given, and the user of the
    caller, when the caller is no administrator; it is never zero: a cluster
    with no such row has no entry. *)
Theorem CountJobs_counts (db : Tables) (caller : option AuthUser) (state : option string)
    (c : string) :
  let counted (r : JobRow) :=
    cluster r = c
    ∧ (∀ st, state = Some st → job_state r = st)
    ∧ (∀ u, caller = Some u → IsAdmin u = false → user r = Username u) in
  match CountJobs db caller state !! c with
  | Some n =>
      0 < n
      ∧ ∃ rows, NoDup rows
                ∧ (∀ id r, (id, r) ∈ rows ↔ jobTable db !! id = Some r ∧ counted r)
                ∧ n = Z.of_nat (length rows)
  | None => ∀ id r, jobTable db !! id = Some r → ¬ counted r
  end.
Proof.
intros counted. unfold CountJobs. rewrite CountJobs_fold. cbv zeta.
set (f := λ p : Z * JobRow, countMatches caller state p.2 && bool_decide (cluster p.2 = c)).
assert (Hf : ∀ id r, In (id, r) (List.filter f (map_to_list (jobTable db)))
                     ↔ jobTable db !! id = Some r ∧ counted r).
{ intros id r. rewrite filter_In, <- list_elem_of_In, elem_of_map_to_list.
  unfold f, counted. simpl. rewrite andb_true_iff, bool_decide_eq_true, countMatches_spec.
  tauto. }
destruct (decide (length (List.filter f (map_to_list (jobTable db))) = 0%nat)) as [Hn|Hn].
- intros id r Hrow Hc. apply length_zero_iff_nil in Hn.
  assert (In (id, r) []) as []. rewrite <- Hn. apply Hf. tauto.
- split; [lia|]. exists (List.filter f (map_to_list (jobTable db))).
  split; [apply NoDup_ListNoDup, List.NoDup_filter, NoDup_ListNoDup, NoDup_map_to_list|].
  split; [|reflexivity].
  intros id r. rewrite list_elem_of_In. apply Hf.
Qed.

Lemma execUpdate_frame (stmt : UpdateBuilder) (db : Tables) :
  let out := execUpdate stmt db in
  tagTable out.1 = tagTable db
  ∧ jobtagTable out.1 = jobtagTable db
  ∧ (∀ id, id ≠ whereId stmt → jobTable out.1 !! id = jobTable db !! id)
  ∧ (is_Some (jobTable out.1 !! whereId stmt) ↔ is_Some (jobTable db !! whereId stmt))
  ∧ (out.2 ≠ None → out.1 = db).
Proof.
unfold execUpdate.
destruct (jobTable db !! whereId stmt) as [r|] eqn:Hrow; simpl;
  [|rewrite Hrow; repeat split; tauto].
destruct (nullSet stmt); simpl; [rewrite Hrow; repeat split; eauto|].
destruct (jobChecks _); simpl.
- split; [reflexivity|]. split; [reflexivity|]. split.
  + intros id Hne. apply lookup_insert_ne. intros Heq. apply Hne. symmetry. exact Heq.
  + rewrite lookup_insert_eq. split; [split; eauto|contradiction].
- rewrite Hrow. repeat split; eauto.
Qed.

(** X20. [Stop], [UpdateMonitoringStatus] and [Archive] touch the row of the
    id they are given and nothing else: every other row and the tables [tag]
    and [jobtag] stay as they were, no row is added or deleted, and a
    statement that returns an error has changed nothing. *)
Theorem updates_touch_one_row (db : Tables) (jobId duration monitoringStatus : Z)
    (state : string) (metricStats : gmap string JobStatistics) :
  let untouched (out : Tables * option Err) :=
    tagTable out.1 = tagTable db
    ∧ jobtagTable out.1 = jobtagTable db
    ∧ (∀ id, id ≠ jobId → jobTable out.1 !! id = jobTable db !! id)
    ∧ (is_Some (jobTable out.1 !! jobId) ↔ is_Some (jobTable db !! jobId))
    ∧ (out.2 ≠ None → out.1 = db) in
  untouched (Stop db jobId duration state monitoringStatus)
  ∧ untouched (UpdateMonitoringStatus db jobId monitoringStatus)
  ∧ untouched (Archive db jobId monitoringStatus metricStats).
Proof.
intros untouched. subst untouched. cbv beta. split; [|split].
- apply (execUpdate_frame (SetClause (SetClause (SetClause (Update jobId) _) _) _) db).
- apply (execUpdate_frame (SetClause (Update jobId) _) db).
- unfold Archive, ArchiveOver.
  match goal with |- context [execUpdate ?stmt db] =>
    pose proof (execUpdate_frame stmt db) as H;
    assert (whereId stmt = jobId) as Hid by (rewrite archive_fold_where; reflexivity)
  end.
  cbv zeta in H. rewrite Hid in H. exact H.
Qed.

(** X21. [Archive] with statistics for none of the six metrics it knows,
    and so with no statistics at all, is [UpdateMonitoringStatus]. *)
Theorem Archive_unknown_metrics (db : Tables) (jobId monitoringStatus : Z)
    (metricStats : gmap string JobStatistics) :
  (∀ metric, metric ∈ ["flops_any"; "mem_used"; "mem_bw"; "load"; "net_bw"; "file_bw"] →
     metricStats !! metric = None) →
  Archive db jobId monitoringStatus metricStats
  = UpdateMonitoringStatus db jobId monitoringStatus.
Proof.
intros Hnone. unfold Archive, ArchiveOver, UpdateMonitoringStatus. f_equal.
assert (Hkeys : ∀ metric stats, (metric, stats) ∈ map_to_list metricStats →
          metric ∉ ["flops_any"; "mem_used"; "mem_bw"; "load"; "net_bw"; "file_bw"]).
{ intros metric stats Hin Hm. apply elem_of_map_to_list in Hin.
  rewrite (Hnone metric Hm) in Hin. discriminate. }
revert Hkeys. generalize (SetClause (Update jobId) (set_monitoring_status monitoringStatus)).
induction (map_to_list metricStats) as [|[metric stats] l IH]; intros stmt Hkeys;
  [reflexivity|].
simpl. assert (archiveClause stmt metric stats = stmt) as ->.
{ specialize (Hkeys metric stats ltac:(left)).
  unfold archiveClause.
  repeat (case_decide; [subst; exfalso; apply Hkeys; set_solver|]). reflexivity. }
apply IH. intros m s Hin. apply (Hkeys m s). right. exact Hin.
Qed.

(** X22. [CreateTag] and [TagId]: [CreateTag] succeeds exactly when [TagId]
    finds no tag of the type and name; then the row is inserted under an id
    no row had, and [TagId] finds it under that id afterwards. When [TagId]
    finds a tag, [CreateTag] fails on the [UNIQUE] constraint, returns the id
    0 and changes nothing. *)
Theorem CreateTag_then_TagId (db : Tables) (tagType tagName : string) :
  match CreateTag db tagType tagName with
  | (db', (id, None)) =>
      TagId db tagType tagName = (0, false)
      ∧ tagTable db !! id = None
      ∧ db' = mkTables (jobTable db) (<[id := mkTagRow tagType tagName]> (tagTable db))
                (jobtagTable db)
      ∧ TagId db' tagType tagName = (id, true)
  | (db', (id, Some err)) =>
      (TagId db tagType tagName).2 = true
      ∧ db' = db ∧ id = 0 ∧ err = ErrUnique "tag.tag_type, tag.tag_name"
  end.
Proof.
unfold CreateTag, insertTag, TagId.
destruct (selectTag db tagType tagName) as [|[id row] rest] eqn:Hsel.
- split; [reflexivity|]. split; [apply nextRowid_fresh|]. split; [reflexivity|].
  rewrite (selectTag_insert db tagType tagName _ Hsel (nextRowid_fresh _)). reflexivity.
- repeat split.
Qed.

(** X23. Tagging a job twice is an error: after an [AddTagOrCreate] that
    returned no error, the same call fails on the primary key of [jobtag];
    it changes nothing and still returns the id of the tag. *)
Theorem AddTagOrCreate_same_job_twice (db db' : Tables) (jobId tagId : Z)
    (tagType tagName : string) :
  AddTagOrCreate foreignKeys db jobId tagType tagName = (db', (tagId, None)) →
  AddTagOrCreate foreignKeys db' jobId tagType tagName
  = (db', (tagId, Some (ErrUnique "jobtag.job_id, jobtag.tag_id"))).
Proof.
intros Hfirst.
destruct (AddTagOrCreate_spec foreignKeys db jobId tagType tagName)
  as (id & rest & Hid & Hsel & _).
rewrite Hfirst in Hid, Hsel. simpl in Hid, Hsel. subst id.
assert (Hpair : (jobId, tagId) ∈ jobtagTable db').
{ revert Hfirst. unfold AddTagOrCreate, TagId, CreateTag, insertTag, AddTag, insertJobTag.
  destruct (selectTag db tagType tagName) as [|[id0 row0] rest0]; simpl.
  - destruct (bool_decide _); [discriminate|].
    destruct (_ && _); [discriminate|].
    intros [= <- <-]. simpl. set_solver.
  - destruct (bool_decide _); [discriminate|].
    destruct (_ && _); [discriminate|].
    intros [= <- <-]. simpl. set_solver. }
unfold AddTagOrCreate, TagId. rewrite Hsel. unfold AddTag, insertJobTag.
rewrite bool_decide_eq_true_2 by exact Hpair. reflexivity.
Qed.

Lemma selectTag_unique (db : Tables) (tagType tagName : string) :
  tagsUnique db →
  selectTag db tagType tagName
  = match selectTag db tagType tagName with [] => [] | p :: _ => [p] end.
Proof.
intros Huniq.
destruct (selectTag db tagType tagName) as [|[id row] [|[id' row'] rest]] eqn:Hsel;
  [reflexivity|reflexivity|exfalso].
assert (Hnd : NoDup (selectTag db tagType tagName)).
{ unfold selectTag. apply NoDup_filter, NoDup_map_to_list. }
assert (H1 : (id, row) ∈ selectTag db tagType tagName) by (rewrite Hsel; set_solver).
assert (H2 : (id', row') ∈ selectTag db tagType tagName) by (rewrite Hsel; set_solver).
apply selectTag_elem in H1 as [H1 ->]. apply selectTag_elem in H2 as [H2 ->].
pose proof (Huniq id id' _ H1 H2) as <-.
rewrite Hsel in Hnd. apply NoDup_cons in Hnd as [Hnd _]. apply Hnd. left.
Qed.

(** X24. No two rows of [tag] carry the same type and name: this holds of
    the empty table and is kept by [CreateTag] and by [AddTagOrCreate]. While
    it holds, [TagId] finds a tag exactly under the id of the one row that
    carries the type and name, whatever the order of the rows. *)
Theorem tags_stay_unique (db : Tables) (jobId : Z) (tagType tagName : string) :
  tagsUnique db →
  tagsUnique (CreateTag db tagType tagName).1
  ∧ tagsUnique (AddTagOrCreate foreignKeys db jobId tagType tagName).1
  ∧ ∀ id, TagId db tagType tagName = (id, true)
          ↔ tagTable db !! id = Some (mkTagRow tagType tagName).
Proof.
intros Huniq.
assert (Hins : selectTag db tagType tagName = [] →
          tagsUnique (mkTables (jobTable db)
                        (<[nextRowid (tagTable db) := mkTagRow tagType tagName]> (tagTable db))
                        (jobtagTable db))).
{ intros Hsel id1 id2 row. simpl.
  assert (Hnew : ∀ id, tagTable db !! id = Some (mkTagRow tagType tagName) → False).
  { intros id Hrow.
    assert ((id, mkTagRow tagType tagName) ∈ selectTag db tagType tagName) as Hin
      by (apply selectTag_elem; split; [exact Hrow|reflexivity]).
    rewrite Hsel in Hin. inversion Hin. }
  destruct (decide (nextRowid (tagTable db) = id1)) as [<-|H1],
           (decide (nextRowid (tagTable db) = id2)) as [<-|H2];
    rewrite ?lookup_insert_eq, ?(lookup_insert_ne _ _ _ _ H1), ?(lookup_insert_ne _ _ _ _ H2).
  - reflexivity.
  - intros [= <-] Hrow. destruct (Hnew _ Hrow).
  - intros Hrow [= <-]. destruct (Hnew _ Hrow).
  - apply Huniq. }
split; [|split].
- unfold CreateTag, insertTag.
  destruct (selectTag db tagType tagName) as [|p rest] eqn:Hsel; simpl;
    [apply Hins; reflexivity|exact Huniq].
- destruct (AddTagOrCreate_spec foreignKeys db jobId tagType tagName)
    as (id & rest & _ & _ & [[_ Htags]|(Hsel & _ & Hfresh & Htags)]).
  + intros id1 id2 row. rewrite Htags. apply Huniq.
  + assert (id = nextRowid (tagTable db)) as ->.
    { revert Htags. unfold AddTagOrCreate, TagId, CreateTag, insertTag. rewrite Hsel.
      pose proof (AddTag_tags foreignKeys
                    (mkTables (jobTable db)
                       (<[nextRowid (tagTable db) := mkTagRow tagType tagName]> (tagTable db))
                       (jobtagTable db)) jobId (nextRowid (tagTable db))) as Hadd.
      destruct (AddTag _ _ _ _) as [db'' err]. simpl in *. rewrite Hadd.
      intros Heq.
      destruct (decide (id = nextRowid (tagTable db))) as [->|Hne]; [reflexivity|].
      assert (<[id := mkTagRow tagType tagName]> (tagTable db) !! id
              = Some (mkTagRow tagType tagName)) as Hrow by apply lookup_insert_eq.
      rewrite <- Heq, lookup_insert_ne, Hfresh in Hrow by (intros E; apply Hne; symmetry; exact E).
      discriminate. }
    intros id1 id2 row. rewrite Htags. apply (Hins Hsel).
- intros id. unfold TagId. rewrite (selectTag_unique db tagType tagName Huniq).
  destruct (selectTag db tagType tagName) as [|[id0 row0] rest] eqn:Hsel.
  + split; [discriminate|]. intros Hrow.
    assert ((id, mkTagRow tagType tagName) ∈ selectTag db tagType tagName) as Hin
      by (apply selectTag_elem; split; [exact Hrow|reflexivity]).
    rewrite Hsel in Hin. inversion Hin.
  + assert ((id0, row0) ∈ selectTag db tagType tagName) as Hin by (rewrite Hsel; left).
    apply selectTag_elem in Hin as [Hrow0 ->]. split.
    * intros [= <-]. exact Hrow0.
    * intros Hrow. rewrite (Huniq id id0 _ Hrow Hrow0). reflexivity.
Qed.

End StatementProperties.

(** * Properties of the import on any archive *)

Section ImportInvariants.

Import Repository.

Variable foreignKeys : bool.
Variable SanityChecks : JobMeta → option string.
Variable loadJobStat : JobMeta → string → float.
Variable marshalResources : list Resource → string.
Variable marshalMetaData : gmap string string → string.

(** The state of the walk: the tables are as the import makes them, the
    transaction is open and no index has been created. *)
Variable P : ImportState → Prop.

Hypothesis P_spec : ∀ s,
  P s ↔ imported foreignKeys (store s) ∧ imported foreignKeys (workTables s)
        ∧ is_Some (txn s) ∧ OpIndexes ∉ ops s.

Lemma bind_keeps {A B : Type} (m : I A) (k : A → I B) :
  (∀ s, P s → P (m s).2) → (∀ a s, P s → P (k a s).2) → ∀ s, P s → P ((m ≫= k) s).2.
Proof.
intros Hm Hk s Hs. unfold mbind, I_bind. specialize (Hm s Hs).
destruct (m s) as [[err|a] s']; simpl in *; [exact Hm|]. apply Hk. exact Hm.
Qed.

Lemma forEach_keeps {A : Type} (body : A → I unit) (l : list A) :
  (∀ x s, P s → P (body x s).2) → ∀ s, P s → P (forEach l body s).2.
Proof.
intros Hbody. induction l as [|x l IH]; intros s Hs; simpl; [exact Hs|].
apply bind_keeps; [apply Hbody| |exact Hs]. intros _ s'. apply IH.
Qed.

Lemma logged_keeps (path : string) (step : I unit) :
  (∀ s, P s → P (step s).2) → ∀ s, P s → P (logged path step s).2.
Proof.
intros Hstep s Hs. unfold logged. specialize (Hstep s Hs).
destruct (step s) as [[err|u] s']; simpl in *; [|exact Hstep].
apply P_spec in Hstep. apply P_spec. exact Hstep.
Qed.

Lemma txExec_keeps {A : Type} (stmt : Tables → Err + Tables * A) (op : A → DbOp) :
  (∀ t t' a, imported foreignKeys t → stmt t = inr (t', a) → imported foreignKeys t') →
  (∀ a, op a ≠ OpIndexes) →
  ∀ s, P s → P (txExec stmt op s).2.
Proof.
intros Hstmt Hop s Hs. unfold txExec.
destruct (stmt (workTables s)) as [err|[t a]] eqn:Hrun; simpl; [exact Hs|].
apply P_spec in Hs as (Hstore & Hwork & Htxn & Hops). apply P_spec. simpl.
split; [exact Hstore|]. split; [exact (Hstmt _ _ _ Hwork Hrun)|]. split; [eauto|].
apply not_elem_of_app. split; [exact Hops|].
intros Hin. apply list_elem_of_singleton in Hin. symmetry in Hin. exact (Hop a Hin).
Qed.

Lemma insertJob_imported (t t' : Tables) (jobMeta : JobMeta) (id : Z) :
  imported foreignKeys t →
  insertJob t (importRow loadJobStat marshalResources marshalMetaData jobMeta) = inr (t', id) →
  imported foreignKeys t'.
Proof.
intros (Hrows & Htags & Hlinks). unfold insertJob.
destruct (nullColumn _); [discriminate|].
destruct (jobChecks _) eqn:Hchk; [|discriminate]. intros [= <- <-].
split; [|split].
- intros id r. simpl.
  destruct (decide (nextRowid (jobTable t) = id)) as [<-|Hne].
  + rewrite lookup_insert_eq. intros [= <-]. split; [reflexivity|exact Hchk].
  + rewrite lookup_insert_ne by exact Hne. apply Hrows.
- exact Htags.
- intros Hfk jobId tagId Hin. simpl in *.
  destruct (Hlinks Hfk jobId tagId Hin) as [Hjob Htag]. split; [|exact Htag].
  destruct (decide (nextRowid (jobTable t) = jobId)) as [<-|Hne].
  + rewrite lookup_insert_eq. eauto.
  + rewrite lookup_insert_ne by exact Hne. exact Hjob.
Qed.

Lemma insertTag_imported (t t' : Tables) (tagType tagName : string) (id : Z) :
  imported foreignKeys t → insertTag t tagType tagName = inr (t', id) →
  imported foreignKeys t'.
Proof.
intros (Hrows & Htags & Hlinks). unfold insertTag.
destruct (selectTag t tagType tagName) as [|p rest] eqn:Hsel; [|discriminate].
intros [= <- <-].
assert (Hnew : ∀ id, tagTable t !! id = Some (mkTagRow tagType tagName) → False).
{ intros id Hrow.
  assert ((id, mkTagRow tagType tagName) ∈ selectTag t tagType tagName) as Hin
    by (apply selectTag_elem; split; [exact Hrow|reflexivity]).
  rewrite Hsel in Hin. inversion Hin. }
split; [exact Hrows|]. split.
- intros id1 id2 row. simpl.
  destruct (decide (nextRowid (tagTable t) = id1)) as [<-|H1],
           (decide (nextRowid (tagTable t) = id2)) as [<-|H2];
    rewrite ?lookup_insert_eq, ?(lookup_insert_ne _ _ _ _ H1), ?(lookup_insert_ne _ _ _ _ H2).
  + reflexivity.
  + intros [= <-] Hrow. destruct (Hnew _ Hrow).
  + intros Hrow [= <-]. destruct (Hnew _ Hrow).
  + apply Htags.
- intros Hfk jobId tagId Hin. simpl in *.
  destruct (Hlinks Hfk jobId tagId Hin) as [Hjob Htag]. split; [exact Hjob|].
  destruct (decide (nextRowid (tagTable t) = tagId)) as [<-|Hne].
  + rewrite lookup_insert_eq. eauto.
  + rewrite lookup_insert_ne by exact Hne. exact Htag.
Qed.

Lemma insertJobTag_imported (t t' : Tables) (jobId tagId : Z) :
  imported foreignKeys t → insertJobTag foreignKeys t jobId tagId = inr t' →
  imported foreignKeys t'.
Proof.
intros (Hrows & Htags & Hlinks). unfold insertJobTag.
destruct (bool_decide ((jobId, tagId) ∈ jobtagTable t)); [discriminate|].
destruct foreignKeys eqn:Hfk; simpl.
- destruct (bool_decide (is_Some (jobTable t !! jobId))) eqn:Hjob; simpl; [|discriminate].
  destruct (bool_decide (is_Some (tagTable t !! tagId))) eqn:Htag; simpl; [|discriminate].
  apply bool_decide_eq_true in Hjob, Htag.
  intros [= <-]. split; [exact Hrows|]. split; [exact Htags|].
  intros _ j tg Hin. simpl in *. apply elem_of_union in Hin as [Hin|Hin].
  + apply elem_of_singleton in Hin. injection Hin as -> ->. split; assumption.
  + apply (Hlinks eq_refl j tg Hin).
- intros [= <-]. split; [exact Hrows|]. split; [exact Htags|discriminate].
Qed.

Lemma loadJob_keeps (path : string) (dir : FsNode) (s : ImportState) :
  P s → P (loadJob foreignKeys SanityChecks loadJobStat marshalResources marshalMetaData
             path dir s).2.
Proof.
unfold loadJob.
destruct (lookupEntry "meta.json" dir) as [[[jobMeta|]| |]|]; try (intros Hs; exact Hs).
destruct (SanityChecks _); [intros Hs; exact Hs|].
revert s. apply bind_keeps.
- apply txExec_keeps; [|discriminate].
  intros t t' id Ht Hrun. exact (insertJob_imported t t' jobMeta id Ht Hrun).
- intros id. apply forEach_keeps. intros tag. unfold loadTag. apply bind_keeps.
  + intros s Hs. unfold tagIdOf. destruct (tagIds s !! _); [exact Hs|].
    pose proof (txExec_keeps (λ t, insertTag t (TagType tag) (TagName tag)) OpInsertTag
                  (λ t t' a, insertTag_imported t t' _ _ a) ltac:(discriminate) s Hs) as H.
    destruct (txExec _ _ s) as [[err|tagId] s']; simpl in *; [exact H|].
    apply P_spec in H. apply P_spec. exact H.
  + intros tagId. apply txExec_keeps; [|discriminate].
    intros t t' [] Ht Hrun.
    destruct (insertJobTag foreignKeys t id tagId) as [err|t''] eqn:Hins; [discriminate|].
    injection Hrun as <-. exact (insertJobTag_imported t t'' id tagId Ht Hins).
Qed.

Lemma handleDirectory_keeps (path : string) (dir : FsNode) (s : ImportState) :
  P s → P (handleDirectory foreignKeys SanityChecks loadJobStat marshalResources marshalMetaData
             path dir s).2.
Proof.
revert s. unfold handleDirectory. apply bind_keeps.
- intros s Hs. unfold newBatch. case_decide; [|exact Hs].
  apply P_spec in Hs as (Hstore & Hwork & Htxn & Hops). apply P_spec. simpl.
  split; [exact Hwork|]. split; [exact Hwork|]. split; [eauto|].
  rewrite <- app_assoc. apply not_elem_of_app. split; [exact Hops|].
  intros Hin. apply elem_of_cons in Hin as [Hin|Hin]; [discriminate|].
  apply list_elem_of_singleton in Hin. discriminate.
- intros _. apply bind_keeps; [apply loadJob_keeps|].
  intros _ s Hs. apply P_spec in Hs. apply P_spec. exact Hs.
Qed.

Lemma readDir_same (path : string) (n : FsNode) (s : ImportState) :
  (readDir path n s).2 = s.
Proof. destruct n as [|[es|]|]; reflexivity. Qed.

Lemma walkClusters_keeps (archive : string) (clustersDir : list (string * FsNode))
    (s : ImportState) :
  P s → P (walkClusters foreignKeys SanityChecks loadJobStat marshalResources marshalMetaData
             archive clustersDir s).2.
Proof.
assert (Hread : ∀ path n s, P s → P (readDir path n s).2)
  by (intros path n s' Hs; rewrite readDir_same; exact Hs).
revert s. unfold walkClusters. apply forEach_keeps. intros [name clusterDir].
apply bind_keeps; [apply Hread|]. intros lvl1Dirs.
unfold walkLvl1Dirs. apply forEach_keeps. intros [name1 lvl1Dir].
destruct (negb (IsDir lvl1Dir)); [intros s Hs; exact Hs|].
apply bind_keeps; [apply Hread|]. intros lvl2Dirs.
unfold walkLvl2Dirs. apply forEach_keeps. intros [name2 lvl2Dir].
apply bind_keeps; [apply Hread|]. intros startTimeDirs.
unfold walkStartTimeDirs. apply forEach_keeps. intros [name3 startTimeDir].
destruct (IsRegular startTimeDir && bool_decide (name3 = "meta.json")).
- apply logged_keeps. intros s. apply handleDirectory_keeps.
- destruct (IsDir startTimeDir); [|intros s Hs; exact Hs].
  apply logged_keeps. intros s. apply handleDirectory_keeps.
Qed.

End ImportInvariants.

Section ImportOnAnyArchive.

Import Repository.

Variable foreignKeys : bool.
Variable SanityChecks : JobMeta → option string.
Variable loadJobStat : JobMeta → string → float.
Variable marshalResources : list Resource → string.
Variable marshalMetaData : gmap string string → string.

Lemma walkLvl2Dirs_result (lvl1path : string) (lvl2Dirs : list (string * FsNode))
    (s : ImportState) :
  match (walkLvl2Dirs foreignKeys SanityChecks loadJobStat marshalResources marshalMetaData
           lvl1path lvl2Dirs s).1 with
  | inr _ => forallb (λ p, readable p.2) lvl2Dirs = true
  | inl err => (∃ path, err = ErrReadDir path) ∧ forallb (λ p, readable p.2) lvl2Dirs = false
  end.
Proof.
unfold walkLvl2Dirs.
revert s. induction lvl2Dirs as [|[name n] l IH]; intros s; simpl; [reflexivity|].
unfold mbind, I_bind.
destruct n as [|[es|]|]; simpl; try (split; [eauto|reflexivity]).
rewrite walkStartTimeDirs_fold. apply IH.
Qed.

Lemma walkLvl1Dirs_result (clusterpath : string) (lvl1Dirs : list (string * FsNode))
    (s : ImportState) :
  match (walkLvl1Dirs foreignKeys SanityChecks loadJobStat marshalResources marshalMetaData
           clusterpath lvl1Dirs s).1 with
  | inr _ => forallb (λ p, negb (IsDir p.2) || lvl1Walkable p.2) lvl1Dirs = true
  | inl err => (∃ path, err = ErrReadDir path)
               ∧ forallb (λ p, negb (IsDir p.2) || lvl1Walkable p.2) lvl1Dirs = false
  end.
Proof.
unfold walkLvl1Dirs.
revert s. induction lvl1Dirs as [|[name n] l IH]; intros s; simpl; [reflexivity|].
unfold mbind, I_bind.
destruct n as [|[es|]|]; simpl; try apply IH; try (split; [eauto|reflexivity]).
pose proof (walkLvl2Dirs_result (pathJoin clusterpath name) es s) as H2.
unfold lvl1Walkable. simpl.
destruct (walkLvl2Dirs _ _ _ _ _ _ es s) as [[err|u] s']; simpl in *.
- destruct H2 as [Herr ->]. split; [exact Herr|reflexivity].
- rewrite H2. apply IH.
Qed.

Lemma walkClusters_result (archive : string) (clustersDir : list (string * FsNode))
    (s : ImportState) :
  match (walkClusters foreignKeys SanityChecks loadJobStat marshalResources marshalMetaData
           archive clustersDir s).1 with
  | inr _ => forallb (λ p, clusterWalkable p.2) clustersDir = true
  | inl err => (∃ path, err = ErrReadDir path)
               ∧ forallb (λ p, clusterWalkable p.2) clustersDir = false
  end.
Proof.
unfold walkClusters.
revert s. induction clustersDir as [|[name n] l IH]; intros s; simpl; [reflexivity|].
unfold mbind, I_bind.
destruct n as [|[es|]|]; simpl; try (split; [eauto|reflexivity]).
pose proof (walkLvl1Dirs_result (pathJoin archive name) es s) as H1.
unfold clusterWalkable. simpl.
destruct (walkLvl1Dirs _ _ _ _ _ _ es s) as [[err|u] s']; simpl in *.
- destruct H1 as [Herr ->]. split; [exact Herr|reflexivity].
- rewrite H1. apply IH.
Qed.

Lemma imported_empty : imported foreignKeys emptyTables.
Proof.
split; [intros id r Hrow; simpl in Hrow; rewrite lookup_empty in Hrow; discriminate|].
split; [intros id1 id2 row Hrow; simpl in Hrow; rewrite lookup_empty in Hrow; discriminate|].
intros _ j tg Hin. simpl in Hin. apply elem_of_empty in Hin. destruct Hin.
Qed.

(** What [InitDB] leaves after the walk, whether the walk failed or not. *)
Lemma InitDB_walk (db : Tables) (archive : string) (es : list (string * FsNode)) :
  let walk := walkClusters foreignKeys SanityChecks loadJobStat marshalResources
                marshalMetaData archive es
                (mkImportState emptyTables (Some emptyTables) [OpSchema; OpBegin] [] 0 ∅) in
  InitDB foreignKeys SanityChecks loadJobStat marshalResources marshalMetaData
    db archive (Dir (Some es))
  = match walk.1 with
    | inl err => (Some err, walk.2)
    | inr _ => (None, mkImportState (workTables walk.2) None
                        ((ops walk.2 ++ [OpCommit]) ++ [OpIndexes])
                        (errlog walk.2) (count walk.2) (tagIds walk.2))
    end
  ∧ imported foreignKeys (store walk.2) ∧ imported foreignKeys (workTables walk.2)
  ∧ is_Some (txn walk.2) ∧ (OpIndexes ∉ ops walk.2).
Proof.
intros walk. split.
- unfold InitDB, initDB, mbind, I_bind. simpl. fold walk.
  destruct walk as [[err|u] s']; reflexivity.
- apply (walkClusters_keeps foreignKeys SanityChecks loadJobStat marshalResources marshalMetaData
           (λ s, imported foreignKeys (store s) ∧ imported foreignKeys (workTables s)
                 ∧ is_Some (txn s) ∧ OpIndexes ∉ ops s)
           (λ s, iff_refl _)).
  pose proof imported_empty as Hempty.
  simpl. split; [exact Hempty|]. split; [exact Hempty|]. split; [eauto|].
  intros Hin. apply elem_of_cons in Hin as [Hin|Hin]; [discriminate|].
  apply list_elem_of_singleton in Hin. discriminate.
Qed.

(** X25. [InitDB] returns no error exactly when every directory the walk
    lists can be read. The error it returns is that of the directory that
    cannot be read; then no index has been created and, unless it is the
    archive itself that cannot be read, the transaction is left open,
    neither committed nor rolled back. *)
Theorem InitDB_fails_on_unreadable_directory (db : Tables) (archive : string) (root : FsNode) :
  let out := InitDB foreignKeys SanityChecks loadJobStat marshalResources marshalMetaData
               db archive root in
  (out.1 = None ↔ walkable root = true)
  ∧ ∀ err, out.1 = Some err →
      (∃ path, err = ErrReadDir path)
      ∧ (OpIndexes ∉ ops out.2)
      ∧ (readable root = true → is_Some (txn out.2)).
Proof.
assert (Hroot : ∀ n, readable n = false →
          InitDB foreignKeys SanityChecks loadJobStat marshalResources marshalMetaData
            db archive n
          = (Some (ErrReadDir archive), mkImportState emptyTables None [OpSchema] [] 0 ∅)).
{ intros n Hn. destruct n as [|[es|]|]; try discriminate; reflexivity. }
destruct (readable root) eqn:Hr.
- destruct root as [|[es|]|]; try discriminate.
  destruct (InitDB_walk db archive es) as (-> & _ & _ & Htxn & Hops).
  pose proof (walkClusters_result archive es
                (mkImportState emptyTables (Some emptyTables) [OpSchema; OpBegin] [] 0 ∅)) as Hres.
  unfold walkable. simpl.
  destruct (walkClusters _ _ _ _ _ archive es _) as [[err|u] s']; simpl in *.
  + destruct Hres as [Herr ->]. split; [split; discriminate|].
    intros err' [= <-]. split; [exact Herr|]. split; [exact Hops|]. intros _. exact Htxn.
  + rewrite Hres. split; [split; reflexivity|]. intros err'. discriminate.
- rewrite (Hroot root Hr). unfold walkable. rewrite Hr. simpl.
  split; [split; discriminate|].
  intros err [= <-]. split; [eauto|]. split; [|discriminate].
  intros Hin. apply list_elem_of_singleton in Hin. discriminate.
Qed.

(** X26. Whatever the tables held and whatever the archive holds, in the
    tables [InitDB] leaves, committed or in the open transaction, every row
    of [job] has the monitoring status archiving-successful and passes the
    [CHECK] constraints, no two rows of [tag] carry the same type and name,
    and, with foreign keys enforced, every row of [jobtag] names a row of
    [job] and a row of [tag]. *)
Theorem InitDB_leaves_imported_tables (db : Tables) (archive : string) (root : FsNode)
    (t : Tables) :
  let out := InitDB foreignKeys SanityChecks loadJobStat marshalResources marshalMetaData
               db archive root in
  t = store out.2 ∨ txn out.2 = Some t →
  (∀ id r, jobTable t !! id = Some r →
     monitoring_status r = MetricData.MonitoringStatusArchivingSuccessful
     ∧ jobChecks r = true)
  ∧ tagsUnique t
  ∧ (foreignKeys = true →
     ∀ jobId tagId, (jobId, tagId) ∈ jobtagTable t →
       is_Some (jobTable t !! jobId) ∧ is_Some (tagTable t !! tagId)).
Proof.
intros out Ht. change (imported foreignKeys t).
pose proof imported_empty as Hempty.
subst out. destruct root as [decoded|[es|]|];
  try (destruct Ht as [->|Ht]; [exact Hempty|discriminate]).
destruct (InitDB_walk db archive es) as (Hout & Hstore & Hwork & Htxn & _).
rewrite Hout in Ht.
destruct (walkClusters _ _ _ _ _ archive es _) as [[err|u] s']; simpl in *.
- destruct Ht as [->|Ht]; [exact Hstore|].
  unfold workTables in Hwork. rewrite Ht in Hwork. exact Hwork.
- destruct Ht as [->|Ht]; [exact Hwork|discriminate].
Qed.

End ImportOnAnyArchive.

(** * Properties of the configuration *)

Section ConfigProperties.

Import Config.

Variable Value : Type.
Variable unmarshal : string → error + Value.

Lemma loadClusters_names (clusters : list Cluster) (entries : list (string * (error + Cluster)))
    (loaded : list Cluster) :
  loadClusters clusters entries = (loaded, None) →
  ∃ new, loaded = clusters ++ new
         ∧ ClusterName <$> new = entries.*1
         ∧ Forall (λ c, is_Some (StartTimeTo c)) new.
Proof.
revert clusters. induction entries as [|[name file] entries IH]; intros clusters; simpl.
- intros [= <-]. exists []. rewrite app_nil_r. repeat split. constructor.
- unfold loadCluster. destruct file as [err|cluster]; [discriminate|].
  case_decide as Hname; [discriminate|].
  intros Hload. destruct (IH _ Hload) as (new & -> & Hnames & Hto).
  exists (withStartTimeTo cluster :: new). rewrite <- app_assoc. split; [reflexivity|].
  split.
  + rewrite fmap_cons, Hnames. simpl. f_equal.
    destruct (decide (ClusterName (withStartTimeTo cluster) = name)); [assumption|contradiction].
  + constructor; [|exact Hto]. unfold withStartTimeTo.
    destruct (StartTimeTo cluster) eqn:Hc; [rewrite Hc|]; simpl; eauto.
Qed.

Lemma find_cluster (clusters : list Cluster) (c : Cluster) :
  NoDup (ClusterName <$> clusters) → c ∈ clusters →
  List.find (λ c', bool_decide (ClusterName c' = ClusterName c)) clusters = Some c.
Proof.
induction clusters as [|c' l IH]; intros Hnd Hin; [inversion Hin|]. simpl.
rewrite fmap_cons in Hnd. apply NoDup_cons in Hnd as [Hc' Hnd].
apply elem_of_cons in Hin as [->|Hin].
- rewrite bool_decide_eq_true_2 by reflexivity. reflexivity.
- rewrite bool_decide_eq_false_2; [apply IH; assumption|].
  intros Heq. apply Hc'. rewrite Heq. apply list_elem_of_fmap. eauto.
Qed.

(** X27. After an [Init] that returned no error, [Clusters] holds one
    cluster for every entry of the job archive, in their order and under
    their names, each with an upper end of the start time range that is not
    the zero time; and as the names of the entries of a directory differ,
    [GetClusterConfig] finds every one of them by its name. *)
Theorem Init_clusters (st st' : Store Value) (usersdb : gmap (string * string) string)
    (authEnabled : bool) (uiConfig : option (gmap string Value))
    (entries : list (string * (error + Cluster))) :
  Init st usersdb authEnabled uiConfig (inr entries) = (st', None) →
  ClusterName <$> Clusters st' = entries.*1
  ∧ Forall (λ c, is_Some (StartTimeTo c)) (Clusters st')
  ∧ (NoDup entries.*1 →
     ∀ c, c ∈ Clusters st' → GetClusterConfig st' (ClusterName c) = Some c).
Proof.
unfold Init. destruct (loadClusters [] entries) as [clusters [err|]] eqn:Hload; [discriminate|].
intros [= <-]. simpl.
destruct (loadClusters_names [] entries clusters Hload) as (new & -> & Hnames & Hto).
simpl. split; [exact Hnames|]. split; [exact Hto|].
intros Hnd c Hin. unfold GetClusterConfig. simpl.
apply find_cluster; [rewrite Hnames; exact Hnd|exact Hin].
Qed.

Lemma lookup_in_cluster {A : Type} (items : Cluster → list A) (test : A → bool)
    (clusters : list Cluster) (cluster : string) :
  NoDup (ClusterName <$> clusters) →
  foldr (λ c next,
           if decide (ClusterName c = cluster) then
             match List.find test (items c) with
             | Some x => Some x
             | None => next
             end
           else next) None clusters
  = List.find (λ c, bool_decide (ClusterName c = cluster)) clusters
    ≫= λ c, List.find test (items c).
Proof.
induction clusters as [|c l IH]; intros Hnd; [reflexivity|]. simpl.
rewrite fmap_cons in Hnd. apply NoDup_cons in Hnd as [Hc Hnd].
destruct (decide (ClusterName c = cluster)) as [Heq|Hne].
- rewrite bool_decide_eq_true_2 by exact Heq. simpl.
  destruct (List.find test (items c)); [reflexivity|].
  rewrite (IH Hnd).
  destruct (List.find _ l) as [c'|] eqn:Hfind; [|reflexivity].
  apply find_some in Hfind as [Hin Hname]. apply bool_decide_eq_true in Hname.
  exfalso. apply Hc. rewrite Heq, <- Hname. apply list_elem_of_fmap.
  exists c'. split; [reflexivity|apply list_elem_of_In; exact Hin].
- rewrite bool_decide_eq_false_2 by exact Hne. apply IH. exact Hnd.
Qed.

(** X28. While no two clusters have the same name, [GetPartition] and
    [GetMetricConfig] answer with the first partition and the first metric
    configuration of the name in the cluster [GetClusterConfig] finds, and
    with nothing when it finds none. *)
Theorem lookups_agree (st : Store Value) (cluster name : string) :
  NoDup (ClusterName <$> Clusters st) →
  GetPartition st cluster name
  = (GetClusterConfig st cluster
     ≫= λ c, List.find (λ p, bool_decide (PartitionName p = name)) (Partitions c))
  ∧ GetMetricConfig st cluster name
    = (GetClusterConfig st cluster
       ≫= λ c, List.find (λ m, bool_decide (MetricName m = name)) (MetricConfigOf c)).
Proof.
intros Hnd. split.
- apply (lookup_in_cluster Partitions _ _ _ Hnd).
- apply (lookup_in_cluster MetricConfigOf _ _ _ Hnd).
Qed.

Lemma userRows_elem (st : Store Value) (username key rawval : string) :
  (key, rawval) ∈ userRows st username ↔ configuration st !! (username, key) = Some rawval.
Proof.
unfold userRows. rewrite list_elem_of_omap. split.
- intros ([[u k] raw] & Hin & Hrow). apply elem_of_map_to_list in Hin.
  destruct (decide (u = username)) as [->|]; [|discriminate].
  injection Hrow as -> ->. exact Hin.
- intros Hrow. exists ((username, key), rawval). split; [apply elem_of_map_to_list; exact Hrow|].
  rewrite decide_True by reflexivity. reflexivity.
Qed.

Lemma scanRows_fails (rows : list (string * string)) (config : gmap string Value) (size : Z)
    (key rawval : string) (err : error) :
  (key, rawval) ∈ rows → unmarshal rawval = inl err →
  ∃ err', scanRows unmarshal rows config size = inl err'.
Proof.
revert config size. induction rows as [|[k raw] rows IH]; intros config size Hin Herr;
  [inversion Hin|]. simpl.
destruct (unmarshal raw) as [e|v] eqn:Hraw; [eauto|].
apply elem_of_cons in Hin as [[= -> ->]|Hin]; [congruence|]. apply IH; assumption.
Qed.

Lemma scanRows_lookup (rows : list (string * string)) (config config' : gmap string Value)
    (size size' : Z) (key : string) :
  scanRows unmarshal rows config size = inr (config', size') →
  (∃ rawval val, (key, rawval) ∈ rows ∧ unmarshal rawval = inr val ∧ config' !! key = Some val)
  ∨ ((∀ rawval, (key, rawval) ∉ rows) ∧ config' !! key = config !! key).
Proof.
revert config size. induction rows as [|[k raw] rows IH]; intros config size; simpl.
- intros [= <- <-]. right. split; [intros rawval Hin; inversion Hin|reflexivity].
- destruct (unmarshal raw) as [e|v] eqn:Hraw; [discriminate|]. intros Hscan.
  destruct (IH _ _ Hscan) as [(rawval & val & Hin & Hval & Hcfg)|[Hnone Hcfg]].
  + left. exists rawval, val. split; [right; exact Hin|]. split; assumption.
  + destruct (decide (k = key)) as [->|Hne].
    * left. exists raw, v. split; [left|]. split; [exact Hraw|].
      rewrite Hcfg. apply lookup_insert_eq.
    * right. split.
      -- intros rawval Hin. apply elem_of_cons in Hin as [[= ? ?]|Hin]; [congruence|].
         exact (Hnone rawval Hin).
      -- rewrite Hcfg. apply lookup_insert_ne. exact Hne.
Qed.

(** X29. [UpdateConfig] for a user stores the value as it is, valid JSON or
    not, and never returns an error. The next [GetUIConfig] of the user
    reads the rows anew: every key of the configuration it returns is the
    decoded value of the row of the user under that key, or, the user having
    no such row, the default; the key just stored has the decoded value just
    stored. When the value stored is no JSON, it returns an error, and so
    will it every time, as it then keeps nothing in the cache. *)
Theorem UpdateConfig_then_GetUIConfig (st : Store Value) (username key value : string) :
  lookupConfigStmt st = true →
  ∃ st',
    UpdateConfig unmarshal key value (Some username) st = Some (st', None)
    ∧ configuration st' = <[(username, key) := value]> (configuration st)
    ∧ match GetUIConfig unmarshal (Some username) st' with
      | Some ((Some config, None), st'') =>
          (∃ val, unmarshal value = inr val ∧ config !! key = Some val)
          ∧ ∀ k, match configuration st' !! (username, k) with
                 | Some rawval => ∃ val, unmarshal rawval = inr val ∧ config !! k = Some val
                 | None => config !! k = default ∅ (uiDefaults st) !! k
                 end
      | Some ((None, Some err), st'') =>
          st'' = st' ∧ ∃ k rawval err', configuration st' !! (username, k) = Some rawval
                                        ∧ unmarshal rawval = inl err'
      | _ => False
      end
    ∧ (∀ err, unmarshal value = inl err →
         ∃ err', GetUIConfig unmarshal (Some username) st' = Some ((None, Some err'), st')).
Proof.
intros Hstmt. eexists. split; [reflexivity|]. split; [reflexivity|].
set (st' := mkStore _ _ _ _ _).
assert (Hget : GetUIConfig unmarshal (Some username) st'
               = match scanRows unmarshal (userRows st' username) (default ∅ (uiDefaults st)) 0 with
                 | inl err => Some ((None, Some err), st')
                 | inr (config, size) =>
                     Some ((Some config, None),
                           mkStore (uiDefaults st') (Clusters st') (configuration st')
                             (lookupConfigStmt st') (<[username := CvConfig config]> (cache st')))
                 end).
{ unfold GetUIConfig, cacheGet, loadUIConfig. simpl.
  rewrite lookup_delete_eq, Hstmt. simpl.
  destruct (scanRows _ _ _ _) as [err|[config size]]; reflexivity. }
split.
- rewrite Hget.
  destruct (scanRows _ _ _ _) as [err|[config size]] eqn:Hscan.
  + split; [reflexivity|].
    assert (Hbad : ¬ Forall (λ row : string * string, ∃ val, unmarshal row.2 = inr val)
                     (userRows st' username)).
    { intros Hall. clear Hget. revert Hscan. generalize (default ∅ (uiDefaults st)), 0.
      induction Hall as [|[k raw] rows [val Hval] _ IH]; intros config size; simpl;
        [discriminate|].
      simpl in Hval. rewrite Hval. apply IH. }
    apply not_Forall_Exists in Hbad; [|intros [k raw]; simpl;
      destruct (unmarshal raw) as [e|v]; [right; intros [val [=]]|left; eauto]].
    apply Exists_exists in Hbad as ([k raw] & Hin & Hraw). simpl in Hraw.
    exists k, raw. destruct (unmarshal raw) as [e|v] eqn:Hu; [|exfalso; apply Hraw; eauto].
    exists e. split; [|reflexivity]. apply userRows_elem. exact Hin.
  + assert (Hkeys : ∀ k, match configuration st' !! (username, k) with
                         | Some rawval => ∃ val, unmarshal rawval = inr val ∧ config !! k = Some val
                         | None => config !! k = default ∅ (uiDefaults st) !! k
                         end).
    { intros k.
      destruct (scanRows_lookup _ _ _ _ _ k Hscan)
        as [(rawval & val & Hin & Hval & Hcfg)|[Hnone Hcfg]].
      - apply userRows_elem in Hin. rewrite Hin. eauto.
      - destruct (configuration st' !! (username, k)) as [rawval|] eqn:Hrow; [|exact Hcfg].
        apply userRows_elem in Hrow. destruct (Hnone rawval Hrow). }
    split; [|exact Hkeys].
    specialize (Hkeys key). simpl in Hkeys. rewrite lookup_insert_eq in Hkeys. exact Hkeys.
- intros err Herr. rewrite Hget.
  destruct (scanRows_fails (userRows st' username) (default ∅ (uiDefaults st)) 0 key value err)
    as [err' ->]; [|exact Herr|eauto].
  apply userRows_elem. simpl. apply lookup_insert_eq.
Qed.

(** X30. [UpdateConfig] without a user decodes the value first: a value that
    is no JSON is refused and nothing changes. Otherwise the default of the
    key is replaced, which [GetUIConfig] without a user shows at once; but
    no entry of the cache is dropped, and a user whose configuration is in
    the cache goes on getting it with the default it had. *)
Theorem UpdateConfig_defaults (st : Store Value) (defaults : gmap string Value)
    (key value : string) :
  uiDefaults st = Some defaults →
  match unmarshal value with
  | inl err => UpdateConfig unmarshal key value None st = Some (st, Some err)
  | inr val =>
      ∃ st',
        UpdateConfig unmarshal key value None st = Some (st', None)
        ∧ GetUIConfig unmarshal None st' = Some ((Some (<[key := val]> defaults), None), st')
        ∧ ∀ username cached,
            cache st !! username = Some cached →
            GetUIConfig unmarshal (Some username) st
            = Some (match cached with
                    | CvErr err => (None, Some err)
                    | CvConfig config => (Some config, None)
                    end, st)
            ∧ GetUIConfig unmarshal (Some username) st'
              = Some (match cached with
                      | CvErr err => (None, Some err)
                      | CvConfig config => (Some config, None)
                      end, st')
  end.
Proof.
intros Hdefaults. unfold UpdateConfig. destruct (unmarshal value) as [err|val]; [reflexivity|].
rewrite Hdefaults. simpl. eexists. split; [reflexivity|]. split; [reflexivity|].
intros username cached Hcached. unfold GetUIConfig, cacheGet. simpl. rewrite Hcached. simpl.
destruct cached; split; reflexivity.
Qed.

End ConfigProperties.

(** * A job that is being archived *)

Section ArchivingJob.

Import MetricData.

Variable adapters : gmap string Adapter.
Variable GetCluster : string → ClusterConfig.
Variable loadFromArchive : Job → gmap string (gmap string JobMetric) * option error.
Variable loadAveragesFromArchive :
  Job → slice string → list (list float) → list (list float) * option error.
Variable rangeNodes : nat → gmap string MetricStatistics → list (string * MetricStatistics).
Variable JobDataSize : gmap string (gmap string JobMetric) → Z.
Variable statisticsSeriesOf : list Series → StatsSeries.
Variable nodeScopeOf : gmap string JobMetric → option JobMetric.

(** X10. The two entry points do not agree on a job that has stopped and is
    being archived, the archive being in use: on a computation [LoadData]
    still reads the live adapter of the cluster and not the archive, while
    [LoadAverages] already answers from the archive and asks no adapter. *)
Theorem archiving_job_sources (w : World) (job : Job) (metrics scopes : slice string)
    (data : list (list float)) (repo : Adapter) :
  State job ≠ JobStateRunning →
  MonitoringStatus job = MonitoringStatusRunningOrArchiving →
  adapters !! Cluster job = Some repo →
  cache w !! cacheKey job metrics scopes = None →
  reads (LoadData (adapterData <$> adapters) true GetCluster loadFromArchive JobDataSize
           statisticsSeriesOf nodeScopeOf job metrics scopes w).2
  = reads w ++ [SrcLive (Cluster job)]
  ∧ LoadAverages adapters true loadAveragesFromArchive rangeNodes job metrics data
    = Some (loadAveragesFromArchive job metrics data).
Proof.
intros Hstate Hms Hrepo Hmiss. split.
- unfold LoadData, mbind, M_bind, cacheGet. rewrite Hmiss.
  unfold loadDataFn, readsLive. rewrite Hms.
  rewrite (bool_decide_eq_true_2 (_ = MonitoringStatusRunningOrArchiving)) by reflexivity.
  rewrite orb_true_r. simpl.
  rewrite lookup_fmap, Hrepo. simpl.
  unfold mbind, M_bind, readFrom. simpl.
  destruct (repoLoadData _ _ _ _) as [jd [e|]]; simpl.
  + destruct (decide (size jd ≠ 0%nat)); simpl.
    * unfold finishLoad. rewrite ttl_nonzero. reflexivity.
    * reflexivity.
  + unfold finishLoad. rewrite ttl_nonzero. reflexivity.
- unfold LoadAverages.
  rewrite bool_decide_eq_false_2 by exact Hstate. reflexivity.
Qed.

End ArchivingJob.

(** * The properties on the test cluster *)

Section ServiceMoreExamples.

Import MetricData Fixtures.

(** X1 on the test cluster with no adapter registered. *)
Lemma LoadData_no_adapter_witness :
  loadUnconfigured runningJob None None emptyWorld
  = ((∅, Some "no metric data repository configured for 'testcluster'"), emptyWorld).
Proof.
exact (LoadData_no_adapter ∅ true testCluster (λ _, (testData, None)) (λ _, 1)
         noStatistics noNodeScope emptyWorld runningJob None None
         ltac:(reflexivity) ltac:(reflexivity) ltac:(reflexivity)).
Defined.

(** X2 on the completed job, the archive failing. *)
Lemma LoadData_archive_error_witness :
  loadUnreadable stoppedJob None None emptyWorld
  = ((∅, Some "no such file"), mkWorld ∅ [] [SrcArchive 1]).
Proof.
exact (LoadData_archive_error {[ "testcluster" := testRepo ]} true testCluster
         (λ _, (∅, Some "no such file")) (λ _, 1) noStatistics noNodeScope
         emptyWorld stoppedJob None None ∅ "no such file"
         ltac:(reflexivity) ltac:(reflexivity) ltac:(reflexivity)).
Defined.

(** X3 on the running job: the archive failing leaves the cache empty; the
    second call, nothing forgotten in between, returns the data of the
    first and leaves the world as it is. *)
Lemma LoadData_caching_witness :
  cache (loadUnreadable stoppedJob None None emptyWorld).2 = ∅
  ∧ loadWith testRepo coreData runningJob None None
      (loadWith testRepo coreData runningJob None None emptyWorld).2
    = ((loadWith testRepo coreData runningJob None None emptyWorld).1,
       (loadWith testRepo coreData runningJob None None emptyWorld).2).
Proof.
split.
- exact (proj1 (LoadData_caching {[ "testcluster" := testRepo ]} true testCluster
                  (λ _, (∅, Some "no such file")) (λ _, 1) noStatistics noNodeScope
                  emptyWorld stoppedJob None None) "no such file" eq_refl).
- apply (proj2 (LoadData_caching {[ "testcluster" := testRepo ]} true testCluster
                  (λ _, (coreData, None)) (λ _, 1) noStatistics noNodeScope
                  emptyWorld runningJob None None)).
  + reflexivity.
  + split; [reflexivity|split; reflexivity].
  + eexists. reflexivity.
Defined.

(** X4 on the running job, asked for two metrics and then for the one metric
    named by both. *)
Lemma LoadData_key_collision_witness :
  loadWith testRepo coreData runningJob (Some ["load_one mem_bw"]) None
    (loadWith testRepo coreData runningJob (Some ["load_one"; "mem_bw"]) None emptyWorld).2
  = ((loadWith testRepo coreData runningJob (Some ["load_one"; "mem_bw"]) None emptyWorld).1,
     (loadWith testRepo coreData runningJob (Some ["load_one"; "mem_bw"]) None emptyWorld).2).
Proof.
apply (proj2 (proj2 (LoadData_key_collision {[ "testcluster" := testRepo ]} true testCluster
                       (λ _, (coreData, None)) (λ _, 1) noStatistics noNodeScope
                       emptyWorld runningJob "load_one" "mem_bw" None))).
- reflexivity.
- split; [reflexivity|split; reflexivity].
- eexists. reflexivity.
Defined.

(** X6 on the completed job archived at two scopes, the node scope asked
    for and no metric named. *)
Lemma LoadData_archive_all_metrics_witness :
  ∃ res,
    (loadWith testRepo twoScopeData stoppedJob None (Some ["node"]) emptyWorld).1
    = (prepareJobData noStatistics noNodeScope stoppedJob res (Some ["node"]), None)
    ∧ res !! "load_one" = Some {[ "node" := loadOne 1 None ]}.
Proof.
destruct (LoadData_archive_all_metrics {[ "testcluster" := testRepo ]} true testCluster
            (λ _, (twoScopeData, None)) (λ _, 1) noStatistics noNodeScope
            emptyWorld stoppedJob (Some ["node"]) twoScopeData
            ltac:(reflexivity) ltac:(reflexivity) ltac:(reflexivity))
  as (res & Hres & _ & Hlook).
exists res. split; [exact Hres|]. rewrite Hlook. reflexivity.
Defined.

(** X8 on the job on seventeen nodes, the core scope asked for. *)
Lemma prepareJobData_again_witness :
  prepareJobData noStatistics noNodeScope runningJob
    (prepareJobData noStatistics noNodeScope runningJob wideData (Some ["core"])) (Some ["core"])
  = prepareJobData noStatistics noNodeScope runningJob wideData (Some ["core"]).
Proof.
apply (prepareJobData_again noStatistics noNodeScope runningJob wideData (Some ["core"])).
simpl. intros H. apply list_elem_of_singleton in H. discriminate H.
Defined.

(** X9 on the running job: three rows, two metrics, the second unknown to
    the adapter. *)
Lemma LoadAverages_rows_witness :
  ∃ data',
    LoadAverages {[ "testcluster" := testAdapter ]} true (λ _ _ data, (data, None)) nodesByName
      runningJob (Some ["load_one"; "mem_bw"]) [[]; []; []]
    = Some (data', None)
    ∧ length data' = 3%nat
    ∧ (∃ order, order ≡ₚ [("host123", mkMetricStatistics 0.25 0.125 0.5);
                          ("host124", mkMetricStatistics 0.5 0.25 1)]
                ∧ data' !! 0%nat
                  = Some [foldl (λ sum node, (sum + Avg node.2)%float) 0%float order])
    ∧ data' !! 1%nat = Some [NaN]
    ∧ data' !! 2%nat = Some [].
Proof.
pose proof (LoadAverages_rows {[ "testcluster" := testAdapter ]} true (λ _ _ data, (data, None))
              nodesByName runningJob (Some ["load_one"; "mem_bw"]) [[]; []; []]
              testAdapter testStats
              ltac:(reflexivity) ltac:(left; reflexivity) ltac:(reflexivity) ltac:(reflexivity))
  as H.
destruct (LoadAverages _ _ _ _ _ _ _) as [[data' err]|]; [|simpl in H; lia].
destruct H as (-> & _ & Hlen & Hrows). exists data'.
split; [reflexivity|]. split; [exact Hlen|].
split; [|split; [exact (Hrows 1%nat [] eq_refl)|exact (Hrows 2%nat [] eq_refl)]].
destruct (Hrows 0%nat [] eq_refl) as (order & Horder & Hrow).
exists order. split; [|exact Hrow].
rewrite Horder. vm_compute. reflexivity.
Defined.

(** X10 on the job that has stopped and is being archived. *)
Lemma archiving_job_sources_witness :
  reads (LoadData (adapterData <$> {[ "testcluster" := testAdapter ]}) true testCluster
           (λ _, (testData, None)) (λ _, 1) noStatistics noNodeScope
           archivingJob None None emptyWorld).2
  = [SrcLive "testcluster"]
  ∧ LoadAverages {[ "testcluster" := testAdapter ]} true (λ _ _ data, (data, None)) nodesByName
      archivingJob (Some ["load_one"]) [[]]
    = Some ([[]], None).
Proof.
exact (archiving_job_sources {[ "testcluster" := testAdapter ]} testCluster
         (λ _, (testData, None)) (λ _ _ data, (data, None)) nodesByName (λ _, 1)
         noStatistics noNodeScope
         emptyWorld archivingJob None None [[]] testAdapter
         ltac:(discriminate) ltac:(reflexivity) ltac:(reflexivity) ltac:(reflexivity)).
Defined.

(** X12 on the adapter whose node query times out after one host, asked
    with a [nil] metric list. *)
Lemma LoadNodeData_partial_error_witness :
  LoadNodeData {[ "testcluster" := partialAdapter ]} testCluster "testcluster"
    None None None 0 60 emptyWorld
  = ((Some testNodeData, None), mkWorld ∅ ["partial error: timeout"] []).
Proof.
pose proof (LoadNodeData_partial_error {[ "testcluster" := partialAdapter ]} testCluster
              emptyWorld "testcluster" None None None 0 60
              partialAdapter (Some testNodeData) "timeout"
              ltac:(apply lookup_singleton_eq) ltac:(reflexivity)) as H.
rewrite decide_False in H by apply map_non_empty_singleton. exact H.
Defined.

(** X14 on three clusters, the second of an unknown kind. *)
Lemma Init_stops_at_first_error_witness :
  ∃ before c after,
    threeClusters = before ++ c :: after
    ∧ initWith noGlobals before "archive" false
      = ((initWith noGlobals threeClusters "archive" false).1, None)
    ∧ initCluster (λ raw, inr raw) (λ _, inl "connection refused")
        (λ _, inl "connection refused") (λ _, inr testAdapter)
        (gRepos (initWith noGlobals threeClusters "archive" false).1) c
      = (gRepos (initWith noGlobals threeClusters "archive" false).1,
         Some "unkown metric data repository 'prometheus' for cluster 'fritz'").
Proof.
exact (Init_stops_at_first_error (λ raw, inr raw) (λ _, inl "connection refused")
         (λ _, inl "connection refused") (λ _, inr testAdapter)
         noGlobals threeClusters "archive" false
         (initWith noGlobals threeClusters "archive" false).1
         "unkown metric data repository 'prometheus' for cluster 'fritz'"
         ltac:(reflexivity)).
Defined.

End ServiceMoreExamples.

(** * The properties on the job of the test *)

Section RepositoryMoreExamples.

Import Repository Fixtures.

Lemma rowsById_table (t : gmap Z JobRow) : rowsById t ≡ₚ map_to_list t.
Proof. reflexivity. Qed.

(** X15 on the stop request of the test. *)
Lemma Stop_then_FindById_witness :
  FindById _ scanRow rowsById (Stop startedTables 1 1000 "completed" 1).1 1
  = inr (1, set_monitoring_status 1
              (set_duration 1000 (set_job_state "completed" (startRow (testJob 123456789)))))
  ∧ ∀ id', id' ≠ 1 →
      FindById _ scanRow rowsById (Stop startedTables 1 1000 "completed" 1).1 id'
      = FindById _ scanRow rowsById startedTables id'.
Proof.
exact (Stop_then_FindById _ scanRow rowsById rowsById_table startedTables 1 1000 1
         "completed" (startRow (testJob 123456789))
         ltac:(reflexivity) ltac:(reflexivity)
         ltac:(apply list_elem_of_further, list_elem_of_here)
         ltac:(apply list_elem_of_further, list_elem_of_here)).
Defined.

(** X16 on the job of the test: [Find] on its job id, cluster and start time. *)
Lemma Find_matching_row_witness :
  ∃ id r,
    jobTable startedTables !! id = Some r
    ∧ (Some 123 = Some (job_id r)
       ∧ (∀ c, Some "testcluster" = Some c → cluster r = c)
       ∧ (∀ t, Some 123456789 = Some t → start_time r = t))
    ∧ scanRow id r = inr (1, startRow (testJob 123456789)).
Proof.
exact (Find_matching_row _ scanRow rowsById rowsById_table startedTables
         (Some 123) (Some "testcluster") (Some 123456789)).
Defined.

(** X18 on the user of the job, who is no administrator, searching for the
    job id and for a user name. *)
Lemma FindJobOrUser_outcome_witness :
  FindJobOrUser rowsById startedTables (Some testUser) "123" = (1, "", None)
  ∧ FindJobOrUser rowsById startedTables (Some testUser) "testuser" = (0, "", Some ErrNotFound)
  ∧ FindJobOrUser rowsById startedTables None "testuser" = (0, "testuser", None)
  ∧ ∃ r, jobTable startedTables !! 1 = Some r ∧ Atoi "123" = Some (job_id r)
         ∧ user r = "testuser".
Proof.
assert (Hfound : FindJobOrUser rowsById startedTables (Some testUser) "123" = (1, "", None))
  by reflexivity.
pose proof (FindJobOrUser_outcome rowsById rowsById_table startedTables (Some testUser) "123")
  as H.
rewrite Hfound in H.
split; [exact Hfound|]. split; [reflexivity|]. split; [reflexivity|].
destruct H as [(_ & r & Hrow & Hatoi & Huser)|(_ & Hname & _)]; [|discriminate Hname].
exists r. split; [exact Hrow|]. split; [exact Hatoi|].
exact (Huser testUser eq_refl eq_refl).
Defined.

(** X21 on the job of the test, with statistics for a metric [Archive] does not
    know. *)
Lemma Archive_unknown_metrics_witness :
  Archive startedTables 1 3 {[ "cpu_load" := mkJobStatistics "load" 2.5 1 4 ]}
  = UpdateMonitoringStatus startedTables 1 3.
Proof.
apply (Archive_unknown_metrics startedTables 1 3
         {[ "cpu_load" := mkJobStatistics "load" 2.5 1 4 ]}).
intros metric H.
repeat (apply elem_of_cons in H as [->|H]; [reflexivity|]).
inversion H.
Defined.

(** X23 on the job of the test, tagged twice with the tag of the test. *)
Lemma AddTagOrCreate_same_job_twice_witness :
  AddTagOrCreate true (AddTagOrCreate true startedTables 1 "testTagType" "testTagName").1
    1 "testTagType" "testTagName"
  = ((AddTagOrCreate true startedTables 1 "testTagType" "testTagName").1,
     (1, Some (ErrUnique "jobtag.job_id, jobtag.tag_id"))).
Proof.
exact (AddTagOrCreate_same_job_twice true startedTables
         (AddTagOrCreate true startedTables 1 "testTagType" "testTagName").1
         1 1 "testTagType" "testTagName" ltac:(reflexivity)).
Defined.

(** X24 on the tables with two tags of one type: the table keeps its two
    rows when the first tag is created again, which fails, and when it is
    added to the job again; [TagId] finds the first tag under its id 1. *)
Lemma tags_stay_unique_witness :
  tagTable taggedTables
  = {[ 1 := mkTagRow "testTagType" "testTagName"; 2 := mkTagRow "testTagType" "otherTagName" ]}
  ∧ CreateTag taggedTables "testTagType" "testTagName"
    = (taggedTables, (0, Some (ErrUnique "tag.tag_type, tag.tag_name")))
  ∧ tagsUnique (CreateTag taggedTables "testTagType" "testTagName").1
  ∧ tagsUnique (AddTagOrCreate true taggedTables 1 "testTagType" "testTagName").1
  ∧ TagId taggedTables "testTagType" "testTagName" = (1, true)
  ∧ ∀ id, TagId taggedTables "testTagType" "testTagName" = (id, true)
          ↔ tagTable taggedTables !! id = Some (mkTagRow "testTagType" "testTagName").
Proof.
assert (Hempty : tagsUnique startedTables).
{ intros id1 id2 row Hrow. simpl in Hrow. rewrite lookup_empty in Hrow. discriminate Hrow. }
pose proof (proj1 (proj2 (tags_stay_unique true startedTables 1 "testTagType" "testTagName"
                            Hempty))) as Hone.
pose proof (proj1 (proj2 (tags_stay_unique true _ 1 "testTagType" "otherTagName" Hone)))
  as Htwo.
fold taggedTables in Htwo.
destruct (tags_stay_unique true taggedTables 1 "testTagType" "testTagName" Htwo)
  as (Hcreate & Hadd & Hid).
split; [reflexivity|]. split; [reflexivity|]. split; [exact Hcreate|]. split; [exact Hadd|].
split; [apply Hid; reflexivity|exact Hid].
Defined.

(** X26 on the archive of three job directories. *)
Lemma InitDB_leaves_imported_tables_witness :
  (∀ id r, jobTable (store (importArchive startedTables testArchive).2) !! id = Some r →
     monitoring_status r = MetricData.MonitoringStatusArchivingSuccessful
     ∧ jobChecks r = true)
  ∧ tagsUnique (store (importArchive startedTables testArchive).2)
  ∧ (true = true →
     ∀ jobId tagId,
       (jobId, tagId) ∈ jobtagTable (store (importArchive startedTables testArchive).2) →
       is_Some (jobTable (store (importArchive startedTables testArchive).2) !! jobId)
       ∧ is_Some (tagTable (store (importArchive startedTables testArchive).2) !! tagId)).
Proof.
apply (InitDB_leaves_imported_tables true (λ _, None) (λ _ _, 0%float) (λ _, "[]") (λ _, "{}")
         startedTables "archive" testArchive
         (store (importArchive startedTables testArchive).2)).
left. reflexivity.
Defined.

End RepositoryMoreExamples.

(** * The properties on the configuration of two clusters *)

Section ConfigExamples.

Import Config Fixtures.

(** X27 on the archive of two clusters. *)
Lemma Init_clusters_witness :
  ClusterName <$> Clusters testConfig = ["emmy"; "woody"]
  ∧ Forall (λ c, is_Some (StartTimeTo c)) (Clusters testConfig)
  ∧ (NoDup ["emmy"; "woody"] →
     ∀ c, c ∈ Clusters testConfig → GetClusterConfig testConfig (ClusterName c) = Some c).
Proof.
exact (Init_clusters string noConfig testConfig ∅ true
         (Some {[ "plot_general_colorscheme" := "dark" ]}) twoClusters ltac:(reflexivity)).
Defined.

(** X28 on the two clusters. *)
Lemma lookups_agree_witness :
  GetPartition testConfig "woody" "debug" = Some (mkPartition "debug")
  ∧ GetMetricConfig testConfig "woody" "load_one" = None.
Proof.
assert (Hnames : NoDup (ClusterName <$> Clusters testConfig)).
{ apply (bool_decide_unpack _). vm_compute. exact I. }
destruct (lookups_agree string testConfig "woody" "debug" Hnames) as [Hp _].
destruct (lookups_agree string testConfig "woody" "load_one" Hnames) as [_ Hm].
split; [rewrite Hp|rewrite Hm]; reflexivity.
Defined.

(** X29 on a user who sets the colour scheme. *)
Lemma UpdateConfig_then_GetUIConfig_witness :
  ∃ st',
    UpdateConfig jsonText "plot_general_colorscheme" "light" (Some "alice") testConfig
    = Some (st', None)
    ∧ configuration st' = {[ ("alice", "plot_general_colorscheme") := "light" ]}
    ∧ ∃ config st'', GetUIConfig jsonText (Some "alice") st' = Some ((Some config, None), st'')
                     ∧ config !! "plot_general_colorscheme" = Some "light".
Proof.
destruct (UpdateConfig_then_GetUIConfig string jsonText testConfig "alice"
            "plot_general_colorscheme" "light" ltac:(reflexivity))
  as (st' & Hupdate & Hrows & Hget & _).
exists st'. split; [exact Hupdate|]. split; [rewrite Hrows; reflexivity|].
destruct (GetUIConfig jsonText (Some "alice") st') as [[[[config|] [err|]] st'']|];
  try contradiction.
- destruct Hget as [(val & Hval & Hkey) _]. exists config, st''. split; [reflexivity|].
  rewrite Hkey. f_equal. injection Hval as <-. reflexivity.
- destruct Hget as (_ & k & rawval & err' & Hrow & Hbad). exfalso.
  rewrite Hrows in Hrow.
  destruct (decide (k = "plot_general_colorscheme")) as [->|Hne].
  + rewrite lookup_insert_eq in Hrow. injection Hrow as <-. discriminate Hbad.
  + rewrite lookup_insert_ne in Hrow by congruence. discriminate Hrow.
Defined.

(** X30 on the defaults of the test configuration. *)
Lemma UpdateConfig_defaults_witness :
  ∃ st',
    UpdateConfig jsonText "plot_general_colorscheme" "light" None testConfig = Some (st', None)
    ∧ GetUIConfig jsonText None st'
      = Some ((Some {[ "plot_general_colorscheme" := "light" ]}, None), st').
Proof.
pose proof (UpdateConfig_defaults string jsonText testConfig
              {[ "plot_general_colorscheme" := "dark" ]}
              "plot_general_colorscheme" "light" ltac:(reflexivity)) as H.
assert (Hjson : jsonText "light" = inr "light") by reflexivity.
rewrite Hjson in H. destruct H as (st' & Hupdate & Hget & _).
exists st'. split; [exact Hupdate|]. rewrite Hget. rewrite insert_singleton_eq. reflexivity.
Defined.

End ConfigExamples.
